(** * Venuu events application: the API layer and the date comparator

    A shallow embedding of [src/ts/api.ts] (classes [ApiService],
    [EventsApi], [UserPreferencesApi]), of the types of [src/ts/types.ts]
    and of the sort comparator of [VenuuApp.applyFilters], together with
    the properties of the cache, the search predicate and the preferences
    store.

    Conventions.
    - A JavaScript string is a [string]; its characters are the code units
      below 256 (Basic Latin and Latin-1, which hold the Icelandic
      alphabet).
    - An optional field ([title?: string]) is an [option]; [None] is
      [undefined].
    - A time value is an integer number of milliseconds, and a JavaScript
      number that may be [NaN] is an [option Z] with [None] for [NaN].
    - A call that may throw yields a [Completion]; [try]/[catch] is
      [try_catch]. *)

From Stdlib Require Import ZArith NArith List String Ascii Bool Lia.
From Stdlib Require Import Sorted Permutation.
From Stdlib Require OrderedTypeEx.
From Stdlib Require Import DecimalString.
Import ListNotations.

Local Open Scope string_scope.
Local Open Scope list_scope.

(** ** JavaScript primitives used by the sources *)

Module Js.

(** Truthiness of a string: only the empty string is falsy. *)
Definition truthy_str (s : string) : bool := negb (s =? "").

(** Truthiness of [string | undefined]. *)
Definition truthy (o : option string) : bool :=
  match o with
  | Some s => truthy_str s
  | None => false
  end.

(** [a || b] on [string | undefined] operands. *)
Definition or_else (a b : option string) : option string :=
  if truthy a then a else b.

(** [a || "lit"]: the right operand is a string literal, so the result
    is a string. *)
Definition or_lit (a : option string) (lit : string) : string :=
  match a with
  | Some s => if truthy_str s then s else lit
  | None => lit
  end.

(** [o && k(o)] where [o] is an object or [undefined]: objects are
    truthy. *)
Definition and_then {A} (o : option A) (k : A -> option string)
  : option string :=
  match o with
  | Some x => k x
  | None => None
  end.

(** [if (o) { ... f(o) ... }] in a boolean position: the guarded test
    fires only for a truthy [o]. *)
Definition guard (o : option string) (f : string -> bool) : bool :=
  match o with
  | Some s => truthy_str s && f s
  | None => false
  end.

(** [String.prototype.toLowerCase] on code units below 256: [A]-[Z] and
    the Latin-1 capitals U+00C0-U+00DE (U+00D7 is the multiplication
    sign) move up by 32. *)
Definition lower_char (c : ascii) : ascii :=
  let n := N_of_ascii c in
  if ((65 <=? n) && (n <=? 90)
      || (192 <=? n) && (n <=? 222) && negb (n =? 215))%N
  then ascii_of_N (n + 32)
  else c.

Fixpoint toLowerCase (s : string) : string :=
  match s with
  | EmptyString => EmptyString
  | String c s' => String (lower_char c) (toLowerCase s')
  end.

Fixpoint startsWith (s q : string) {struct q} : bool :=
  match q with
  | EmptyString => true
  | String c q' =>
      match s with
      | EmptyString => false
      | String d s' => Ascii.eqb c d && startsWith s' q'
      end
  end.

(** [String.prototype.includes]. *)
Fixpoint includes (s q : string) : bool :=
  startsWith s q ||
  match s with
  | EmptyString => false
  | String _ s' => includes s' q
  end.

(** White space and line terminators below 256: TAB, LF, VT, FF, CR,
    SPACE, NBSP. *)
Definition is_space (c : ascii) : bool :=
  let n := N_of_ascii c in
  ((9 <=? n) && (n <=? 13) || (n =? 32) || (n =? 160))%N.

Fixpoint trimStart (s : string) : string :=
  match s with
  | EmptyString => EmptyString
  | String c s' => if is_space c then trimStart s' else s
  end.

Fixpoint trimEnd (s : string) : string :=
  match s with
  | EmptyString => EmptyString
  | String c s' =>
      match trimEnd s' with
      | EmptyString => if is_space c then EmptyString
                       else String c EmptyString
      | t => String c t
      end
  end.

(** [String.prototype.trim]. *)
Definition trim (s : string) : string := trimEnd (trimStart s).

(** [Array.prototype.includes] on an array of strings. *)
Definition array_includes (l : list string) (x : string) : bool :=
  existsb (String.eqb x) l.

(** A number that may be [NaN]. *)
Definition number := option Z.

Definition num_sub (a b : number) : number :=
  match a, b with
  | Some x, Some y => Some (x - y)%Z
  | _, _ => None
  end.

(** [a < b] and [a > b]: any comparison with [NaN] is false. *)
Definition num_lt (a b : number) : bool :=
  match a, b with
  | Some x, Some y => (x <? y)%Z
  | _, _ => false
  end.

Definition num_gt (a b : number) : bool := num_lt b a.

(** ECMAScript's SortCompare, the reading [Array.prototype.sort] makes
    of a comparator's result: [NaN] counts as [+0]. *)
Definition SortCompare {A} (comparefn : A -> A -> number) (x y : A) : Z :=
  match comparefn x y with
  | Some v => v
  | None => 0%Z
  end.

(** Thrown values. *)
Inductive Error : Type :=
| Err (message : string)          (* new Error(message) *)
| HttpErr (status : Z)            (* new Error(`HTTP error! status: ${status}`) *)
| HostErr (name : string).        (* TypeError, SyntaxError, DOMException *)

Inductive Completion (A : Type) : Type :=
| Normal (a : A)
| Throw (e : Error).
Arguments Normal {A} a.
Arguments Throw {A} e.

End Js.

Import Js.

(** ** A state-and-exception monad for the stateful methods

    A method runs on a state [S]; a throw keeps the state reached so
    far. *)

Module Eff.

Definition Eff (S A : Type) : Type := S -> Completion A * S.

Definition ret {S A} (a : A) : Eff S A := fun s => (Normal a, s).

Definition bind {S A B} (m : Eff S A) (k : A -> Eff S B) : Eff S B :=
  fun s =>
    match m s with
    | (Normal a, s') => k a s'
    | (Throw e, s') => (Throw e, s')
    end.

Definition throw {S A} (e : Error) : Eff S A := fun s => (Throw e, s).

(** [try { body } catch (error) { handler(error) }]. *)
Definition try_catch {S A} (body : Eff S A) (handler : Error -> Eff S A)
  : Eff S A :=
  fun s =>
    match body s with
    | (Normal a, s') => (Normal a, s')
    | (Throw e, s') => handler e s'
    end.

Definition gets {S A} (f : S -> A) : Eff S A := fun s => (Normal (f s), s).

Definition modify {S} (f : S -> S) : Eff S unit := fun s => (Normal tt, f s).

(** An awaited value that is already settled. *)
Definition await {S A} (c : Completion A) : Eff S A := fun s => (c, s).

End Eff.

Import Eff.

Declare Scope eff_scope.
Delimit Scope eff_scope with eff.
Notation "x <- m ;; k" := (bind m (fun x => k))
  (at level 61, m at next level, right associativity) : eff_scope.
Notation "m ;; k" := (bind m (fun _ => k))
  (at level 61, right associativity) : eff_scope.

(** ** The event record ([src/ts/types.ts]) *)

(** [language.en]. *)
Record LanguageEn : Type := {
  en_title : option string;
  en_description : option string;
  en_place : option string
}.

Record Language : Type := { en : option LanguageEn }.

(** [category] is declared [string[]], and the data and the code also
    carry a single string there ([Array.isArray] is tested). *)
Inductive Category : Type :=
| CategoryUndefined
| CategoryString (s : string)
| CategoryArray (l : list string).

(** The fields the API layer and the comparator read, and the remaining
    string fields; [price] (number or string) is read by the rendering
    only and is left out. *)
Record VenuuEvent : Type := {
  id : string;
  title : option string;
  title_en : option string;
  language : option Language;
  start : option string;
  date : option string;
  end_ : option string;
  location : option string;
  formatted_address : option string;
  city : option string;
  category : Category;
  event_category : option string;
  event_image : option string;
  event_thumbnail : option string;
  image : option string;
  description : option string;
  detailed_description : option string;
  detailed_description_en : option string;
  organizer : option string
}.

(** [event.category] where the code uses it as a string: a non-array
    value. *)
Definition category_string (event : VenuuEvent) : option string :=
  match category event with
  | CategoryString s => Some s
  | _ => None
  end.

(** [event.language && event.language.en && event.language.en.title]. *)
Definition language_en_title (event : VenuuEvent) : option string :=
  and_then (language event) (fun l => and_then (en l) en_title).

(** [event.language && event.language.en && event.language.en.place]. *)
Definition language_en_place (event : VenuuEvent) : option string :=
  and_then (language event) (fun l => and_then (en l) en_place).

(** An event with only an identifier, to write examples with. *)
Definition bare (i : string) : VenuuEvent :=
  {| id := i; title := None; title_en := None; language := None;
     start := None; date := None; end_ := None; location := None;
     formatted_address := None; city := None;
     category := CategoryUndefined; event_category := None;
     event_image := None; event_thumbnail := None; image := None;
     description := None; detailed_description := None;
     detailed_description_en := None; organizer := None |}.

(** An event with the given title, start and category, to write examples
    with. *)
Definition sample (i : string) (t : option string) (s : option string)
    (c : Category) : VenuuEvent :=
  {| id := i; title := t; title_en := None; language := None;
     start := s; date := None; end_ := None; location := None;
     formatted_address := None; city := None;
     category := c; event_category := None;
     event_image := None; event_thumbnail := None; image := None;
     description := None; detailed_description := None;
     detailed_description_en := None; organizer := None |}.

(** An event with a location only, and one with the two category fields
    only, to write examples with. *)
Definition located (i : string) (l : string) : VenuuEvent :=
  {| id := i; title := None; title_en := None; language := None;
     start := None; date := None; end_ := None; location := Some l;
     formatted_address := None; city := None;
     category := CategoryUndefined; event_category := None;
     event_image := None; event_thumbnail := None; image := None;
     description := None; detailed_description := None;
     detailed_description_en := None; organizer := None |}.

Definition categorized (i : string) (c : Category) (legacy : option string)
  : VenuuEvent :=
  {| id := i; title := None; title_en := None; language := None;
     start := None; date := None; end_ := None; location := None;
     formatted_address := None; city := None;
     category := c; event_category := legacy;
     event_image := None; event_thumbnail := None; image := None;
     description := None; detailed_description := None;
     detailed_description_en := None; organizer := None |}.

(** The fallback chains. The sources write them out at each use:
    [searchEvents] initialises its constants [title], [location] and
    [categories] with the first three and reads the date string of the
    fourth; [applyFilters] repeats the title, location and date chains in
    its comparator. *)

(** [event.title || event.title_en ||
    (event.language && event.language.en && event.language.en.title) || ""]. *)
Definition title_of (event : VenuuEvent) : string :=
  or_lit (or_else (or_else (title event) (title_en event)) (language_en_title event)) "".

(** [event.location || event.formatted_address || event.city ||
    (event.language && event.language.en && event.language.en.place) || ""]. *)
Definition location_of (event : VenuuEvent) : string :=
  or_lit (or_else (or_else (or_else (location event) (formatted_address event)) (city event))
             (language_en_place event)) "".

(** [Array.isArray(event.category) ? event.category
     : [event.category || event.event_category || ""]]. *)
Definition categories_of (event : VenuuEvent) : list string :=
  match category event with
  | CategoryArray l => l
  | _ => [or_lit (or_else (category_string event) (event_category event)) ""]
  end.

(** [event.start || event.date || ""]. *)
Definition date_string_of (event : VenuuEvent) : string :=
  or_lit (or_else (start event) (date event)) "".

(** ** [ApiService] and [EventsApi] ([src/ts/api.ts]) *)

Module EventsApi.

Local Open Scope eff_scope.
Local Open Scope Z_scope.

(** What [fetch] resolves to. The two bodies are read at the type [T]
    the caller names in [request<T>]: [response.json()] is of type [any],
    and the text is returned [as any]. *)
Record Response (T : Type) : Type := {
  ok : bool;
  status : Z;
  content_type : option string;    (* response.headers.get("content-type") *)
  json : Completion T;             (* await response.json() *)
  text : Completion T              (* await response.text() *)
}.
Arguments ok {T} _.
Arguments status {T} _.
Arguments content_type {T} _.
Arguments json {T} _.
Arguments text {T} _.

(** The network as one call sees it: what [fetch(url)] settles to. *)
Definition Network : Type := string -> Completion (Response (list VenuuEvent)).

(** The private fields of an [EventsApi] object, and the two things it
    acts on: the requests sent and the console, oldest first. *)
Record State : Type := {
  eventsCache : option (list VenuuEvent);   (* VenuuEvent[] | null *)
  lastFetch : Z;
  fetched : list string;
  console : list string
}.

(** The object as the constructor leaves it. *)
Definition initial : State :=
  {| eventsCache := None; lastFetch := 0; fetched := []; console := [] |}.

Definition cacheExpiry : Z := 5 * 60 * 1000.

Definition baseUrl : string := "".

Definition primary_url : string := (baseUrl ++ "/api/events")%string.

Definition fallback_url : string := "./api-data.json".

Definition set_cache (events : list VenuuEvent) (now : Z) (s : State) : State :=
  {| eventsCache := Some events; lastFetch := now;
     fetched := fetched s; console := console s |}.

Definition log (line : string) : Eff State unit :=
  modify (fun s =>
    {| eventsCache := eventsCache s; lastFetch := lastFetch s;
       fetched := fetched s; console := console s ++ [line] |}).

(** [await fetch(url)]: the request is recorded, then the network
    answers. *)
Definition fetch (net : Network) (url : string)
  : Eff State (Response (list VenuuEvent)) :=
  modify (fun s =>
    {| eventsCache := eventsCache s; lastFetch := lastFetch s;
       fetched := fetched s ++ [url]; console := console s |}) ;;
  await (net url).

(** [ApiService.request]. *)
Definition request (net : Network) (endpoint : string)
  : Eff State (list VenuuEvent) :=
  let url := (baseUrl ++ endpoint)%string in
  try_catch
    (response <- fetch net url ;;
     if negb (ok response) then throw (HttpErr (status response))
     else if guard (content_type response)
                   (fun contentType => includes contentType "application/json")
     then await (json response)
     else await (text response))
    (fun error => log "API request failed:" ;; throw error).

(** [ApiService.get] with the default [params = {}]: the query string is
    empty and the endpoint is requested as it is. *)
Definition get (net : Network) (endpoint : string)
  : Eff State (list VenuuEvent) :=
  request net endpoint.

(** The part of [getEvents] after the cache test: the [try] on the
    primary endpoint, and in its [catch] the [try] on the local file. *)
Definition getEvents_load (now : Z) (net : Network)
  : Eff State (list VenuuEvent) :=
  try_catch
    (events <- get net "/api/events" ;;
     modify (set_cache events now) ;;
     ret events)
    (fun error =>
       log "API fetch failed, trying local data:" ;;
       try_catch
         (response <- fetch net fallback_url ;;
          events <- await (json response) ;;
          modify (set_cache events now) ;;
          ret events)
         (fun localError =>
            log "Failed to load events from local file:" ;;
            throw (Err "Unable to load events data"))).

(** [EventsApi.getEvents]; [now] is what [Date.now()] returns. In
    [this.eventsCache && now - this.lastFetch < this.cacheExpiry] an
    array is truthy, also when empty, and [null] is not. *)
Definition getEvents (now : Z) (net : Network) : Eff State (list VenuuEvent) :=
  fun s =>
    match eventsCache s with
    | Some cached =>
        if now - lastFetch s <? cacheExpiry then ret cached s
        else getEvents_load now net s
    | None => getEvents_load now net s
    end.

(** [EventsApi.getEventById]; [undefined] is [None]. *)
Definition getEventById (now : Z) (net : Network) (eventId : string)
  : Eff State (option VenuuEvent) :=
  events <- getEvents now net ;;
  ret (find (fun event => String.eqb (id event) eventId) events).

(** [interface SearchParams]; every field is optional. *)
Record SearchParams : Type := {
  sp_query : option string;
  sp_category : option string;
  sp_location : option string;
  sp_startDate : option string;
  sp_endDate : option string
}.

(** The initialiser of the constant [matchesText] in the callback of
    [searchEvents], over the constants in scope there. *)
Definition matchesText (title location : string) (categories : list string)
    (event : VenuuEvent) (query : string) : bool :=
  includes (toLowerCase title) query
  || guard (description event) (fun d => includes (toLowerCase d) query)
  || includes (toLowerCase location) query
  || existsb (fun cat => includes (toLowerCase cat) query) categories.

(** The callback [searchEvents] hands to [events.filter]. [Date_parse]
    is the time value of [new Date(string)], [NaN] for an invalid
    date. *)
Definition searchEvents_filter (Date_parse : string -> number)
    (searchParams : SearchParams) (event : VenuuEvent) : bool :=
  let title := title_of event in
  let location := location_of event in
  let categories := categories_of event in
  if guard (sp_query searchParams) (fun q =>
       let query := toLowerCase q in
       negb (matchesText title location categories event query))
  then false
  else if guard (sp_category searchParams)
                (fun c => negb (array_includes categories c))
  then false
  else if guard (sp_location searchParams)
                (fun l => negb (String.eqb location l))
  then false
  else if truthy (sp_startDate searchParams)
          || truthy (sp_endDate searchParams)
  then
    let eventDate := Date_parse (date_string_of event) in
    if guard (sp_startDate searchParams)
             (fun startDate => num_lt eventDate (Date_parse startDate))
    then false
    else if guard (sp_endDate searchParams)
                  (fun endDate => num_gt eventDate (Date_parse endDate))
    then false
    else true
  else true.

(** [EventsApi.searchEvents]. *)
Definition searchEvents (Date_parse : string -> number) (now : Z)
    (net : Network) (searchParams : SearchParams)
  : Eff State (list VenuuEvent) :=
  events <- getEvents now net ;;
  ret (filter (searchEvents_filter Date_parse searchParams) events).

End EventsApi.

(** ** The sort comparator of [VenuuApp.applyFilters] *)

Module VenuuApp.

Inductive DateOrder : Type := asc | desc.

(** [interface Filters]. *)
Record Filters : Type := {
  f_category : string;
  f_location : string;
  f_sort : string;
  f_dateOrder : DateOrder
}.

(** The state the constructor and [clearAllFilters] set. *)
Definition default_filters : Filters :=
  {| f_category := ""; f_location := ""; f_sort := "date";
     f_dateOrder := asc |}.

(** The default filters with the given direction: the sort is by
    date. *)
Definition by_date (order : DateOrder) : Filters :=
  {| f_category := ""; f_location := ""; f_sort := "date";
     f_dateOrder := order |}.

(** The callback [applyFilters] hands to [filtered.sort]. [getTime] of
    [new Date(string)] is [Date_parse]; [localeCompare] is the host's
    collation. *)
Definition applyFilters_compare (Date_parse : string -> number)
    (localeCompare : string -> string -> Z) (currentFilters : Filters)
    (a b : VenuuEvent) : number :=
  if String.eqb (f_sort currentFilters) "name" then
    let titleA := title_of a in
    let titleB := title_of b in
    Some (localeCompare titleA titleB)
  else if String.eqb (f_sort currentFilters) "location" then
    let locationA := location_of a in
    let locationB := location_of b in
    Some (localeCompare locationA locationB)
  else
    let dateA := Date_parse (date_string_of a) in
    let dateB := Date_parse (date_string_of b) in
    match f_dateOrder currentFilters with
    | asc => num_sub dateA dateB
    | desc => num_sub dateB dateA
    end.

End VenuuApp.

(** ** Date-only strings

    The date-only form [YYYY-MM-DD] of the ECMAScript date-time string
    format, read as UTC midnight; every other string is an invalid date
    here. It stands for [Date.parse] in the examples. *)

Module DateOnly.

Local Open Scope Z_scope.

Definition digit (c : ascii) : option Z :=
  let n := Z.of_N (N_of_ascii c) in
  if (48 <=? n) && (n <=? 57) then Some (n - 48) else None.

Fixpoint digits (acc : Z) (l : list ascii) : option Z :=
  match l with
  | [] => Some acc
  | c :: l' =>
      match digit c with
      | Some d => digits (10 * acc + d) l'
      | None => None
      end
  end.

Definition is_leap (y : Z) : bool :=
  ((y mod 4 =? 0) && negb (y mod 100 =? 0)) || (y mod 400 =? 0).

Definition days_in_month (y m : Z) : Z :=
  if m =? 2 then (if is_leap y then 29 else 28)
  else if (m =? 4) || (m =? 6) || (m =? 9) || (m =? 11) then 30
  else 31.

(** Days from 1970-01-01 to the civil date. *)
Definition days_from_civil (y m d : Z) : Z :=
  let y' := if m <=? 2 then y - 1 else y in
  let era := y' / 400 in
  let yoe := y' - era * 400 in
  let doy := (153 * (if 2 <? m then m - 3 else m + 9) + 2) / 5 + d - 1 in
  let doe := yoe * 365 + yoe / 4 - yoe / 100 + doy in
  era * 146097 + doe - 719468.

Definition msPerDay : Z := 86400000.

Definition parse (s : string) : number :=
  match list_ascii_of_string s with
  | [y1; y2; y3; y4; "-"%char; m1; m2; "-"%char; d1; d2] =>
      match digits 0 [y1; y2; y3; y4], digits 0 [m1; m2], digits 0 [d1; d2] with
      | Some y, Some m, Some d =>
          if (1 <=? m) && (m <=? 12) && (1 <=? d) && (d <=? days_in_month y m)
          then Some (days_from_civil y m d * msPerDay)
          else None
      | _, _, _ => None
      end
  | _ => None
  end.

End DateOnly.

(** ** [UserPreferencesApi] ([src/ts/api.ts]) *)

Module UserPreferencesApi.

Local Open Scope eff_scope.

(** [interface UserPreferences]. *)
Record UserPreferences : Type := {
  favorites : list string;
  theme : string;
  language : string;
  notifications : bool;
  searchHistory : list string
}.

(** [Partial<UserPreferences>]: an object that holds some of the five
    keys. Keys outside the interface ride along in a spread and are
    never read; they are left out. *)
Record PartialPreferences : Type := {
  favorites_key : option (list string);
  theme_key : option string;
  language_key : option string;
  notifications_key : option bool;
  searchHistory_key : option (list string)
}.

Definition no_keys : PartialPreferences :=
  {| favorites_key := None; theme_key := None; language_key := None;
     notifications_key := None; searchHistory_key := None |}.

(** A full object seen as a partial one. *)
Definition all_keys (prefs : UserPreferences) : PartialPreferences :=
  {| favorites_key := Some (favorites prefs);
     theme_key := Some (theme prefs);
     language_key := Some (language prefs);
     notifications_key := Some (notifications prefs);
     searchHistory_key := Some (searchHistory prefs) |}.

Definition override {A} (base : A) (over : option A) : A :=
  match over with
  | Some v => v
  | None => base
  end.

(** [{ ...base, ...over }]. *)
Definition spread (base : UserPreferences) (over : PartialPreferences)
  : UserPreferences :=
  {| favorites := override (favorites base) (favorites_key over);
     theme := override (theme base) (theme_key over);
     language := override (language base) (language_key over);
     notifications := override (notifications base) (notifications_key over);
     searchHistory := override (searchHistory base) (searchHistory_key over) |}.

(** What [JSON.parse] returns: an object, or a value (null, number,
    boolean, string, array) from which a spread takes none of the five
    keys. *)
Inductive JsonValue : Type :=
| JsonObject (keys : PartialPreferences)
| JsonOther.

Definition keys_of (v : JsonValue) : PartialPreferences :=
  match v with
  | JsonObject keys => keys
  | JsonOther => no_keys
  end.

(** The text held under the storage key, told apart by what the code
    can observe of it: its truthiness and what [JSON.parse] makes of
    it. *)
Inductive StoredText : Type :=
| EmptyText                      (* the empty string *)
| MalformedText                  (* JSON.parse throws a SyntaxError *)
| JsonText (v : JsonValue).      (* JSON.parse returns v *)

Definition text_truthy (t : StoredText) : bool :=
  match t with
  | EmptyText => false
  | _ => true
  end.

Definition JSON_parse (t : StoredText) : Completion JsonValue :=
  match t with
  | JsonText v => Normal v
  | _ => Throw (HostErr "SyntaxError")
  end.

(** [JSON.stringify] of a preferences object: parsing the text gives the
    object back. *)
Definition JSON_stringify (prefs : UserPreferences) : StoredText :=
  JsonText (JsonObject (all_keys prefs)).

(** The browser as the class sees it: the entry under
    ["venuu-preferences"] ([None]: no entry), whether [getItem] and
    [setItem] throw (storage disabled, quota exceeded), and the
    console. *)
Record State : Type := {
  entry : option StoredText;
  getItem_throws : bool;
  setItem_throws : bool;
  console : list string
}.

Definition storageKey : string := "venuu-preferences".

Definition localStorage_getItem : Eff State (option StoredText) :=
  fun s =>
    if getItem_throws s then (Throw (HostErr "SecurityError"), s)
    else (Normal (entry s), s).

Definition localStorage_setItem (t : StoredText) : Eff State unit :=
  fun s =>
    if setItem_throws s then (Throw (HostErr "QuotaExceededError"), s)
    else (Normal tt,
          {| entry := Some t; getItem_throws := getItem_throws s;
             setItem_throws := setItem_throws s; console := console s |}).

Definition log (line : string) : Eff State unit :=
  modify (fun s =>
    {| entry := entry s; getItem_throws := getItem_throws s;
       setItem_throws := setItem_throws s; console := console s ++ [line] |}).

Definition defaultPrefs : UserPreferences :=
  {| favorites := []; theme := "light"; language := "en";
     notifications := true; searchHistory := [] |}.

(** [UserPreferencesApi.getPreferences]. *)
Definition getPreferences : Eff State UserPreferences :=
  try_catch
    (stored <- localStorage_getItem ;;
     match stored with
     | Some t =>
         if text_truthy t
         then parsed <- await (JSON_parse t) ;;
              ret (spread defaultPrefs (keys_of parsed))
         else ret defaultPrefs
     | None => ret defaultPrefs
     end)
    (fun error => log "Error loading preferences:" ;; ret defaultPrefs).

(** [UserPreferencesApi.savePreferences]. *)
Definition savePreferences (preferences : PartialPreferences)
  : Eff State unit :=
  try_catch
    (currentPrefs <- getPreferences ;;
     let updatedPrefs := spread currentPrefs preferences in
     localStorage_setItem (JSON_stringify updatedPrefs))
    (fun error => log "Error saving preferences:" ;; ret tt).

Definition set_favorites (prefs : UserPreferences) (l : list string)
  : UserPreferences :=
  {| favorites := l; theme := theme prefs; language := language prefs;
     notifications := notifications prefs;
     searchHistory := searchHistory prefs |}.

Definition set_searchHistory (prefs : UserPreferences) (l : list string)
  : UserPreferences :=
  {| favorites := favorites prefs; theme := theme prefs;
     language := language prefs; notifications := notifications prefs;
     searchHistory := l |}.

(** [UserPreferencesApi.addToFavorites]; [push] appends. *)
Definition addToFavorites (eventId : string) : Eff State unit :=
  prefs <- getPreferences ;;
  if negb (array_includes (favorites prefs) eventId)
  then savePreferences
         (all_keys (set_favorites prefs (favorites prefs ++ [eventId])))
  else ret tt.

(** [UserPreferencesApi.removeFromFavorites]. *)
Definition removeFromFavorites (eventId : string) : Eff State unit :=
  prefs <- getPreferences ;;
  let prefs :=
    set_favorites prefs
      (filter (fun id => negb (String.eqb id eventId)) (favorites prefs)) in
  savePreferences (all_keys prefs).

(** [UserPreferencesApi.isFavorited]. *)
Definition isFavorited (eventId : string) : Eff State bool :=
  prefs <- getPreferences ;;
  ret (array_includes (favorites prefs) eventId).

(** [UserPreferencesApi.getFavorites]. *)
Definition getFavorites : Eff State (list string) :=
  prefs <- getPreferences ;;
  ret (favorites prefs).

(** [UserPreferencesApi.addSearchToHistory]; [unshift] prepends and
    [slice(0, 10)] keeps the first ten. *)
Definition addSearchToHistory (query : string) : Eff State unit :=
  if negb (truthy_str (trim query)) then ret tt
  else
    prefs <- getPreferences ;;
    let history :=
      filter (fun item => negb (String.eqb item query)) (searchHistory prefs) in
    let history := query :: history in
    let prefs := set_searchHistory prefs (firstn 10 history) in
    savePreferences (all_keys prefs).

(** [UserPreferencesApi.getSearchHistory]. *)
Definition getSearchHistory : Eff State (list string) :=
  prefs <- getPreferences ;;
  ret (searchHistory prefs).

(** [UserPreferencesApi.clearSearchHistory]. *)
Definition clearSearchHistory : Eff State unit :=
  prefs <- getPreferences ;;
  savePreferences (all_keys (set_searchHistory prefs [])).

(** The favorites and the history a state holds, as the getters report
    them. *)
Definition favorites_of (s : State) : Completion (list string) :=
  fst (getFavorites s).

Definition history_of (s : State) : Completion (list string) :=
  fst (getSearchHistory s).

(** A browser whose storage works, holding the given entry. *)
Definition working (e : option StoredText) : State :=
  {| entry := e; getItem_throws := false; setItem_throws := false;
     console := [] |}.

(** The state a method ends in. *)
Definition run {A} (m : Eff State A) (s : State) : State := snd (m s).

(** The read of [getPreferences] ends in its [catch]: [getItem] throws,
    or [JSON.parse] throws on the stored text. *)
Definition read_fails (s : State) : bool :=
  getItem_throws s
  || match entry s with
     | Some MalformedText => true
     | _ => false
     end.

(** The preferences a state holds. *)
Definition stored_preferences (s : State) : UserPreferences :=
  if getItem_throws s then defaultPrefs
  else match entry s with
       | Some (JsonText v) => spread defaultPrefs (keys_of v)
       | _ => defaultPrefs
       end.

Definition log_if (b : bool) (line : string) (s : State) : State :=
  if b then
    {| entry := entry s; getItem_throws := getItem_throws s;
       setItem_throws := setItem_throws s; console := console s ++ [line] |}
  else s.

(** A stored object that holds the key [searchHistory] only, and one
    that holds [favorites] only. *)
Definition history_entry (h : list string) : option StoredText :=
  Some (JsonText (JsonObject
    {| favorites_key := None; theme_key := None; language_key := None;
       notifications_key := None; searchHistory_key := Some h |})).

Definition favorites_entry (f : list string) : option StoredText :=
  Some (JsonText (JsonObject
    {| favorites_key := Some f; theme_key := None; language_key := None;
       notifications_key := None; searchHistory_key := None |})).

(** A key of the argument of [savePreferences] as a caller can pass it.
    [Partial<UserPreferences>] makes every key optional, and an optional
    key can be left out or be there with the value [undefined]. *)
Inductive Given (A : Type) : Type :=
| KeyAbsent
| KeyUndefined
| KeyValue (v : A).
Arguments KeyAbsent {A}.
Arguments KeyUndefined {A}.
Arguments KeyValue {A} v.

Record GivenPreferences : Type := {
  favorites_given : Given (list string);
  theme_given : Given string;
  language_given : Given string;
  notifications_given : Given bool;
  searchHistory_given : Given (list string)
}.

(** One key of [JSON.stringify({ ...currentPrefs, ...preferences })].
    The spread copies every key [preferences] holds, also one whose
    value is [undefined], over the key of [currentPrefs]; and
    [JSON.stringify] leaves out a key whose value is [undefined]. *)
Definition written {A} (current : A) (given : Given A) : option A :=
  match given with
  | KeyAbsent => Some current
  | KeyUndefined => None
  | KeyValue v => Some v
  end.

Definition written_keys (currentPrefs : UserPreferences)
    (preferences : GivenPreferences) : PartialPreferences :=
  {| favorites_key :=
       written (favorites currentPrefs) (favorites_given preferences);
     theme_key := written (theme currentPrefs) (theme_given preferences);
     language_key :=
       written (language currentPrefs) (language_given preferences);
     notifications_key :=
       written (notifications currentPrefs) (notifications_given preferences);
     searchHistory_key :=
       written (searchHistory currentPrefs)
         (searchHistory_given preferences) |}.

(** [UserPreferencesApi.savePreferences] at any argument of its type,
    keys with the value [undefined] included. *)
Definition savePreferences_given (preferences : GivenPreferences)
  : Eff State unit :=
  try_catch
    (currentPrefs <- getPreferences ;;
     localStorage_setItem
       (JsonText (JsonObject (written_keys currentPrefs preferences))))
    (fun error => log "Error saving preferences:" ;; ret tt).

(** An argument none of whose keys is [undefined]. *)
Definition given_of {A} (key : option A) : Given A :=
  match key with
  | Some v => KeyValue v
  | None => KeyAbsent
  end.

Definition defined_keys (preferences : PartialPreferences)
  : GivenPreferences :=
  {| favorites_given := given_of (favorites_key preferences);
     theme_given := given_of (theme_key preferences);
     language_given := given_of (language_key preferences);
     notifications_given := given_of (notifications_key preferences);
     searchHistory_given := given_of (searchHistory_key preferences) |}.

Definition is_undefined {A} (given : Given A) : bool :=
  match given with
  | KeyUndefined => true
  | _ => false
  end.

Definition some_undefined (preferences : GivenPreferences) : bool :=
  is_undefined (favorites_given preferences)
  || is_undefined (theme_given preferences)
  || is_undefined (language_given preferences)
  || is_undefined (notifications_given preferences)
  || is_undefined (searchHistory_given preferences).

Definition is_some {A} (key : option A) : bool :=
  match key with
  | Some _ => true
  | None => false
  end.

(** A stored object holds all five keys. *)
Definition five_keys (keys : PartialPreferences) : bool :=
  is_some (favorites_key keys) && is_some (theme_key keys)
  && is_some (language_key keys) && is_some (notifications_key keys)
  && is_some (searchHistory_key keys).

End UserPreferencesApi.

(** ** Definitions that follow the specification's words

    They are compared below with the definitions taken from the code. *)

Module Spec.

(** "First non-empty wins", ending in the empty string. *)
Fixpoint first_non_empty (candidates : list (option string)) : string :=
  match candidates with
  | [] => ""
  | Some s :: rest => if String.eqb s "" then first_non_empty rest else s
  | None :: rest => first_non_empty rest
  end.

(** Title: [title], [title_en], nested [language.en.title]. *)
Definition resolved_title (event : VenuuEvent) : string :=
  first_non_empty
    [title event; title_en event;
     match language event with
     | Some {| en := Some e |} => en_title e
     | _ => None
     end].

(** Location: [location], [formatted_address], [city], nested
    [language.en.place]. *)
Definition resolved_location (event : VenuuEvent) : string :=
  first_non_empty
    [location event; formatted_address event; city event;
     match language event with
     | Some {| en := Some e |} => en_place e
     | _ => None
     end].

(** Categories: the list when [category] is a list, else the one-element
    list of [category], [event_category], empty string. *)
Definition resolved_categories (event : VenuuEvent) : list string :=
  match category event with
  | CategoryArray l => l
  | CategoryString s => [first_non_empty [Some s; event_category event]]
  | CategoryUndefined => [first_non_empty [None; event_category event]]
  end.

(** Date: [start], [date], empty string. *)
Definition resolved_date (event : VenuuEvent) : string :=
  first_non_empty [start event; date event].

(** [q] is a substring of [s], letter case aside. *)
Definition ci_substring (q s : string) : Prop :=
  exists before after : string,
    toLowerCase s = (before ++ toLowerCase q ++ after)%string.

(** The text query keeps a record when it matches the title, the
    description, the location or some category. *)
Definition text_query_matches (q : string) (event : VenuuEvent) : Prop :=
  ci_substring q (resolved_title event)
  \/ (exists d, description event = Some d /\ ci_substring q d)
  \/ ci_substring q (resolved_location event)
  \/ (exists c, In c (resolved_categories event) /\ ci_substring q c).

(** The search parameters [f] with the text query [q]. *)
Definition with_query (q : string) (f : EventsApi.SearchParams)
  : EventsApi.SearchParams :=
  {| EventsApi.sp_query := Some q;
     EventsApi.sp_category := EventsApi.sp_category f;
     EventsApi.sp_location := EventsApi.sp_location f;
     EventsApi.sp_startDate := EventsApi.sp_startDate f;
     EventsApi.sp_endDate := EventsApi.sp_endDate f |}.

(** [select(E, q, f)], as [searchEvents] computes it from the loaded
    list. *)
Definition select (Date_parse : string -> number) (E : list VenuuEvent)
    (q : string) (f : EventsApi.SearchParams) : list VenuuEvent :=
  filter (EventsApi.searchEvents_filter Date_parse (with_query q f)) E.

(** The search parameters [f] with no date bound. *)
Definition without_dates (f : EventsApi.SearchParams)
  : EventsApi.SearchParams :=
  {| EventsApi.sp_query := EventsApi.sp_query f;
     EventsApi.sp_category := EventsApi.sp_category f;
     EventsApi.sp_location := EventsApi.sp_location f;
     EventsApi.sp_startDate := None;
     EventsApi.sp_endDate := None |}.

(** Search parameters with a text query only, and with a start bound
    only. *)
Definition only_query (q : string) : EventsApi.SearchParams :=
  {| EventsApi.sp_query := Some q; EventsApi.sp_category := None;
     EventsApi.sp_location := None; EventsApi.sp_startDate := None;
     EventsApi.sp_endDate := None |}.

Definition only_startDate (d : string) : EventsApi.SearchParams :=
  {| EventsApi.sp_query := None; EventsApi.sp_category := None;
     EventsApi.sp_location := None; EventsApi.sp_startDate := Some d;
     EventsApi.sp_endDate := None |}.

(** The verdict of the engine on a record, from the resolved values of
    the record alone. A parameter that is absent or empty filters
    nothing. The text query keeps the record when the query, letter case
    aside, is a substring of the title, of the description, of the
    location or of some category; the category filter asks for
    membership in the categories; the location filter for equality with
    the location; the date bounds reject a date before the start bound
    and a date after the end bound. *)
Definition keeps_resolved (Date_parse : string -> number)
    (p : EventsApi.SearchParams) (title : string)
    (description : option string) (location : string)
    (categories : list string) (date : string) : bool :=
  let when_set (o : option string) (test : string -> bool) : bool :=
    match o with
    | Some s => if String.eqb s "" then true else test s
    | None => true
    end in
  when_set (EventsApi.sp_query p) (fun q =>
    includes (toLowerCase title) (toLowerCase q)
    || match description with
       | Some d => includes (toLowerCase d) (toLowerCase q)
       | None => false
       end
    || includes (toLowerCase location) (toLowerCase q)
    || existsb (fun c => includes (toLowerCase c) (toLowerCase q)) categories)
  && when_set (EventsApi.sp_category p) (fun c =>
       existsb (String.eqb c) categories)
  && when_set (EventsApi.sp_location p) (fun l => String.eqb location l)
  && when_set (EventsApi.sp_startDate p) (fun s =>
       negb (num_lt (Date_parse date) (Date_parse s)))
  && when_set (EventsApi.sp_endDate p) (fun s =>
       negb (num_gt (Date_parse date) (Date_parse s))).

(** A blank query: no character, or white space only. *)
Definition blank (q : string) : Prop :=
  forall c, In c (list_ascii_of_string q) -> is_space c = true.

End Spec.

(** ** Outcomes of the two loads of [getEvents] *)

Module Load.

Import EventsApi.

(** What the request to the primary endpoint comes to: a network
    failure, a status that is not a success, or the body. *)
Definition primary_outcome (net : Network) : Completion (list VenuuEvent) :=
  match net primary_url with
  | Throw e => Throw e
  | Normal response =>
      if negb (ok response) then Throw (HttpErr (status response))
      else if guard (content_type response)
                    (fun contentType => includes contentType "application/json")
      then json response
      else text response
  end.

(** What the read of the local file comes to. *)
Definition fallback_outcome (net : Network) : Completion (list VenuuEvent) :=
  match net fallback_url with
  | Throw e => Throw e
  | Normal response => json response
  end.

Definition failed {A} (c : Completion A) : bool :=
  match c with
  | Throw _ => true
  | Normal _ => false
  end.

(** The test [getEvents] opens with:
    [this.eventsCache && now - this.lastFetch < this.cacheExpiry]. *)
Definition cache_valid (now : Z) (s : State) : bool :=
  match eventsCache s with
  | Some _ => (now - lastFetch s <? cacheExpiry)%Z
  | None => false
  end.

(** The requests a call added to those of the state it started from. *)
Definition new_requests (before after : State) : list string :=
  skipn (List.length (fetched before)) (fetched after).

(** A network for the examples: each of the two sources answers with a
    list or fails. *)
Definition answers (l : list VenuuEvent) : Completion (Response (list VenuuEvent)) :=
  Normal {| ok := true; status := 200;
            content_type := Some "application/json";
            json := Normal l; text := Throw (HostErr "TypeError") |}.

Definition network (primary fallback : option (list VenuuEvent)) : Network :=
  fun url =>
    if String.eqb url primary_url then
      match primary with
      | Some l => answers l
      | None => Throw (HostErr "TypeError")
      end
    else if String.eqb url fallback_url then
      match fallback with
      | Some l => answers l
      | None => Throw (HostErr "TypeError")
      end
    else Throw (HostErr "TypeError").

End Load.

(** ** Arrays and sets of strings *)

Module Arrays.

Local Open Scope Z_scope.

(** [a === b] where [b] is a string and [a] may be [undefined]. *)
Definition strict_eq (a : option string) (b : string) : bool :=
  match a with
  | Some s => String.eqb s b
  | None => false
  end.

(** [a >= b] on numbers: false when either is [NaN]. *)
Definition num_ge (a b : number) : bool :=
  match a, b with
  | Some x, Some y => y <=? x
  | _, _ => false
  end.

(** A [Set] of strings, as the list of its elements in insertion order
    (the order [Array.from] and [forEach] follow); [add] of an element
    already there changes nothing. *)
Definition Set_add (set : list string) (x : string) : list string :=
  if array_includes set x then set else set ++ [x].

(** [Array.prototype.sort]. The sort is stable, and on a comparator that
    is consistent its result is the one stable sorted arrangement of the
    array; the insertion below computes it ([x] comes before [y] when
    they are found in this order and [x] is not greater). *)
Fixpoint insert {A} (le : A -> A -> bool) (x : A) (l : list A) : list A :=
  match l with
  | [] => [x]
  | y :: r => if le x y then x :: y :: r else y :: insert le x r
  end.

Definition sort_by {A} (le : A -> A -> bool) (l : list A) : list A :=
  fold_right (insert le) [] l.

(** [array.sort(comparefn)]. *)
Definition sort {A} (comparefn : A -> A -> number) (l : list A) : list A :=
  sort_by (fun x y => SortCompare comparefn x y <=? 0) l.

(** [array.sort()] on strings: the order of the code units. *)
Definition sort_strings (l : list string) : list string :=
  sort_by String.leb l.

(** [array.slice(0, end)] for an integer [end]: a negative [end] counts
    from the end of the array. *)
Definition slice0 {A} (end_ : Z) (l : list A) : list A :=
  let len := Z.of_nat (List.length l) in
  let final := if end_ <? 0 then Z.max (len + end_) 0 else Z.min end_ len in
  firstn (Z.to_nat final) l.

(** [array.filter(callback)] for a callback that reads the clock once at
    each call: the test of the element at index [i] gets [i]. *)
Fixpoint filter_at {A} (f : nat -> A -> bool) (i : nat) (l : list A)
  : list A :=
  match l with
  | [] => []
  | x :: r => if f i x then x :: filter_at f (S i) r
              else filter_at f (S i) r
  end.

(** [array.indexOf(x)]: the first index, or -1. *)
Fixpoint indexOf (l : list string) (x : string) : Z :=
  match l with
  | [] => -1
  | y :: r =>
      if String.eqb y x then 0
      else let i := indexOf r x in if i <? 0 then -1 else i + 1
  end.

(** [array.splice(index, 1)] for an index in the array. *)
Definition splice1 {A} (index : Z) (l : list A) : list A :=
  firstn (Z.to_nat index) l ++ skipn (S (Z.to_nat index)) l.

End Arrays.

(** ** The remaining queries of [EventsApi] ([src/ts/api.ts]) *)

Module EventsQueries.

Import EventsApi Arrays.
Local Open Scope eff_scope.

(** [event.location || event.formatted_address || event.city ||
    (event.language && event.language.en && event.language.en.place)],
    with no closing [|| ""]: the value may be [undefined]. *)
Definition location_chain (event : VenuuEvent) : option string :=
  or_else (or_else (or_else (location event) (formatted_address event))
                   (city event))
          (language_en_place event).

(** One turn of the [forEach] of [getCategories]. *)
Definition getCategories_visit (categoriesSet : list string)
    (event : VenuuEvent) : list string :=
  match category event with
  | CategoryArray l => fold_left Set_add l categoriesSet
  | _ =>
      match category_string event with
      | Some c =>
          if truthy_str c then Set_add categoriesSet c
          else match event_category event with
               | Some c' => if truthy_str c' then Set_add categoriesSet c'
                            else categoriesSet
               | None => categoriesSet
               end
      | None =>
          match event_category event with
          | Some c' => if truthy_str c' then Set_add categoriesSet c'
                       else categoriesSet
          | None => categoriesSet
          end
      end
  end.

(** What [getCategories] makes of the loaded list. *)
Definition getCategories_of (events : list VenuuEvent) : list string :=
  sort_strings (fold_left getCategories_visit events []).

(** [EventsApi.getCategories]. *)
Definition getCategories (now : Z) (net : Network) : Eff State (list string) :=
  events <- getEvents now net ;;
  ret (getCategories_of events).

(** One turn of the [forEach] of [getLocations]. *)
Definition getLocations_visit (locationsSet : list string)
    (event : VenuuEvent) : list string :=
  match location_chain event with
  | Some location =>
      if truthy_str location then Set_add locationsSet location
      else locationsSet
  | None => locationsSet
  end.

Definition getLocations_of (events : list VenuuEvent) : list string :=
  sort_strings (fold_left getLocations_visit events []).

(** [EventsApi.getLocations]. *)
Definition getLocations (now : Z) (net : Network) : Eff State (list string) :=
  events <- getEvents now net ;;
  ret (getLocations_of events).

(** The comparator of [getFeaturedEvents]. *)
Definition getFeaturedEvents_compare (Date_parse : string -> number)
    (a b : VenuuEvent) : number :=
  let dateA := Date_parse (date_string_of a) in
  let dateB := Date_parse (date_string_of b) in
  num_sub dateA dateB.

(** What [getFeaturedEvents] makes of the loaded list. The filter calls
    [new Date()] once for each event: [clock i] is the time read at the
    event of index [i]. *)
Definition getFeaturedEvents_of (Date_parse : string -> number)
    (clock : nat -> Z) (limit : Z) (events : list VenuuEvent)
  : list VenuuEvent :=
  let upcomingEvents :=
    sort (getFeaturedEvents_compare Date_parse)
      (filter_at
         (fun i event =>
            let eventDate := Date_parse (date_string_of event) in
            num_ge eventDate (Some (clock i)))
         0 events) in
  slice0 limit upcomingEvents.

(** [EventsApi.getFeaturedEvents]; the default [limit] is 6. *)
Definition getFeaturedEvents (Date_parse : string -> number) (now : Z)
    (net : Network) (clock : nat -> Z) (limit : Z)
  : Eff State (list VenuuEvent) :=
  events <- getEvents now net ;;
  ret (getFeaturedEvents_of Date_parse clock limit events).

(** The callback of [getEventsByCategory]. *)
Definition getEventsByCategory_filter (category_ : string)
    (event : VenuuEvent) : bool :=
  match category event with
  | CategoryArray l => array_includes l category_
  | _ => strict_eq (category_string event) category_
         || strict_eq (event_category event) category_
  end.

(** [EventsApi.getEventsByCategory]. *)
Definition getEventsByCategory (now : Z) (net : Network) (category_ : string)
  : Eff State (list VenuuEvent) :=
  events <- getEvents now net ;;
  ret (filter (getEventsByCategory_filter category_) events).

(** The callback of [getEventsByLocation]. *)
Definition getEventsByLocation_filter (location_ : string)
    (event : VenuuEvent) : bool :=
  let eventLocation := location_chain event in
  strict_eq eventLocation location_.

(** [EventsApi.getEventsByLocation]. *)
Definition getEventsByLocation (now : Z) (net : Network) (location_ : string)
  : Eff State (list VenuuEvent) :=
  events <- getEvents now net ;;
  ret (filter (getEventsByLocation_filter location_) events).

(** Search parameters with a category only, and with a location only. *)
Definition only_category (c : string) : SearchParams :=
  {| sp_query := None; sp_category := Some c; sp_location := None;
     sp_startDate := None; sp_endDate := None |}.

Definition only_location (l : string) : SearchParams :=
  {| sp_query := None; sp_category := None; sp_location := Some l;
     sp_startDate := None; sp_endDate := None |}.

(** Search parameters with the two date bounds only. *)
Definition only_dates (startDate endDate : option string) : SearchParams :=
  {| sp_query := None; sp_category := None; sp_location := None;
     sp_startDate := startDate; sp_endDate := endDate |}.

End EventsQueries.

(** ** The filters and the favorites of the controller ([VenuuApp])

    The class keeps the events, the filters and the query in its fields
    and the favorites under a storage key of its own,
    ["venuu-favorites"]. *)

Module Controller.

Import Arrays EventsQueries VenuuApp.
Local Open Scope eff_scope.
Local Open Scope Z_scope.

(** The callback of the search stage of [applyFilters]; [searchQuery] is
    the field the input listener sets to the lower-cased text. *)
Definition applyFilters_search (searchQuery : string) (event : VenuuEvent)
  : bool :=
  let title := title_of event in
  let location := location_of event in
  let categories :=
    match category event with
    | CategoryArray l => String.concat " " l
    | _ => or_lit (category_string event) ""
    end in
  let description := or_lit (description event) "" in
  includes (toLowerCase title) searchQuery
  || includes (toLowerCase location) searchQuery
  || includes (toLowerCase categories) searchQuery
  || includes (toLowerCase description) searchQuery.

(** The callback of the category stage. *)
Definition applyFilters_category (currentFilters : Filters)
    (event : VenuuEvent) : bool :=
  match category event with
  | CategoryArray l => array_includes l (f_category currentFilters)
  | _ => strict_eq (category_string event) (f_category currentFilters)
  end.

(** The callback of the location stage. *)
Definition applyFilters_location (currentFilters : Filters)
    (event : VenuuEvent) : bool :=
  let location := location_chain event in
  strict_eq location (f_location currentFilters).

(** [applyFilters] up to the sort: the three stages, each run only when
    its setting is not empty. *)
Definition applyFilters_filtered (events : list VenuuEvent)
    (currentFilters : Filters) (searchQuery : string) : list VenuuEvent :=
  let filtered := events in
  let filtered :=
    if truthy_str searchQuery
    then filter (applyFilters_search searchQuery) filtered
    else filtered in
  let filtered :=
    if truthy_str (f_category currentFilters)
    then filter (applyFilters_category currentFilters) filtered
    else filtered in
  let filtered :=
    if truthy_str (f_location currentFilters)
    then filter (applyFilters_location currentFilters) filtered
    else filtered in
  filtered.

(** The list [applyFilters] stores in [this.filteredEvents]. *)
Definition applyFilters_of (Date_parse : string -> number)
    (localeCompare : string -> string -> Z) (events : list VenuuEvent)
    (currentFilters : Filters) (searchQuery : string) : list VenuuEvent :=
  sort (applyFilters_compare Date_parse localeCompare currentFilters)
    (applyFilters_filtered events currentFilters searchQuery).

(** The key the date sort orders dated events by: the time, negated for
    the descending order. *)
Definition date_key (Date_parse : string -> number) (order : DateOrder)
    (e : VenuuEvent) : Z :=
  match Date_parse (date_string_of e), order with
  | Some t, asc => t
  | Some t, desc => - t
  | None, _ => 0
  end.

(** The list [clearAllFilters] ends with: the query and the filters are
    reset, then [applyFilters] runs. *)
Definition clearAllFilters_of (Date_parse : string -> number)
    (localeCompare : string -> string -> Z) (events : list VenuuEvent)
  : list VenuuEvent :=
  applyFilters_of Date_parse localeCompare events default_filters "".

(** [populateFilters] fills two sets in one [forEach]; the sets do not
    read each other, and each is given here by its own turn of the loop.
    [populateSelect] then sorts the options in place before it draws
    them. *)
Definition populateFilters_category (categoriesSet : list string)
    (event : VenuuEvent) : list string :=
  match category event with
  | CategoryArray l => fold_left Set_add l categoriesSet
  | _ =>
      match category_string event with
      | Some c => if truthy_str c then Set_add categoriesSet c
                  else categoriesSet
      | None => categoriesSet
      end
  end.

Definition populateFilters_location (locationsSet : list string)
    (event : VenuuEvent) : list string :=
  let location := location_chain event in
  match location with
  | Some l => if truthy_str l then Set_add locationsSet l else locationsSet
  | None => locationsSet
  end.

(** The options of the category select and of the location select. *)
Definition category_options (events : list VenuuEvent) : list string :=
  sort_strings (fold_left populateFilters_category events []).

Definition location_options (events : list VenuuEvent) : list string :=
  sort_strings (fold_left populateFilters_location events []).

(** The default filters with a category chosen, and with a location
    chosen. *)
Definition choose_category (c : string) : Filters :=
  {| f_category := c; f_location := ""; f_sort := "date";
     f_dateOrder := asc |}.

Definition choose_location (l : string) : Filters :=
  {| f_category := ""; f_location := l; f_sort := "date";
     f_dateOrder := asc |}.

(** The text under ["venuu-favorites"], told apart by what the code can
    observe of it. *)
Inductive FavoritesText : Type :=
| EmptyFavorites                       (* the empty string *)
| MalformedFavorites                   (* JSON.parse throws *)
| JsonFavorites (l : list string).     (* JSON.parse returns the array l *)

Record Storage : Type := {
  entry : option FavoritesText;
  getItem_throws : bool;
  setItem_throws : bool
}.

Definition localStorage_getItem : Eff Storage (option FavoritesText) :=
  fun s =>
    if getItem_throws s then (Throw (HostErr "SecurityError"), s)
    else (Normal (entry s), s).

Definition localStorage_setItem (t : FavoritesText) : Eff Storage unit :=
  fun s =>
    if setItem_throws s then (Throw (HostErr "QuotaExceededError"), s)
    else (Normal tt,
          {| entry := Some t; getItem_throws := getItem_throws s;
             setItem_throws := setItem_throws s |}).

Definition JSON_parse (t : FavoritesText) : Completion (list string) :=
  match t with
  | JsonFavorites l => Normal l
  | _ => Throw (HostErr "SyntaxError")
  end.

(** [VenuuApp.getFavorites]: no [try] around the read. *)
Definition getFavorites : Eff Storage (list string) :=
  stored <- localStorage_getItem ;;
  match stored with
  | Some EmptyFavorites => ret []
  | Some t => await (JSON_parse t)
  | None => ret []
  end.

(** [VenuuApp.isFavorite]. *)
Definition isFavorite (eventId : string) : Eff Storage bool :=
  favorites <- getFavorites ;;
  ret (array_includes favorites eventId).

(** [VenuuApp.toggleFavorite], up to the write. The call of
    [renderEvents] that ends the method draws the cards again; it reads
    the entry just written and writes nothing. *)
Definition toggleFavorite (eventId : string) : Eff Storage unit :=
  favorites <- getFavorites ;;
  let index := indexOf favorites eventId in
  let favorites :=
    if index >? -1 then splice1 index favorites
    else favorites ++ [eventId] in
  localStorage_setItem (JsonFavorites favorites).


End Controller.

(** ** [Utils.formatRelativeTime] *)

Module Utils.

Local Open Scope Z_scope.

(** The decimal digits of an integer, as [String(n)] writes them. *)
Definition number_to_string (n : Z) : string :=
  NilZero.string_of_int (Z.to_int n).

(** [Math.floor(a / b)] for integers and [b > 0]. *)
Definition floor_div (a b : Z) : Z := a / b.

(** [Utils.formatRelativeTime]. [now] is the time of [new Date()] and
    [dateTime] that of the date given, [NaN] for an invalid date. Every
    test on [NaN] fails, and [NaN] is written "NaN". *)
Definition formatRelativeTime (now : Z) (dateTime : number) : string :=
  match dateTime with
  | Some t =>
      let diffInSeconds := floor_div (now - t) 1000 in
      if diffInSeconds <? 60 then "Just now"%string
      else if diffInSeconds <? 3600
      then (number_to_string (floor_div diffInSeconds 60)
            ++ " minutes ago")%string
      else if diffInSeconds <? 86400
      then (number_to_string (floor_div diffInSeconds 3600)
            ++ " hours ago")%string
      else if diffInSeconds <? 2592000
      then (number_to_string (floor_div diffInSeconds 86400)
            ++ " days ago")%string
      else if diffInSeconds <? 31536000
      then (number_to_string (floor_div diffInSeconds 2592000)
            ++ " months ago")%string
      else (number_to_string (floor_div diffInSeconds 31536000)
            ++ " years ago")%string
  | None => "NaN years ago"%string
  end.

End Utils.

(** * Properties *)

(** ** The cache and the two loads *)

Section Cache.

Import EventsApi Load.
Local Open Scope Z_scope.

Variable now : Z.
Variable net : Network.

(** One run of the loading part, by the outcomes of the two sources. *)
Lemma getEvents_load_run (s : State) :
  getEvents_load now net s =
  match primary_outcome net with
  | Normal events =>
      (Normal events,
       {| eventsCache := Some events; lastFetch := now;
          fetched := fetched s ++ [primary_url]; console := console s |})
  | Throw _ =>
      match fallback_outcome net with
      | Normal events =>
          (Normal events,
           {| eventsCache := Some events; lastFetch := now;
              fetched := (fetched s ++ [primary_url]) ++ [fallback_url];
              console := (console s ++ ["API request failed:"])
                         ++ ["API fetch failed, trying local data:"] |})
      | Throw _ =>
          (Throw (Err "Unable to load events data"),
           {| eventsCache := eventsCache s; lastFetch := lastFetch s;
              fetched := (fetched s ++ [primary_url]) ++ [fallback_url];
              console := ((console s ++ ["API request failed:"])
                          ++ ["API fetch failed, trying local data:"])
                         ++ ["Failed to load events from local file:"] |})
      end
  end.
Proof.
  unfold getEvents_load, get, request, primary_outcome, fallback_outcome,
    fetch, log, try_catch, bind, modify, await, throw, ret, primary_url,
    set_cache, baseUrl.
  cbn [String.append fst snd fetched console eventsCache lastFetch].
  destruct (net "/api/events") as [r | e]; cbn.
  - destruct (ok r); cbn.
    + destruct (guard (content_type r) _); cbn.
      * destruct (json r); cbn; [reflexivity |].
        destruct (net fallback_url) as [r' | e']; cbn; [| reflexivity].
        destruct (json r'); reflexivity.
      * destruct (text r); cbn; [reflexivity |].
        destruct (net fallback_url) as [r' | e']; cbn; [| reflexivity].
        destruct (json r'); reflexivity.
    + destruct (net fallback_url) as [r' | e']; cbn; [| reflexivity].
      destruct (json r'); reflexivity.
  - destruct (net fallback_url) as [r' | e']; cbn; [| reflexivity].
    destruct (json r'); reflexivity.
Qed.

(** A call that does not answer from the cache is the loading part. *)
Lemma getEvents_miss (s : State) :
  cache_valid now s = false -> getEvents now net s = getEvents_load now net s.
Proof.
  unfold cache_valid, getEvents. destruct (eventsCache s); [| reflexivity].
  intros ->. reflexivity.
Qed.

(** A call that answers from the cache returns it and changes nothing. *)
Lemma getEvents_hit (s : State) (L : list VenuuEvent) :
  eventsCache s = Some L -> now - lastFetch s < cacheExpiry ->
  getEvents now net s = (Normal L, s).
Proof.
  intros HL Hfresh. unfold getEvents. rewrite HL.
  apply Z.ltb_lt in Hfresh. rewrite Hfresh. reflexivity.
Qed.

Lemma new_requests_app (s s' : State) (l : list string) :
  fetched s' = fetched s ++ l -> new_requests s s' = l.
Proof.
  intros H. unfold new_requests. rewrite H.
  rewrite skipn_app, skipn_all, Nat.sub_diag. reflexivity.
Qed.

(** What a call that misses the cache sends, by the outcome of the
    primary source. *)
Lemma getEvents_load_requests (s : State) :
  new_requests s (snd (getEvents_load now net s)) =
  if failed (primary_outcome net) then [primary_url; fallback_url]
  else [primary_url].
Proof.
  rewrite getEvents_load_run.
  destruct (primary_outcome net); cbn [failed].
  - apply new_requests_app. reflexivity.
  - destruct (fallback_outcome net); apply new_requests_app; cbn [snd fetched];
      rewrite <- app_assoc; reflexivity.
Qed.

End Cache.

Section CacheClaims.

Import EventsApi Load.
Local Open Scope Z_scope.

(** [find] returns the first element that passes the test. *)
Lemma find_first {A} (f : A -> bool) (l : list A) (a : A) :
  find f l = Some a <->
  exists l1 l2, l = l1 ++ a :: l2 /\ f a = true
                /\ forall x, In x l1 -> f x = false.
Proof.
  induction l as [| x l IH]; cbn.
  - split; [discriminate |].
    intros (l1 & l2 & H & _). destruct l1; discriminate.
  - destruct (f x) eqn:Hx.
    + split.
      * intros [= ->]. exists [], l. cbn. intuition.
      * intros (l1 & l2 & H & Ha & Hl1). destruct l1 as [| y l1].
        -- cbn in H. injection H as -> _. reflexivity.
        -- cbn in H. injection H as -> _.
           rewrite (Hl1 y (or_introl eq_refl)) in Hx. discriminate.
    + rewrite IH. split.
      * intros (l1 & l2 & -> & Ha & Hl1). exists (x :: l1), l2.
        cbn. repeat split; trivial. intros y [<- | Hy]; auto.
      * intros (l1 & l2 & H & Ha & Hl1). destruct l1 as [| y l1].
        -- cbn in H. injection H as -> _. congruence.
        -- cbn in H. injection H as -> ->. exists l1, l2.
           repeat split; trivial. intros z Hz. apply Hl1. now right.
Qed.

Lemma find_none_iff {A} (f : A -> bool) (l : list A) :
  find f l = None <-> forall x, In x l -> f x = false.
Proof.
  split.
  - intros H x Hx. exact (find_none f l H x Hx).
  - induction l as [| x l IH]; cbn; [reflexivity |].
    intros H. rewrite (H x (or_introl eq_refl)). apply IH.
    intros y Hy. apply H. now right.
Qed.

(** C1. With a list [L] in the cache from a fetch at [lastFetch], a call
    at a time [now] with [now - lastFetch < 300000] returns [L] and
    leaves the state as it is: no request is sent, nothing is logged.
    With [now - lastFetch >= 300000], or with no list in the cache, the
    call sends the request to the primary endpoint, once, before
    anything else it sends. *)
Theorem getEvents_cache_window (now : Z) (net : Network) (s : State) :
  (forall L, eventsCache s = Some L -> now - lastFetch s < 300000 ->
     getEvents now net s = (Normal L, s))
  /\ (eventsCache s = None \/ now - lastFetch s >= 300000 ->
      exists rest,
        fetched (snd (getEvents now net s))
        = fetched s ++ "/api/events" :: rest
        /\ ~ In "/api/events" rest).
Proof.
  split.
  - intros L HL Hfresh. now apply getEvents_hit.
  - intros Hmiss.
    assert (Hv : cache_valid now s = false).
    { unfold cache_valid. destruct (eventsCache s); [| reflexivity].
      destruct Hmiss as [H | H]; [discriminate |].
      apply Z.ltb_ge. unfold cacheExpiry. lia. }
    rewrite (getEvents_miss now net s Hv), getEvents_load_run.
    destruct (primary_outcome net).
    + exists []. split; [reflexivity | intros []].
    + exists ["./api-data.json"%string].
      assert (Hno : ~ In "/api/events"%string ["./api-data.json"%string]).
      { intros [H | []]. discriminate. }
      destruct (fallback_outcome net); cbn [snd fetched];
        rewrite <- app_assoc; split; trivial.
Qed.

(** C3. On a call that misses the cache, when the primary load and the
    fallback load both fail, the call throws the one error "Unable to
    load events data", and the cached list and its timestamp are those
    of before the call. *)
Theorem getEvents_both_fail (now : Z) (net : Network) (s : State) :
  cache_valid now s = false ->
  failed (primary_outcome net) = true ->
  failed (fallback_outcome net) = true ->
  exists s',
    getEvents now net s = (Throw (Err "Unable to load events data"), s')
    /\ eventsCache s' = eventsCache s
    /\ lastFetch s' = lastFetch s.
Proof.
  intros Hv Hp Hf. rewrite (getEvents_miss now net s Hv), getEvents_load_run.
  destruct (primary_outcome net); [discriminate |].
  destruct (fallback_outcome net); [discriminate |].
  eexists. split; [reflexivity |]. split; reflexivity.
Qed.

(** C9, as amended. On a call that misses the cache the request to the
    primary endpoint is sent first and once; the request for the local
    file follows it, once, exactly when the primary load failed. So one
    request is sent when the primary load succeeds and two when it
    fails. *)
Theorem getEvents_fetch_order (now : Z) (net : Network) (s : State) :
  cache_valid now s = false ->
  fetched (snd (getEvents now net s))
  = fetched s ++ (if failed (primary_outcome net)
                  then ["/api/events"; "./api-data.json"]
                  else ["/api/events"])%string.
Proof.
  intros Hv. rewrite (getEvents_miss now net s Hv), getEvents_load_run.
  destruct (primary_outcome net); cbn [failed]; [reflexivity |].
  destruct (fallback_outcome net); cbn [snd fetched];
    rewrite <- app_assoc; reflexivity.
Qed.

(** C10. When the events load as the list [E], [getEventById] returns
    the first event of [E] whose [id] is the identifier asked for, and
    [undefined], not an error, when [E] has no such event. *)
Theorem getEventById_first_match (now : Z) (net : Network) (s s' : State)
    (eventId : string) (E : list VenuuEvent) :
  getEvents now net s = (Normal E, s') ->
  exists r,
    getEventById now net eventId s = (Normal r, s')
    /\ (forall e, r = Some e <->
          exists l1 l2, E = l1 ++ e :: l2 /\ id e = eventId
                        /\ forall x, In x l1 -> id x <> eventId)
    /\ (r = None <-> forall x, In x E -> id x <> eventId).
Proof.
  intros Hload.
  exists (find (fun event => String.eqb (id event) eventId) E).
  split; [| split].
  - unfold getEventById, bind, ret. rewrite Hload. reflexivity.
  - intros e. rewrite find_first. split.
    + intros (l1 & l2 & HE & He & Hl1). exists l1, l2.
      repeat split; trivial.
      * now apply String.eqb_eq.
      * intros x Hx. apply String.eqb_neq. auto.
    + intros (l1 & l2 & HE & He & Hl1). exists l1, l2.
      repeat split; trivial.
      * now apply String.eqb_eq.
      * intros x Hx. apply String.eqb_neq. auto.
  - rewrite find_none_iff. split; intros H x Hx.
    + apply String.eqb_neq. auto.
    + apply String.eqb_neq. auto.
Qed.

End CacheClaims.

Section CacheExamples.

Import EventsApi Load.
Local Open Scope Z_scope.

(** A fetch at time 0 that returns one event; then a read at 299 s is
    answered from the cache with no request, and a read at 301 s sends
    the primary request once. *)
Lemma getEvents_cache_window_witness :
  let L := [bare "a"] in
  let s0 := snd (getEvents 0 (network (Some L) None) initial) in
  getEvents 299000 (network None None) s0 = (Normal L, s0)
  /\ exists rest,
       fetched (snd (getEvents 301000 (network None None) s0))
       = fetched s0 ++ "/api/events"%string :: rest
       /\ ~ In "/api/events"%string rest.
Proof.
  cbv zeta. split.
  - apply (proj1 (getEvents_cache_window 299000 (network None None) _)).
    + reflexivity.
    + vm_compute. reflexivity.
  - apply (proj2 (getEvents_cache_window 301000 (network None None) _)).
    right. vm_compute. discriminate.
Defined.

(** A stale cache and two dead sources: the call throws and the cache
    stays. *)
Lemma getEvents_both_fail_witness :
  let s := {| eventsCache := Some [bare "a"]; lastFetch := 0;
              fetched := []; console := [] |} in
  exists s',
    getEvents 400000 (network None None) s
    = (Throw (Err "Unable to load events data"), s')
    /\ eventsCache s' = eventsCache s
    /\ lastFetch s' = lastFetch s.
Proof.
  cbv zeta.
  apply (getEvents_both_fail 400000 (network None None)); reflexivity.
Defined.

(** C9 as stated fails: on a first call with a dead primary source and a
    live local file, two requests are sent, not one. *)
Lemma getEvents_one_fetch_counterexample :
  let net := network None (Some [bare "a"]) in
  cache_valid 0 initial = false
  /\ new_requests initial (snd (getEvents 0 net initial))
     = ["/api/events"; "./api-data.json"]%string
  /\ ~ (forall now net s,
          cache_valid now s = false ->
          List.length (new_requests s (snd (getEvents now net s))) = 1%nat).
Proof.
  cbv zeta. split; [reflexivity |]. split; [reflexivity |].
  intros H.
  specialize (H 0 (network None (Some [bare "a"])) initial eq_refl).
  vm_compute in H. discriminate H.
Qed.

Lemma getEvents_fetch_order_witness :
  fetched (snd (getEvents 0 (network None (Some [bare "a"])) initial))
  = ["/api/events"; "./api-data.json"]%string
  /\ fetched (snd (getEvents 0 (network (Some [bare "a"]) None) initial))
     = ["/api/events"]%string.
Proof.
  split.
  - apply (getEvents_fetch_order 0 (network None (Some [bare "a"])) initial).
    reflexivity.
  - apply (getEvents_fetch_order 0 (network (Some [bare "a"]) None) initial).
    reflexivity.
Defined.

(** Two events share the identifier ["b"]; the first one is returned. *)
Lemma getEventById_first_match_witness :
  let b1 := {| id := "b"; title := Some "first"; title_en := None;
               language := None; start := None; date := None; end_ := None;
               location := None; formatted_address := None; city := None;
               category := CategoryUndefined; event_category := None;
               event_image := None; event_thumbnail := None; image := None;
               description := None; detailed_description := None;
               detailed_description_en := None; organizer := None |} in
  let E := [bare "a"; b1; bare "b"] in
  let s := {| eventsCache := Some E; lastFetch := 0;
              fetched := []; console := [] |} in
  exists r,
    getEventById 10 (network None None) "b" s = (Normal r, s)
    /\ (forall e, r = Some e <->
          exists l1 l2, E = l1 ++ e :: l2 /\ id e = "b"%string
                        /\ forall x, In x l1 -> id x <> "b"%string)
    /\ (r = None <-> forall x, In x E -> id x <> "b"%string).
Proof.
  cbv zeta.
  apply (getEventById_first_match 10 (network None None)).
  reflexivity.
Defined.

End CacheExamples.

(** ** Strings *)

Section Strings.

Lemma truthy_str_true (s : string) : truthy_str s = true <-> s <> "".
Proof.
  unfold truthy_str. rewrite negb_true_iff. apply String.eqb_neq.
Qed.

Lemma truthy_str_false (s : string) : truthy_str s = false <-> s = "".
Proof.
  unfold truthy_str. rewrite negb_false_iff. apply String.eqb_eq.
Qed.

Lemma toLowerCase_empty (s : string) : toLowerCase s = "" <-> s = "".
Proof.
  destruct s; cbn; split; intros H; try reflexivity; discriminate.
Qed.

Lemma append_empty_inv (a b : string) : (a ++ b)%string = "" -> a = "" /\ b = "".
Proof.
  destruct a; cbn; intros H; [now split | discriminate].
Qed.

Lemma startsWith_spec (s q : string) :
  startsWith s q = true <-> exists after, s = (q ++ after)%string.
Proof.
  revert s. induction q as [| c q IH]; intros s; cbn.
  - split; [intros _; now exists s | reflexivity].
  - destruct s as [| d s].
    + split; [discriminate | intros [after H]; discriminate].
    + rewrite andb_true_iff, IH. split.
      * intros [Hc [after ->]]. apply Ascii.eqb_eq in Hc. subst d.
        now exists after.
      * intros [after [= -> ->]]. split; [apply Ascii.eqb_refl |].
        now exists after.
Qed.

(** [includes] is the substring test. *)
Lemma includes_spec (s q : string) :
  includes s q = true <->
  exists before after, s = (before ++ q ++ after)%string.
Proof.
  induction s as [| d s IH].
  - cbn [includes]. rewrite orb_false_r, startsWith_spec. split.
    + intros [after H]. now exists "", after.
    + intros (before & after & H). symmetry in H.
      apply append_empty_inv in H as [-> H]. now exists after.
  - cbn [includes]. rewrite orb_true_iff, startsWith_spec, IH. split.
    + intros [[after H] | (before & after & H)].
      * now exists "", after.
      * exists (String d before), after. cbn. now rewrite H.
    + intros (before & after & H). destruct before as [| c before].
      * left. now exists after.
      * right. cbn in H. injection H as _ H. now exists before, after.
Qed.

Lemma includes_ci (s q : string) :
  includes (toLowerCase s) (toLowerCase q) = true <-> Spec.ci_substring q s.
Proof. apply includes_spec. Qed.

Lemma trimEnd_all_space (s : string) :
  trimEnd s = "" <->
  forall c, In c (list_ascii_of_string s) -> is_space c = true.
Proof.
  induction s as [| c s IH]; cbn.
  - split; [intros _ c [] | reflexivity].
  - destruct (trimEnd s) eqn:Ht.
    + destruct (is_space c) eqn:Hc.
      * split; [| reflexivity]. intros _ x [<- | Hx]; [exact Hc |].
        now apply (proj1 IH eq_refl).
      * split; [discriminate |]. intros H.
        rewrite (H c (or_introl eq_refl)) in Hc. discriminate.
    + split; [discriminate |]. intros H.
      assert (Hs : String a s0 = "") by (apply IH; intros x Hx; apply H; now right).
      discriminate.
Qed.

(** [trim] leaves the empty string exactly on the strings made of white
    space only. *)
Lemma trim_blank (s : string) :
  trim s = "" <->
  forall c, In c (list_ascii_of_string s) -> is_space c = true.
Proof.
  unfold trim. induction s as [| c s IH]; cbn [trimStart].
  - cbn. split; [intros _ c [] | reflexivity].
  - destruct (is_space c) eqn:Hc.
    + rewrite IH. cbn. split.
      * intros H x [<- | Hx]; auto.
      * intros H x Hx. apply H. now right.
    + apply trimEnd_all_space.
Qed.

(** The chains of the code are "first non-empty wins". *)
Lemma or_lit_first (a : option string) (rest : list (option string)) :
  or_lit a (Spec.first_non_empty rest) = Spec.first_non_empty (a :: rest).
Proof.
  destruct a as [s |]; cbn; [| reflexivity].
  unfold truthy_str. destruct (String.eqb s ""); reflexivity.
Qed.

Lemma or_lit_or (a b : option string) (lit : string) :
  or_lit (or_else a b) lit = or_lit a (or_lit b lit).
Proof.
  unfold or_else. destruct a as [s |]; cbn; [| reflexivity].
  destruct (truthy_str s) eqn:Hs; cbn; [now rewrite Hs | reflexivity].
Qed.

Lemma or_lit_last (a : option string) :
  or_lit a "" = Spec.first_non_empty [a].
Proof. now rewrite <- or_lit_first. Qed.

Lemma title_of_resolved (e : VenuuEvent) : title_of e = Spec.resolved_title e.
Proof.
  unfold title_of, Spec.resolved_title.
  rewrite !or_lit_or, or_lit_last, !or_lit_first.
  unfold language_en_title, and_then.
  destruct (language e) as [[[en |]] |]; reflexivity.
Qed.

Lemma location_of_resolved (e : VenuuEvent) :
  location_of e = Spec.resolved_location e.
Proof.
  unfold location_of, Spec.resolved_location.
  rewrite !or_lit_or, or_lit_last, !or_lit_first.
  unfold language_en_place, and_then.
  destruct (language e) as [[[en |]] |]; reflexivity.
Qed.

Lemma categories_of_resolved (e : VenuuEvent) :
  categories_of e = Spec.resolved_categories e.
Proof.
  unfold categories_of, Spec.resolved_categories, category_string.
  destruct (category e); rewrite ?or_lit_or, ?or_lit_last, ?or_lit_first;
    reflexivity.
Qed.

Lemma date_string_of_resolved (e : VenuuEvent) :
  date_string_of e = Spec.resolved_date e.
Proof.
  unfold date_string_of, Spec.resolved_date.
  now rewrite or_lit_or, or_lit_last, or_lit_first.
Qed.

End Strings.

(** ** The search predicate *)

Section Search.

Import EventsApi.

Variable Date_parse : string -> number.

(** The text test of the callback, apart from the other three. *)
Lemma searchEvents_filter_query (q : string) (f : SearchParams)
    (e : VenuuEvent) :
  searchEvents_filter Date_parse (Spec.with_query q f) e =
  (negb (truthy_str q)
   || matchesText (title_of e) (location_of e) (categories_of e) e
        (toLowerCase q))
  && searchEvents_filter Date_parse (Spec.with_query "" f) e.
Proof.
  unfold searchEvents_filter, Spec.with_query.
  cbn [sp_query sp_category sp_location sp_startDate sp_endDate guard].
  change (truthy_str "") with false. cbn [andb].
  destruct (truthy_str q); cbn [andb negb orb]; [| reflexivity].
  destruct (matchesText _ _ _ e _); reflexivity.
Qed.

(** The text test is the case-blind substring test on the four resolved
    fields. *)
Lemma matchesText_spec (q : string) (e : VenuuEvent) :
  q <> "" ->
  matchesText (title_of e) (location_of e) (categories_of e) e
    (toLowerCase q) = true
  <-> Spec.text_query_matches q e.
Proof.
  intros Hq. unfold matchesText, Spec.text_query_matches.
  rewrite !orb_true_iff, !includes_ci, title_of_resolved,
    location_of_resolved, categories_of_resolved, existsb_exists.
  assert (Hd : guard (description e)
                 (fun d => includes (toLowerCase d) (toLowerCase q)) = true
               <-> exists d, description e = Some d /\ Spec.ci_substring q d).
  { unfold guard. destruct (description e) as [d |].
    - rewrite andb_true_iff, includes_ci, truthy_str_true. split.
      + intros [_ H]. now exists d.
      + intros (d' & [= <-] & H). split; [| exact H].
        intros ->. destruct H as (b & a & H). cbn in H. symmetry in H.
        apply append_empty_inv in H as [_ H].
        apply append_empty_inv in H as [H _].
        apply Hq. now apply toLowerCase_empty.
    - split; [discriminate | intros (d & H & _); discriminate]. }
  assert (Hc : (exists x, In x (Spec.resolved_categories e)
                  /\ includes (toLowerCase x) (toLowerCase q) = true)
               <-> exists c, In c (Spec.resolved_categories e)
                   /\ Spec.ci_substring q c).
  { split; intros (c & Hin & H); exists c; split; trivial;
      now apply includes_ci. }
  rewrite Hd, Hc. tauto.
Qed.

Lemma includes_empty (q : string) :
  q <> ""%string -> includes "" q = false.
Proof. destruct q; [contradiction | reflexivity]. Qed.

(** A guarded rejection of the callback, as a test that passes when
    the parameter is absent or empty. *)
Lemma guard_reject (o : option string) (reject : string -> bool)
    (rest : bool) :
  (if guard o reject then false else rest)
  = match o with
    | Some s => if String.eqb s "" then true else negb (reject s)
    | None => true
    end && rest.
Proof.
  unfold guard, truthy_str. destruct o as [s |]; [| reflexivity].
  destruct (String.eqb s ""); cbn; [reflexivity |].
  destruct (reject s); reflexivity.
Qed.

Lemma guard_test (o : option string) (test : string -> bool) (rest : bool) :
  (if guard o (fun s => negb (test s)) then false else rest)
  = match o with
    | Some s => if String.eqb s "" then true else test s
    | None => true
    end && rest.
Proof.
  rewrite guard_reject. destruct o as [s |]; [| reflexivity].
  destruct (String.eqb s ""); [reflexivity |].
  now rewrite negb_involutive.
Qed.

(** The date part of the callback: the two bounds, each tested when it
    is set. *)
Lemma date_part (sd ed : option string) (lo hi : string -> bool) :
  (if truthy sd || truthy ed
   then if guard sd lo then false
        else if guard ed hi then false else true
   else true)
  = match sd with
    | Some s => if String.eqb s "" then true else negb (lo s)
    | None => true
    end
    && match ed with
       | Some s => if String.eqb s "" then true else negb (hi s)
       | None => true
       end.
Proof.
  unfold truthy, guard, truthy_str.
  destruct sd as [s |], ed as [s' |];
    repeat match goal with
      | |- context [String.eqb ?x ""] => destruct (String.eqb x "")
      end; cbn;
    repeat match goal with
      | |- context [lo ?x] => destruct (lo x)
      | |- context [hi ?x] => destruct (hi x)
      end; reflexivity.
Qed.

(** The callback of [searchEvents], computed from the resolved values of
    the event. *)
Lemma searchEvents_filter_keeps_resolved (p : SearchParams) (e : VenuuEvent) :
  searchEvents_filter Date_parse p e
  = Spec.keeps_resolved Date_parse p
      (Spec.resolved_title e) (description e) (Spec.resolved_location e)
      (Spec.resolved_categories e) (Spec.resolved_date e).
Proof.
  rewrite <- title_of_resolved, <- location_of_resolved,
    <- categories_of_resolved, <- date_string_of_resolved.
  change (searchEvents_filter Date_parse p e)
    with (if guard (sp_query p)
               (fun s => negb ((fun q => matchesText (title_of e)
                                  (location_of e) (categories_of e) e
                                  (toLowerCase q)) s))
          then false
          else if guard (sp_category p)
                    (fun s => negb ((fun c => array_includes
                                       (categories_of e) c) s))
          then false
          else if guard (sp_location p)
                    (fun s => negb ((fun l => String.eqb (location_of e) l) s))
          then false
          else if truthy (sp_startDate p) || truthy (sp_endDate p)
          then if guard (sp_startDate p)
                    (fun s => num_lt (Date_parse (date_string_of e))
                                (Date_parse s))
               then false
               else if guard (sp_endDate p)
                         (fun s => num_gt (Date_parse (date_string_of e))
                                     (Date_parse s))
               then false else true
          else true).
  rewrite !guard_test, date_part. unfold Spec.keeps_resolved.
  rewrite !andb_assoc. unfold array_includes.
  do 4 f_equal.
  destruct (sp_query p) as [q |]; [| reflexivity].
  destruct (String.eqb_spec q "") as [| Hne]; [reflexivity |].
  unfold matchesText. do 3 f_equal. unfold guard.
  destruct (description e) as [d |]; [| reflexivity].
  destruct (truthy_str d) eqn:Hd; [reflexivity |].
  apply truthy_str_false in Hd. subst d. cbn [andb toLowerCase].
  symmetry. apply includes_empty. intros H.
  apply Hne. exact (proj1 (toLowerCase_empty q) H).
Qed.

(** C2. For every event, the title the search uses is the first
    non-empty of [title], [title_en], [language.en.title], else the empty
    string; its location is the first non-empty of [location],
    [formatted_address], [city], [language.en.place], else the empty
    string; its category list is [category] when that is a list, else the
    one-element list of the first non-empty of [category],
    [event_category], else of the empty string, which stays in the list.
    The callback of [searchEvents] reads these fields through the
    resolved values only: two events with the same resolved title,
    location, categories and date and the same description are kept or
    dropped together. And it matches on exactly these values: its
    verdict on an event is the verdict [Spec.keeps_resolved] computes
    from the resolved title, the description, the resolved location, the
    resolved categories and the resolved date of the event. *)
Theorem searchEvents_resolved_values (searchParams : SearchParams)
    (e e' : VenuuEvent) :
  title_of e = Spec.resolved_title e
  /\ location_of e = Spec.resolved_location e
  /\ categories_of e = Spec.resolved_categories e
  /\ (category e = CategoryUndefined \/ category e = CategoryString "" ->
      event_category e = None \/ event_category e = Some "" ->
      categories_of e = [""])
  /\ (Spec.resolved_title e = Spec.resolved_title e' ->
      Spec.resolved_location e = Spec.resolved_location e' ->
      Spec.resolved_categories e = Spec.resolved_categories e' ->
      Spec.resolved_date e = Spec.resolved_date e' ->
      description e = description e' ->
      searchEvents_filter Date_parse searchParams e
      = searchEvents_filter Date_parse searchParams e')
  /\ searchEvents_filter Date_parse searchParams e
     = Spec.keeps_resolved Date_parse searchParams
         (Spec.resolved_title e) (description e) (Spec.resolved_location e)
         (Spec.resolved_categories e) (Spec.resolved_date e).
Proof.
  split; [apply title_of_resolved |].
  split; [apply location_of_resolved |].
  split; [apply categories_of_resolved |].
  split; [| split].
  - unfold categories_of, category_string.
    intros [-> | ->] [-> | ->]; reflexivity.
  - intros Ht Hl Hc Hd Hdesc. unfold searchEvents_filter, matchesText.
    rewrite !title_of_resolved, !location_of_resolved,
      !categories_of_resolved, !date_string_of_resolved.
    rewrite Ht, Hl, Hc, Hd, Hdesc. reflexivity.
  - apply searchEvents_filter_keeps_resolved.
Qed.

(** C5. For every list [E], filter state [f] and query [q], the records
    of [select E q f] are records of [select E "" f], in the same order;
    and a record of [select E "" f] is in [select E q f] exactly when [q]
    is empty or is, letter case aside, a substring of its resolved title,
    of its description, of its resolved location or of one of its
    resolved categories. *)
Theorem select_query_narrows (E : list VenuuEvent) (q : string)
    (f : SearchParams) :
  (forall e, In e (Spec.select Date_parse E q f) ->
             In e (Spec.select Date_parse E "" f))
  /\ (forall e, In e (Spec.select Date_parse E q f) <->
                In e (Spec.select Date_parse E "" f)
                /\ (q = "" \/ Spec.text_query_matches q e))
  /\ Spec.select Date_parse E q f
     = filter (fun e =>
                 negb (truthy_str q)
                 || matchesText (title_of e) (location_of e)
                      (categories_of e) e (toLowerCase q))
         (Spec.select Date_parse E "" f).
Proof.
  assert (Heq : Spec.select Date_parse E q f
                = filter (fun e =>
                            negb (truthy_str q)
                            || matchesText (title_of e) (location_of e)
                                 (categories_of e) e (toLowerCase q))
                    (Spec.select Date_parse E "" f)).
  { unfold Spec.select. induction E as [| x E IH]; [reflexivity |].
    cbn [filter]. rewrite (searchEvents_filter_query q f x).
    destruct (searchEvents_filter Date_parse (Spec.with_query "" f) x);
      cbn [filter]; rewrite ?andb_true_r, ?andb_false_r.
    - destruct (negb (truthy_str q) || matchesText _ _ _ x _);
        now rewrite IH.
    - exact IH. }
  split; [| split; [| exact Heq]].
  - intros e. rewrite Heq, filter_In. tauto.
  - intros e. rewrite Heq, filter_In, orb_true_iff, negb_true_iff,
      truthy_str_false.
    destruct (String.eqb_spec q "") as [-> | Hq].
    + tauto.
    + rewrite (matchesText_spec q e Hq). tauto.
Qed.

End Search.

Section SearchExamples.

Import EventsApi.

(** An event titled under [title] and one titled under [title_en] after
    an empty [title]: the same resolved values, the same verdict. *)
Lemma searchEvents_resolved_values_witness :
  let e := sample "a" (Some "Jazz night") None CategoryUndefined in
  let e' :=
    {| id := "b"; title := Some ""; title_en := Some "Jazz night";
       language := None; start := None; date := None; end_ := None;
       location := None; formatted_address := None; city := None;
       category := CategoryString ""; event_category := None;
       event_image := None; event_thumbnail := None; image := None;
       description := None; detailed_description := None;
       detailed_description_en := None; organizer := None |} in
  categories_of e = [""]
  /\ searchEvents_filter DateOnly.parse (Spec.only_query "JAZZ") e
     = searchEvents_filter DateOnly.parse (Spec.only_query "JAZZ") e'.
Proof.
  cbv zeta.
  match goal with
  | |- _ /\ searchEvents_filter _ ?p ?e = searchEvents_filter _ _ ?e' =>
      destruct (searchEvents_resolved_values DateOnly.parse p e e')
        as (_ & _ & _ & Hc & Hsame & _)
  end.
  split.
  - apply Hc; left; reflexivity.
  - apply Hsame; reflexivity.
Defined.

(** The verdict from the resolved values: the query "JAZZ" keeps a
    record titled "Jazz night", the query "rock" drops it, and so does a
    category filter its one category, the empty string, does not meet. *)
Lemma keeps_resolved_example :
  let none := {| sp_query := None; sp_category := Some "Music"%string;
                 sp_location := None; sp_startDate := None;
                 sp_endDate := None |} in
  Spec.keeps_resolved DateOnly.parse (Spec.only_query "JAZZ")
    "Jazz night" None "" [""%string] "" = true
  /\ Spec.keeps_resolved DateOnly.parse (Spec.only_query "rock")
       "Jazz night" None "" [""%string] "" = false
  /\ Spec.keeps_resolved DateOnly.parse none
       "Jazz night" None "" [""%string] "" = false.
Proof. cbv zeta. repeat split; reflexivity. Qed.

End SearchExamples.

(** ** Records with no valid date *)

Section InvalidDates.

Import EventsApi VenuuApp.
Local Open Scope Z_scope.

Variable Date_parse : string -> number.
Variable localeCompare : string -> string -> Z.

(** The comparator of the date sort. *)
Lemma applyFilters_compare_date (filters : Filters) (a b : VenuuEvent) :
  f_sort filters <> "name"%string -> f_sort filters <> "location"%string ->
  applyFilters_compare Date_parse localeCompare filters a b =
  match f_dateOrder filters with
  | asc => num_sub (Date_parse (date_string_of a)) (Date_parse (date_string_of b))
  | desc => num_sub (Date_parse (date_string_of b)) (Date_parse (date_string_of a))
  end.
Proof.
  intros Hn Hl. unfold applyFilters_compare.
  apply String.eqb_neq in Hn, Hl. now rewrite Hn, Hl.
Qed.

(** The date bounds of the callback of [searchEvents] reject nothing
    whose date is invalid. *)
Lemma searchEvents_filter_invalid_date (p : SearchParams) (e : VenuuEvent) :
  Date_parse (date_string_of e) = None ->
  searchEvents_filter Date_parse p e
  = searchEvents_filter Date_parse (Spec.without_dates p) e.
Proof.
  intros Hbad. unfold searchEvents_filter, Spec.without_dates.
  cbn [sp_query sp_category sp_location sp_startDate sp_endDate truthy orb].
  rewrite Hbad.
  destruct (guard (sp_query p) _); [reflexivity |].
  destruct (guard (sp_category p) _); [reflexivity |].
  destruct (guard (sp_location p) _); [reflexivity |].
  assert (Hs : guard (sp_startDate p)
                 (fun startDate => num_lt None (Date_parse startDate)) = false).
  { unfold guard. destruct (sp_startDate p); [| reflexivity].
    cbn. apply andb_false_r. }
  assert (He : guard (sp_endDate p)
                 (fun endDate => num_gt None (Date_parse endDate)) = false).
  { unfold guard, num_gt, num_lt. destruct (sp_endDate p) as [d |]; [| reflexivity].
    destruct (Date_parse d); apply andb_false_r. }
  rewrite Hs, He. destruct (truthy (sp_startDate p) || truthy (sp_endDate p));
    reflexivity.
Qed.

(** C4, as amended. For every event whose resolved date ([start], then
    [date], then the empty string) is empty or is not a date the host
    parses, the date comparator and the date bounds return a value, they
    do not throw: against every other event, parsable or not, and in both
    directions, the comparator returns [NaN], which the sort reads as 0
    ("equal"); and the date bounds of the search never drop the event,
    whatever the bounds. The event gets no place of its own, earliest or
    other, among the dated ones. *)
Theorem invalid_date_compares_equal (filters : Filters) (p : SearchParams)
    (bad other : VenuuEvent) :
  Date_parse "" = None ->
  f_sort filters <> "name"%string -> f_sort filters <> "location"%string ->
  Spec.resolved_date bad = ""%string
  \/ Date_parse (Spec.resolved_date bad) = None ->
  applyFilters_compare Date_parse localeCompare filters bad other = None
  /\ applyFilters_compare Date_parse localeCompare filters other bad = None
  /\ SortCompare (applyFilters_compare Date_parse localeCompare filters)
       bad other = 0
  /\ SortCompare (applyFilters_compare Date_parse localeCompare filters)
       other bad = 0
  /\ searchEvents_filter Date_parse p bad
     = searchEvents_filter Date_parse (Spec.without_dates p) bad.
Proof.
  intros Hempty Hn Hl Hbad.
  assert (Hnan : Date_parse (date_string_of bad) = None).
  { rewrite date_string_of_resolved. destruct Hbad as [-> | H]; assumption. }
  assert (H1 : applyFilters_compare Date_parse localeCompare filters bad other
               = None).
  { rewrite applyFilters_compare_date by assumption. rewrite Hnan.
    destruct (f_dateOrder filters); cbn; [reflexivity |].
    destruct (Date_parse (date_string_of other)); reflexivity. }
  assert (H2 : applyFilters_compare Date_parse localeCompare filters other bad
               = None).
  { rewrite applyFilters_compare_date by assumption. rewrite Hnan.
    destruct (f_dateOrder filters); cbn; [| reflexivity].
    destruct (Date_parse (date_string_of other)); reflexivity. }
  repeat split; trivial.
  - unfold SortCompare. now rewrite H1.
  - unfold SortCompare. now rewrite H2.
  - now apply searchEvents_filter_invalid_date.
Qed.

End InvalidDates.

Section InvalidDateExamples.

Import EventsApi VenuuApp.
Local Open Scope Z_scope.

(** C4 as stated fails. An event with no date, next to one of June 2024
    and one of January 2024: the sort reads the undated event as equal to
    each of them, in both directions, and not as earlier; being equal to
    two events that differ, it makes the comparator inconsistent; and a
    start bound of January 2024 keeps it, where an earliest date would
    be dropped. *)
Lemma earliest_sentinel_counterexample :
  let compare order :=
    applyFilters_compare DateOnly.parse (fun _ _ => 0) (by_date order) in
  let undated := bare "u" in
  let june := sample "a" None (Some "2024-06-01") CategoryUndefined in
  let january := sample "c" None (Some "2024-01-01") CategoryUndefined in
  SortCompare (compare asc) undated january = 0
  /\ SortCompare (compare desc) january undated = 0
  /\ SortCompare (compare asc) june undated = 0
  /\ SortCompare (compare asc) june january > 0
  /\ searchEvents_filter DateOnly.parse (Spec.only_startDate "2024-01-01")
       undated = true
  /\ ~ (forall bad ok : VenuuEvent,
          DateOnly.parse (Spec.resolved_date bad) = None ->
          DateOnly.parse (Spec.resolved_date ok) <> None ->
          SortCompare (compare asc) bad ok < 0).
Proof.
  cbv zeta. repeat split; try reflexivity.
  intros H.
  specialize (H (bare "u")
                (sample "c" None (Some "2024-01-01"%string) CategoryUndefined)
                eq_refl).
  assert (Hok : DateOnly.parse
                  (Spec.resolved_date
                     (sample "c" None (Some "2024-01-01"%string)
                        CategoryUndefined)) <> None)
    by (vm_compute; discriminate).
  specialize (H Hok). vm_compute in H. discriminate H.
Qed.

Lemma invalid_date_compares_equal_witness :
  let undated := bare "u" in
  let january := sample "c" None (Some "2024-01-01") CategoryUndefined in
  let p := Spec.only_startDate "2024-01-01" in
  applyFilters_compare DateOnly.parse (fun _ _ => 0) (by_date desc)
    undated january = None
  /\ applyFilters_compare DateOnly.parse (fun _ _ => 0) (by_date desc)
       january undated = None
  /\ SortCompare
       (applyFilters_compare DateOnly.parse (fun _ _ => 0) (by_date desc))
       undated january = 0
  /\ SortCompare
       (applyFilters_compare DateOnly.parse (fun _ _ => 0) (by_date desc))
       january undated = 0
  /\ searchEvents_filter DateOnly.parse p undated
     = searchEvents_filter DateOnly.parse (Spec.without_dates p) undated.
Proof.
  cbv zeta.
  apply (invalid_date_compares_equal DateOnly.parse (fun _ _ => 0)
           (by_date desc)).
  - reflexivity.
  - discriminate.
  - discriminate.
  - left. reflexivity.
Defined.

End InvalidDateExamples.

(** ** The preferences store *)

Section Preferences.

Import UserPreferencesApi.

Lemma entry_log_if (b : bool) (line : string) (s : State) :
  entry (log_if b line s) = entry s.
Proof. destruct b; reflexivity. Qed.

Lemma getItem_throws_log_if (b : bool) (line : string) (s : State) :
  getItem_throws (log_if b line s) = getItem_throws s.
Proof. destruct b; reflexivity. Qed.

Lemma setItem_throws_log_if (b : bool) (line : string) (s : State) :
  setItem_throws (log_if b line s) = setItem_throws s.
Proof. destruct b; reflexivity. Qed.

(** [getPreferences] returns the stored preferences, and logs when the
    read failed. *)
Lemma getPreferences_run (s : State) :
  getPreferences s
  = (Normal (stored_preferences s),
     log_if (read_fails s) "Error loading preferences:" s).
Proof.
  unfold getPreferences, stored_preferences, read_fails, localStorage_getItem,
    try_catch, bind, ret, await, log, modify, log_if.
  destruct s as [e [|] w c]; cbn; [reflexivity |].
  destruct e as [[| | v] |]; reflexivity.
Qed.

(** The stored preferences depend on the entry and on the read flag. *)
Lemma stored_preferences_ext (s s' : State) :
  entry s' = entry s -> getItem_throws s' = getItem_throws s ->
  stored_preferences s' = stored_preferences s.
Proof. unfold stored_preferences. now intros -> ->. Qed.

(** Reading back what was written. *)
Lemma spread_all_keys (base prefs : UserPreferences) :
  spread base (all_keys prefs) = prefs.
Proof. destruct prefs; reflexivity. Qed.

(** [savePreferences] never throws; it writes the merged object, or
    logs when the write is refused. *)
Lemma savePreferences_run (preferences : PartialPreferences) (s : State) :
  let s1 := log_if (read_fails s) "Error loading preferences:" s in
  savePreferences preferences s
  = (Normal tt,
     if setItem_throws s
     then log_if true "Error saving preferences:" s1
     else {| entry := Some (JSON_stringify
                              (spread (stored_preferences s) preferences));
             getItem_throws := getItem_throws s1;
             setItem_throws := setItem_throws s1;
             console := console s1 |}).
Proof.
  cbv zeta. unfold savePreferences, try_catch, bind.
  rewrite getPreferences_run. unfold localStorage_setItem.
  rewrite setItem_throws_log_if.
  destruct (setItem_throws s); reflexivity.
Qed.

Lemma favorites_of_stored (s : State) :
  favorites_of s = Normal (favorites (stored_preferences s)).
Proof.
  unfold favorites_of, getFavorites, bind, ret.
  now rewrite getPreferences_run.
Qed.

Lemma history_of_stored (s : State) :
  history_of s = Normal (searchHistory (stored_preferences s)).
Proof.
  unfold history_of, getSearchHistory, bind, ret.
  now rewrite getPreferences_run.
Qed.

(** The preferences stored after a [savePreferences] of a full
    object. *)
Lemma stored_after_save (prefs : UserPreferences) (s : State) :
  stored_preferences (run (savePreferences (all_keys prefs)) s)
  = if getItem_throws s then defaultPrefs
    else if setItem_throws s then stored_preferences s
    else prefs.
Proof.
  unfold run. rewrite savePreferences_run. cbn [snd].
  destruct (setItem_throws s) eqn:Hw.
  - rewrite (stored_preferences_ext s)
      by (now rewrite ?entry_log_if, ?getItem_throws_log_if).
    unfold stored_preferences. destruct (getItem_throws s); reflexivity.
  - unfold stored_preferences at 1. cbn [getItem_throws entry].
    rewrite getItem_throws_log_if.
    destruct (getItem_throws s); [reflexivity |].
    unfold JSON_stringify. cbn [keys_of].
    now rewrite !spread_all_keys.
Qed.

End Preferences.

Section PreferencesRuns.

Import UserPreferencesApi.

Lemma run_savePreferences_entry (preferences : PartialPreferences) (s : State) :
  entry (run (savePreferences preferences) s)
  = if setItem_throws s then entry s
    else Some (JSON_stringify (spread (stored_preferences s) preferences)).
Proof.
  unfold run. rewrite savePreferences_run. cbn [snd].
  destruct (setItem_throws s); [| reflexivity].
  now rewrite !entry_log_if.
Qed.

Lemma run_savePreferences_flags (preferences : PartialPreferences) (s : State) :
  getItem_throws (run (savePreferences preferences) s) = getItem_throws s
  /\ setItem_throws (run (savePreferences preferences) s) = setItem_throws s.
Proof.
  unfold run. rewrite savePreferences_run. cbn [snd].
  destruct (setItem_throws s) eqn:Hw; cbn [getItem_throws setItem_throws];
    rewrite ?getItem_throws_log_if, ?setItem_throws_log_if; auto.
Qed.

(** The state [getPreferences] leaves holds what the state before it
    held. *)
Lemma logged_same (b : bool) (line : string) (s : State) :
  entry (log_if b line s) = entry s
  /\ getItem_throws (log_if b line s) = getItem_throws s
  /\ setItem_throws (log_if b line s) = setItem_throws s
  /\ stored_preferences (log_if b line s) = stored_preferences s.
Proof. destruct b; repeat split; reflexivity. Qed.

Lemma run_addToFavorites (eventId : string) (s : State) :
  let prefs := stored_preferences s in
  let s1 := log_if (read_fails s) "Error loading preferences:" s in
  run (addToFavorites eventId) s
  = if array_includes (favorites prefs) eventId then s1
    else run (savePreferences
                (all_keys (set_favorites prefs (favorites prefs ++ [eventId]))))
           s1.
Proof.
  cbv zeta. unfold run, addToFavorites, bind, ret.
  rewrite getPreferences_run.
  destruct (array_includes _ eventId); reflexivity.
Qed.

Lemma run_removeFromFavorites (eventId : string) (s : State) :
  let prefs := stored_preferences s in
  let s1 := log_if (read_fails s) "Error loading preferences:" s in
  run (removeFromFavorites eventId) s
  = run (savePreferences
           (all_keys
              (set_favorites prefs
                 (filter (fun id => negb (String.eqb id eventId))
                    (favorites prefs)))))
      s1.
Proof.
  cbv zeta. unfold run, removeFromFavorites, bind.
  now rewrite getPreferences_run.
Qed.

Lemma run_addSearchToHistory (query : string) (s : State) :
  trim query <> ""%string ->
  let prefs := stored_preferences s in
  let s1 := log_if (read_fails s) "Error loading preferences:" s in
  run (addSearchToHistory query) s
  = run (savePreferences
           (all_keys
              (set_searchHistory prefs
                 (firstn 10
                    (query :: filter (fun item => negb (String.eqb item query))
                                (searchHistory prefs))))))
      s1.
Proof.
  intros Hq. cbv zeta. unfold run, addSearchToHistory.
  apply truthy_str_true in Hq. rewrite Hq. cbn [negb]. unfold bind.
  now rewrite getPreferences_run.
Qed.

(** What a state holds once [addToFavorites] has run. *)
Lemma addToFavorites_effect (eventId : string) (s : State) :
  let prefs := stored_preferences s in
  let added := set_favorites prefs (favorites prefs ++ [eventId]) in
  let writes :=
    negb (array_includes (favorites prefs) eventId)
    && negb (setItem_throws s) in
  entry (run (addToFavorites eventId) s)
  = (if writes then Some (JSON_stringify added) else entry s)
  /\ getItem_throws (run (addToFavorites eventId) s) = getItem_throws s
  /\ setItem_throws (run (addToFavorites eventId) s) = setItem_throws s.
Proof.
  cbv zeta. rewrite run_addToFavorites. cbv zeta.
  destruct (logged_same (read_fails s) "Error loading preferences:" s)
    as (He & Hr & Hw & Hp).
  destruct (array_includes _ eventId); cbn [negb andb]; [auto |].
  rewrite run_savePreferences_entry.
  destruct (run_savePreferences_flags
              (all_keys (set_favorites (stored_preferences s)
                           (favorites (stored_preferences s) ++ [eventId])))
              (log_if (read_fails s) "Error loading preferences:" s))
    as [-> ->].
  rewrite Hw, Hr, He, Hp, spread_all_keys.
  destruct (setItem_throws s); auto.
Qed.

Lemma array_includes_In (l : list string) (x : string) :
  array_includes l x = true <-> In x l.
Proof.
  unfold array_includes. rewrite existsb_exists. split.
  - intros (y & Hy & H). apply String.eqb_eq in H. now subst.
  - intros H. exists x. split; [exact H | apply String.eqb_refl].
Qed.

Lemma filter_out_absent (l : list string) (x : string) :
  ~ In x l -> filter (fun y => negb (String.eqb y x)) l = l.
Proof.
  induction l as [| a l IH]; cbn; [reflexivity |].
  intros H. destruct (String.eqb_spec a x) as [-> | Hne]; cbn.
  - exfalso. apply H. now left.
  - f_equal. apply IH. intros Hin. apply H. now right.
Qed.

Lemma filter_out_removes (l : list string) (x : string) :
  ~ In x (filter (fun y => negb (String.eqb y x)) l).
Proof.
  rewrite filter_In. intros [_ H]. now rewrite String.eqb_refl in H.
Qed.

Lemma stored_when_read_throws (s : State) :
  getItem_throws s = true -> stored_preferences s = defaultPrefs.
Proof. unfold stored_preferences. now intros ->. Qed.

End PreferencesRuns.

Section PreferencesClaims.

Import UserPreferencesApi.

Lemma In_firstn {A} (n : nat) (l : list A) (x : A) :
  In x (firstn n l) -> In x l.
Proof.
  intros H. rewrite <- (firstn_skipn n l). apply in_or_app. now left.
Qed.

Lemma NoDup_firstn {A} (n : nat) (l : list A) :
  NoDup l -> NoDup (firstn n l).
Proof.
  intros H. rewrite <- (firstn_skipn n l) in H.
  exact (NoDup_app_remove_r _ _ H).
Qed.

(** The history a call with a query that is not blank leaves in a
    storage that works. *)
Lemma moved_to_front (query : string) (H : list string) :
  let H' :=
    firstn 10 (query :: filter (fun item => negb (String.eqb item query)) H) in
  List.length H' <= 10
  /\ (exists tail, H' = query :: tail /\ ~ In query tail)
  /\ (NoDup H -> NoDup H').
Proof.
  cbv zeta. split; [apply firstn_le_length |]. split.
  - rewrite firstn_cons. eexists. split; [reflexivity |].
    intros Hin. apply In_firstn in Hin.
    exact (filter_out_removes H query Hin).
  - intros Hnd. apply NoDup_firstn. constructor.
    + apply filter_out_removes.
    + now apply NoDup_filter.
Qed.

(** C8. [getPreferences] never throws, whatever the storage holds and
    does, and it writes nothing. When there is no entry, when the entry
    is not JSON, or when the read of the storage throws, it returns the
    default object: no favorites, theme "light", language "en",
    notifications on, empty search history. When the entry is the JSON
    of an object, each key the object holds overrides the default of that
    key, and each key it lacks keeps its default. *)
Theorem getPreferences_defaults (s : State) :
  (exists prefs s', getPreferences s = (Normal prefs, s')
                    /\ entry s' = entry s)
  /\ (getItem_throws s = true \/ entry s = None
      \/ entry s = Some MalformedText ->
      fst (getPreferences s)
      = Normal {| favorites := []; theme := "light"; language := "en";
                  notifications := true; searchHistory := [] |})
  /\ (forall keys,
        getItem_throws s = false ->
        entry s = Some (JsonText (JsonObject keys)) ->
        fst (getPreferences s)
        = Normal
            {| favorites :=
                 match favorites_key keys with Some v => v | None => [] end;
               theme :=
                 match theme_key keys with Some v => v | None => "light" end;
               language :=
                 match language_key keys with Some v => v | None => "en" end;
               notifications :=
                 match notifications_key keys with
                 | Some v => v
                 | None => true
                 end;
               searchHistory :=
                 match searchHistory_key keys with
                 | Some v => v
                 | None => []
                 end |}).
Proof.
  rewrite getPreferences_run. cbn [fst]. split; [| split].
  - eexists _, _. split; [reflexivity | apply entry_log_if].
  - unfold stored_preferences.
    intros [-> | [-> | ->]]; [reflexivity | |];
      destruct (getItem_throws s); reflexivity.
  - intros keys Hr He. unfold stored_preferences. rewrite Hr, He.
    reflexivity.
Qed.

(** C7, as amended. For every state of the storage and every
    identifier: a second [addToFavorites] of the same identifier leaves
    the stored entry, and so the favorites, as the first call left them;
    where the storage works, the first call appends the identifier when
    it is absent and changes nothing when it is present, so afterwards
    the identifier is a favorite and occurs as often as before, or once
    when it was absent; [removeFromFavorites] of an identifier that is
    not a favorite leaves the favorites as they were; after a
    [removeFromFavorites] whose write the storage accepts, the identifier
    is not a favorite; and when the storage refuses the write, the
    favorites are left as they were, the identifier among them if it was
    one. *)
Theorem favorites_set_semantics (s : State) (eventId : string)
    (F : list string) :
  favorites_of s = Normal F ->
  let once := run (addToFavorites eventId) s in
  let twice := run (addToFavorites eventId) once in
  let removed := run (removeFromFavorites eventId) s in
  (entry twice = entry once /\ favorites_of twice = favorites_of once)
  /\ (getItem_throws s = false -> setItem_throws s = false ->
      favorites_of once
      = Normal (if array_includes F eventId then F else F ++ [eventId])
      /\ exists F1, favorites_of once = Normal F1 /\ In eventId F1
           /\ count_occ string_dec F1 eventId
              = Nat.max 1 (count_occ string_dec F eventId))
  /\ (~ In eventId F -> favorites_of removed = Normal F)
  /\ (setItem_throws s = false ->
      exists F', favorites_of removed = Normal F' /\ ~ In eventId F')
  /\ (setItem_throws s = true -> favorites_of removed = Normal F).
Proof.
  intros HF. cbv zeta.
  rewrite favorites_of_stored in HF. injection HF as HF.
  destruct (addToFavorites_effect eventId s) as (He1 & Hr1 & Hw1).
  cbv zeta in He1. rewrite HF in He1.
  set (once := run (addToFavorites eventId) s) in *.
  assert (Hstored1 :
    stored_preferences once
    = if negb (array_includes F eventId) && negb (setItem_throws s)
         && negb (getItem_throws s)
      then set_favorites (stored_preferences s) (F ++ [eventId])
      else stored_preferences s).
  { unfold stored_preferences at 1. rewrite Hr1, He1.
    destruct (getItem_throws s) eqn:Hr.
    - rewrite andb_false_r. symmetry. now apply stored_when_read_throws.
    - rewrite andb_true_r.
      destruct (negb (array_includes F eventId) && negb (setItem_throws s)).
      + unfold JSON_stringify. cbn [keys_of]. apply spread_all_keys.
      + unfold stored_preferences. now rewrite Hr. }
  split; [| split; [| split; [| split]]].
  - destruct (addToFavorites_effect eventId once) as (He2 & Hr2 & Hw2).
    cbv zeta in He2. rewrite Hw1, Hstored1 in He2.
    assert (Hentry : entry (run (addToFavorites eventId) once) = entry once).
    { rewrite He2, He1.
      destruct (array_includes F eventId) eqn:Hin; cbn [negb andb].
      - rewrite HF, Hin. reflexivity.
      - destruct (setItem_throws s) eqn:Hw; cbn [negb andb].
        + rewrite andb_false_r. reflexivity.
        + destruct (getItem_throws s) eqn:Hr; cbn [negb andb].
          * rewrite HF, Hin. cbn [negb]. reflexivity.
          * cbn [favorites set_favorites].
            assert (Hnow : array_includes (F ++ [eventId]) eventId = true).
            { apply array_includes_In, in_or_app. right. now left. }
            rewrite Hnow. reflexivity. }
    split; [exact Hentry |].
    rewrite !favorites_of_stored. f_equal. f_equal.
    apply stored_preferences_ext; [exact Hentry | exact Hr2].
  - intros Hr Hw. rewrite Hr, Hw in Hstored1. rewrite !andb_true_r in Hstored1.
    assert (Hfav : favorites_of once
                   = Normal (if array_includes F eventId then F
                             else F ++ [eventId])).
    { rewrite favorites_of_stored, Hstored1.
      destruct (array_includes F eventId); cbn [negb];
        [now rewrite HF | reflexivity]. }
    split; [exact Hfav |]. eexists. split; [exact Hfav |].
    destruct (array_includes F eventId) eqn:Hin.
    + apply array_includes_In in Hin. split; [exact Hin |].
      apply (count_occ_In string_dec) in Hin. lia.
    + split; [apply in_or_app; right; now left |].
      assert (Hnot : ~ In eventId F).
      { intros H. apply array_includes_In in H. congruence. }
      apply (count_occ_not_In string_dec) in Hnot.
      rewrite count_occ_app, Hnot. cbn.
      destruct (string_dec eventId eventId); [reflexivity | contradiction].
  - intros Hnot. rewrite favorites_of_stored, run_removeFromFavorites.
    cbv zeta. rewrite stored_after_save.
    destruct (logged_same (read_fails s) "Error loading preferences:" s)
      as (_ & -> & -> & ->).
    rewrite HF, (filter_out_absent F eventId Hnot).
    destruct (getItem_throws s) eqn:Hr.
    + rewrite <- HF, (stored_when_read_throws s Hr). reflexivity.
    + destruct (setItem_throws s); [now rewrite HF | reflexivity].
  - intros Hw. rewrite favorites_of_stored, run_removeFromFavorites.
    cbv zeta. rewrite stored_after_save.
    destruct (logged_same (read_fails s) "Error loading preferences:" s)
      as (_ & -> & -> & ->).
    rewrite Hw. eexists. split; [reflexivity |].
    destruct (getItem_throws s); [intros [] |].
    apply filter_out_removes.
  - intros Hw. rewrite favorites_of_stored, run_removeFromFavorites.
    cbv zeta. rewrite stored_after_save.
    destruct (logged_same (read_fails s) "Error loading preferences:" s)
      as (_ & -> & -> & ->).
    rewrite Hw. destruct (getItem_throws s) eqn:Hr; [| now rewrite HF].
    now rewrite <- HF, (stored_when_read_throws s Hr).
Qed.

End PreferencesClaims.

Section HistoryClaims.

Import UserPreferencesApi.

(** C6, as amended. For every state of the storage and every query:
    [addSearchToHistory] changes nothing when the query is blank (empty,
    or white space only). Otherwise, where the storage works, it removes
    the entries equal to the query, puts the query in front and keeps the
    first ten: the history it leaves has at most 10 entries and holds the
    query exactly once, at the front; and it has no duplicate entry
    provided the history before had none. After any call, blank or not
    and whatever the storage does, a history that had no duplicate and at
    most 10 entries still has no duplicate and at most 10 entries. *)
Theorem addSearchToHistory_moves_to_front (s : State) (query : string)
    (H : list string) :
  history_of s = Normal H ->
  let after := run (addSearchToHistory query) s in
  (Spec.blank query -> addSearchToHistory query s = (Normal tt, s))
  /\ (~ Spec.blank query ->
      getItem_throws s = false -> setItem_throws s = false ->
      let H' :=
        firstn 10
          (query :: filter (fun item => negb (String.eqb item query)) H) in
      history_of after = Normal H'
      /\ List.length H' <= 10
      /\ (exists tail, H' = query :: tail /\ ~ In query tail)
      /\ (NoDup H -> NoDup H'))
  /\ (NoDup H -> List.length H <= 10 ->
      exists H'', history_of after = Normal H''
                  /\ NoDup H'' /\ List.length H'' <= 10).
Proof.
  intros HH. cbv zeta. rewrite history_of_stored in HH. injection HH as HH.
  assert (Hblank : Spec.blank query ->
                   addSearchToHistory query s = (Normal tt, s)).
  { intros Hb. apply (proj2 (trim_blank query)) in Hb.
    unfold addSearchToHistory. rewrite Hb. reflexivity. }
  assert (Hrun : ~ Spec.blank query ->
    stored_preferences (run (addSearchToHistory query) s)
    = if getItem_throws s then defaultPrefs
      else if setItem_throws s then stored_preferences s
      else set_searchHistory (stored_preferences s)
             (firstn 10
                (query :: filter (fun item => negb (String.eqb item query)) H))).
  { intros Hnb.
    assert (Hq : trim query <> ""%string).
    { intros Ht. apply Hnb. exact (proj1 (trim_blank query) Ht). }
    rewrite (run_addSearchToHistory query s Hq). cbv zeta.
    rewrite stored_after_save.
    destruct (logged_same (read_fails s) "Error loading preferences:" s)
      as (_ & -> & -> & ->).
    now rewrite HH. }
  destruct (moved_to_front query H) as (Hlen & Hfront & Hnodup).
  split; [exact Hblank |]. split.
  - intros Hnb Hr Hw. rewrite history_of_stored, (Hrun Hnb), Hr, Hw.
    cbn [searchHistory set_searchHistory]. auto.
  - intros Hnd Hle. rewrite history_of_stored.
    assert (Hdec : {trim query = ""%string} + {trim query <> ""%string})
      by apply string_dec.
    destruct Hdec as [Ht | Ht].
    + unfold run. rewrite (Hblank (proj1 (trim_blank query) Ht)). cbn [snd].
      rewrite HH. eauto.
    + rewrite Hrun by (intros Hb; apply Ht; exact (proj2 (trim_blank query) Hb)).
      destruct (getItem_throws s) eqn:Hr.
      * exists []. cbn. repeat split; [constructor | lia].
      * destruct (setItem_throws s).
        -- rewrite HH. eauto.
        -- cbn [searchHistory set_searchHistory]. eauto.
Qed.

End HistoryClaims.

Section PreferencesExamples.

Import UserPreferencesApi.

(** C6 as stated fails. A stored history that holds an entry twice keeps
    it twice after another query is added; and a blank query leaves a
    stored history of eleven entries at eleven. *)
Lemma addSearchToHistory_counterexample :
  let s := working (history_entry ["x"; "x"]%string) in
  let eleven := ["1"; "2"; "3"; "4"; "5"; "6"; "7"; "8"; "9"; "10"; "11"]%string in
  history_of (run (addSearchToHistory "y") s) = Normal ["y"; "x"; "x"]%string
  /\ ~ NoDup ["y"; "x"; "x"]%string
  /\ history_of (run (addSearchToHistory " ") (working (history_entry eleven)))
     = Normal eleven
  /\ ~ List.length eleven <= 10.
Proof.
  cbv zeta. split; [reflexivity |]. split; [| split; [reflexivity |]].
  - intros Hnd. inversion Hnd as [| ? ? _ Hxx]; subst.
    inversion Hxx as [| ? ? Hx _]; subst. apply Hx. now left.
  - cbn. lia.
Qed.

(** The history [b; a; c], then the query [a] again: [a] moves to the
    front and stays single. A blank query changes nothing. *)
Lemma addSearchToHistory_moves_to_front_witness :
  let s := working (history_entry ["b"; "a"; "c"]%string) in
  addSearchToHistory "  " s = (Normal tt, s)
  /\ history_of (run (addSearchToHistory "a") s)
     = Normal ["a"; "b"; "c"]%string
  /\ exists H'', history_of (run (addSearchToHistory "a") s) = Normal H''
                 /\ NoDup H'' /\ List.length H'' <= 10.
Proof.
  cbv zeta.
  destruct (addSearchToHistory_moves_to_front
              (working (history_entry ["b"; "a"; "c"]%string)) "  "
              ["b"; "a"; "c"]%string eq_refl) as (Hblank & _ & _).
  destruct (addSearchToHistory_moves_to_front
              (working (history_entry ["b"; "a"; "c"]%string)) "a"
              ["b"; "a"; "c"]%string eq_refl) as (_ & Hfront & Hinv).
  split; [| split].
  - apply Hblank. intros c Hc. cbn in Hc.
    destruct Hc as [<- | [<- | []]]; reflexivity.
  - apply Hfront; [| reflexivity | reflexivity].
    intros Hb. specialize (Hb "a"%char (or_introl eq_refl)). discriminate Hb.
  - apply Hinv.
    + repeat constructor; cbn; intuition discriminate.
    + cbn. lia.
Defined.

(** C7 as stated fails. When the storage refuses the write,
    [savePreferences] swallows the error and the identifier is still a
    favorite after [removeFromFavorites]; and a stored list that holds
    an identifier twice holds it twice after [addToFavorites] of it,
    called once or twice. *)
Lemma favorites_counterexample :
  let refusing :=
    {| entry := favorites_entry ["a"]%string; getItem_throws := false;
       setItem_throws := true; console := [] |} in
  let doubled := working (favorites_entry ["a"; "a"]%string) in
  favorites_of refusing = Normal ["a"]%string
  /\ favorites_of (run (removeFromFavorites "a") refusing)
     = Normal ["a"]%string
  /\ In "a"%string ["a"]%string
  /\ favorites_of doubled = Normal ["a"; "a"]%string
  /\ favorites_of (run (addToFavorites "a") doubled)
     = Normal ["a"; "a"]%string
  /\ favorites_of (run (addToFavorites "a") (run (addToFavorites "a") doubled))
     = Normal ["a"; "a"]%string
  /\ count_occ string_dec ["a"; "a"]%string "a"%string = 2%nat.
Proof.
  cbv zeta. repeat split; try reflexivity. now left.
Qed.

(** One favorite [a]; [b] is added twice, then [c], absent, is removed,
    then [a]. *)
Lemma favorites_set_semantics_witness :
  let s := working (favorites_entry ["a"]%string) in
  let once := run (addToFavorites "b") s in
  let twice := run (addToFavorites "b") once in
  entry twice = entry once
  /\ favorites_of once = Normal ["a"; "b"]%string
  /\ favorites_of (run (removeFromFavorites "c") s) = Normal ["a"]%string
  /\ exists F', favorites_of (run (removeFromFavorites "a") s) = Normal F'
                /\ ~ In "a"%string F'.
Proof.
  cbv zeta.
  destruct (favorites_set_semantics
              (working (favorites_entry ["a"]%string)) "b" ["a"]%string eq_refl)
    as ((Hsame & _) & Hadd & _ & _).
  destruct (favorites_set_semantics
              (working (favorites_entry ["a"]%string)) "c" ["a"]%string eq_refl)
    as (_ & _ & Hnoop & _).
  destruct (favorites_set_semantics
              (working (favorites_entry ["a"]%string)) "a" ["a"]%string eq_refl)
    as (_ & _ & _ & Hgone & _).
  split; [exact Hsame |]. split; [| split].
  - apply Hadd; reflexivity.
  - apply Hnoop. intros [H | []]. discriminate H.
  - apply Hgone. reflexivity.
Defined.

(** A text that is not JSON gives the defaults; a stored object with the
    key [theme] only overrides the theme only. *)
Lemma getPreferences_defaults_witness :
  fst (getPreferences (working (Some MalformedText))) = Normal defaultPrefs
  /\ fst (getPreferences
            (working
               (Some (JsonText (JsonObject
                  {| favorites_key := None; theme_key := Some "dark"%string;
                     language_key := None; notifications_key := None;
                     searchHistory_key := None |})))))
     = Normal {| favorites := []; theme := "dark"; language := "en";
                 notifications := true; searchHistory := [] |}.
Proof.
  split.
  - apply (proj1 (proj2 (getPreferences_defaults
                           (working (Some MalformedText))))).
    right. right. reflexivity.
  - exact (proj2 (proj2 (getPreferences_defaults
                           (working (Some (JsonText (JsonObject _))))))
             {| favorites_key := None; theme_key := Some "dark"%string;
                language_key := None; notifications_key := None;
                searchHistory_key := None |} eq_refl eq_refl).
Defined.

End PreferencesExamples.

Section SelectExample.

Import EventsApi.

(** Two events and the query "JAZZ": the result is the part of the
    unqueried result that the text test keeps. *)
Lemma select_query_narrows_witness :
  let E := [sample "a" (Some "Jazz night") None (CategoryArray ["Music"]);
            sample "b" (Some "Open studio") None (CategoryString "Art")] in
  let f := Spec.only_query "" in
  Spec.select DateOnly.parse E "JAZZ" f
  = filter (fun e =>
              negb (truthy_str "JAZZ")
              || matchesText (title_of e) (location_of e) (categories_of e) e
                   (toLowerCase "JAZZ"))
      (Spec.select DateOnly.parse E "" f).
Proof.
  cbv zeta.
  exact (proj2 (proj2 (select_query_narrows DateOnly.parse _ "JAZZ" _))).
Defined.

End SelectExample.

(** ** The scenarios of the specification, run on the embedding *)

Section Scenarios.

Import EventsApi VenuuApp UserPreferencesApi.

(** Two events, one with a list of categories and one with a single
    string; the category filter "Music" keeps the first. *)
Example scenario_category_filter :
  let a := sample "a" None (Some "2024-01-01") (CategoryArray ["Music"]) in
  let b := sample "b" None (Some "2024-06-01") (CategoryString "Art") in
  Spec.select DateOnly.parse [a; b] ""
    {| sp_query := None; sp_category := Some "Music"; sp_location := None;
       sp_startDate := None; sp_endDate := None |}
  = [a].
Proof. reflexivity. Qed.

(** In descending date order the June event comes before the January
    one: the comparator is negative. *)
Example scenario_date_descending :
  let a := sample "a" None (Some "2024-01-01") (CategoryArray ["Music"]) in
  let b := sample "b" None (Some "2024-06-01") (CategoryString "Art") in
  (SortCompare
     (applyFilters_compare DateOnly.parse (fun _ _ => 0%Z) (by_date desc))
     b a <? 0)%Z = true.
Proof. reflexivity. Qed.

(** The same query twice: one occurrence, in front of the older ones. *)
Example scenario_history_twice :
  let s := working (history_entry ["akureyri"]%string) in
  history_of
    (run (addSearchToHistory "reykjavik")
       (run (addSearchToHistory "reykjavik") s))
  = Normal ["reykjavik"; "akureyri"]%string.
Proof. reflexivity. Qed.

End Scenarios.

(** * Further properties of the code *)

(** ** The sort *)

Section SortBy.

Import Arrays.

Context {A : Type}.
Variable le : A -> A -> bool.

Lemma insert_perm (x : A) (l : list A) : Permutation (insert le x l) (x :: l).
Proof.
  induction l as [| y r IH]; cbn; [reflexivity |].
  destruct (le x y); [reflexivity |].
  rewrite IH. apply perm_swap.
Qed.

Lemma sort_by_perm (l : list A) : Permutation (sort_by le l) l.
Proof.
  induction l as [| x l IH]; cbn; [reflexivity |].
  rewrite insert_perm. now constructor.
Qed.

Lemma sort_by_In (l : list A) (x : A) : In x (sort_by le l) <-> In x l.
Proof.
  split; apply Permutation_in;
    [apply sort_by_perm | symmetry; apply sort_by_perm].
Qed.

Hypothesis le_total : forall x y, le x y = true \/ le y x = true.
Hypothesis le_trans :
  forall x y z, le x y = true -> le y z = true -> le x z = true.

Lemma insert_sorted (x : A) (l : list A) :
  StronglySorted (fun a b => le a b = true) l ->
  StronglySorted (fun a b => le a b = true) (insert le x l).
Proof.
  induction 1 as [| y r Hr IH Hy]; cbn.
  - repeat constructor.
  - destruct (le x y) eqn:Hxy.
    + constructor; [now constructor |].
      constructor; [exact Hxy |].
      rewrite Forall_forall in *. intros z Hz. eauto.
    + constructor; [exact IH |].
      rewrite Forall_forall in *. intros z Hz.
      apply (Permutation_in _ (insert_perm x r)) in Hz.
      destruct Hz as [<- | Hz]; [| auto].
      destruct (le_total x y) as [H | H]; [congruence | exact H].
Qed.

Lemma sort_by_sorted (l : list A) :
  StronglySorted (fun a b => le a b = true) (sort_by le l).
Proof.
  induction l as [| x l IH]; cbn; [constructor | now apply insert_sorted].
Qed.

(** Elements that compare equal keep the order they came in. *)
Lemma insert_stable (z x : A) (l : list A) :
  filter (fun y => le z y && le y z) (insert le x l)
  = filter (fun y => le z y && le y z) (x :: l).
Proof.
  induction l as [| y r IH]; [reflexivity |].
  cbn [insert]. destruct (le x y) eqn:Hxy; [reflexivity |].
  cbn [filter] in *. rewrite IH.
  destruct (le z x && le x z) eqn:Hx; [| reflexivity].
  destruct (le z y && le y z) eqn:Hy; [| reflexivity].
  apply andb_true_iff in Hx as [_ Hxz], Hy as [Hzy _].
  rewrite (le_trans _ _ _ Hxz Hzy) in Hxy. discriminate.
Qed.

Lemma sort_by_stable (z : A) (l : list A) :
  filter (fun y => le z y && le y z) (sort_by le l)
  = filter (fun y => le z y && le y z) l.
Proof.
  unfold sort_by. induction l as [| x l IH]; [reflexivity |].
  cbn [fold_right]. rewrite insert_stable. cbn [filter]. now rewrite IH.
Qed.

Lemma le_refl (x : A) : le x x = true.
Proof. destruct (le_total x x); assumption. Qed.

Lemma filter_head_In (p : A -> bool) (l r : list A) (x : A) :
  filter p l = x :: r -> In x l /\ p x = true.
Proof.
  intros H. apply filter_In. rewrite H. now left.
Qed.

(** The sorted stable arrangement is unique: two sorted lists in which
    the elements that compare equal come in the same order are the same
    list. *)
Lemma sorted_stable_unique (l1 l2 : list A) :
  StronglySorted (fun a b => le a b = true) l1 ->
  StronglySorted (fun a b => le a b = true) l2 ->
  (forall z, filter (fun y => le z y && le y z) l1
             = filter (fun y => le z y && le y z) l2) ->
  l1 = l2.
Proof.
  intros H1. revert l2.
  induction H1 as [| x l1 Hs1 IH Hx]; intros l2 H2 Hf.
  - destruct l2 as [| y l2]; [reflexivity |].
    specialize (Hf y). cbn in Hf. rewrite le_refl in Hf. discriminate.
  - destruct H2 as [| y l2 Hs2 Hy].
    + specialize (Hf x). cbn in Hf. rewrite le_refl in Hf. discriminate.
    + assert (Hxy : x = y).
      { pose proof (Hf x) as Hfx. cbn [filter] in Hfx.
        rewrite le_refl in Hfx. cbn [andb] in Hfx.
        destruct (le x y && le y x) eqn:He; [congruence |].
        symmetry in Hfx. apply filter_head_In in Hfx as [Hin _].
        pose proof (Hf y) as Hfy. cbn [filter] in Hfy.
        rewrite le_refl in Hfy. cbn [andb] in Hfy.
        rewrite andb_comm in He. rewrite He in Hfy.
        apply filter_head_In in Hfy as [Hin' _].
        rewrite Forall_forall in Hx, Hy.
        rewrite (Hx y Hin'), (Hy x Hin) in He. discriminate. }
      subst y. f_equal. apply IH; [exact Hs2 |].
      intros z. specialize (Hf z). cbn [filter] in Hf.
      destruct (le z x && le x z); congruence.
Qed.

End SortBy.

Section SortExt.

Import Arrays.

Context {A : Type}.

(** The sort reads the order on the elements of the array only. *)
Lemma insert_ext (le le' : A -> A -> bool) (x : A) (l : list A) :
  (forall y, In y l -> le x y = le' x y) ->
  insert le x l = insert le' x l.
Proof.
  induction l as [| y r IH]; intros H; [reflexivity |].
  cbn. rewrite <- (H y (or_introl eq_refl)).
  destruct (le x y); [reflexivity |].
  f_equal. apply IH. intros z Hz. apply H. now right.
Qed.

Lemma sort_by_ext (le le' : A -> A -> bool) (l : list A) :
  (forall x y, In x l -> In y l -> le x y = le' x y) ->
  sort_by le l = sort_by le' l.
Proof.
  induction l as [| x l IH]; intros H; [reflexivity |].
  change (insert le x (sort_by le l) = insert le' x (sort_by le' l)).
  rewrite IH by (intros; apply H; now right).
  apply insert_ext. intros y Hy. apply H; [now left |].
  right. now apply (sort_by_In le').
Qed.

Lemma firstn_sorted (R : A -> A -> Prop) (n : nat) (l : list A) :
  StronglySorted R l -> StronglySorted R (firstn n l).
Proof.
  intros H. revert n. induction H as [| x l Hs IH Hx]; intros [| n]; cbn;
    try constructor; auto.
  rewrite Forall_forall in *. intros y Hy. apply Hx.
  rewrite <- (firstn_skipn n l). apply in_or_app. now left.
Qed.

Lemma sorted_weaken (R R' : A -> A -> Prop) (l : list A) :
  (forall x y, In x l -> In y l -> R x y -> R' x y) ->
  StronglySorted R l -> StronglySorted R' l.
Proof.
  intros H Hs. induction Hs as [| x l Hs IH Hx]; constructor.
  - apply IH. intros a b Ha Hb. apply H; now right.
  - rewrite Forall_forall in *. intros y Hy.
    apply H; [now left | now right | auto].
Qed.

End SortExt.

(** ** The remaining queries of [EventsApi] *)

Section Featured.

Import EventsApi Arrays EventsQueries.
Local Open Scope Z_scope.

Variable Date_parse : string -> number.

Lemma filter_at_In {A} (f : nat -> A -> bool) (i : nat) (l : list A) (x : A) :
  In x (filter_at f i l) <->
  exists j, nth_error l j = Some x /\ f (i + j)%nat x = true.
Proof.
  revert i. induction l as [| y r IH]; intros i; cbn [filter_at].
  - split; [intros [] | intros ([| j] & H & _); discriminate].
  - assert (Hr : In x (filter_at f (S i) r) <->
                 exists j, nth_error r j = Some x /\ f (i + S j)%nat x = true).
    { rewrite IH. split; intros (j & Hj & Hf); exists j; split; trivial;
        now rewrite Nat.add_succ_r in *. }
    destruct (f i y) eqn:Hy.
    + cbn [In]. rewrite Hr. split.
      * intros [<- | (j & Hj & Hf)].
        -- exists 0%nat. now rewrite Nat.add_0_r.
        -- now exists (S j).
      * intros ([| j] & Hj & Hf).
        -- left. now injection Hj.
        -- right. now exists j.
    + rewrite Hr. split.
      * intros (j & Hj & Hf). now exists (S j).
      * intros ([| j] & Hj & Hf).
        -- injection Hj as ->. rewrite Nat.add_0_r in Hf. congruence.
        -- now exists j.
Qed.

Lemma slice0_firstn {A} (end_ : Z) (l : list A) :
  exists n, slice0 end_ l = firstn n l
            /\ (0 <= end_ -> Z.of_nat n <= end_)
            /\ (Z.of_nat n
                = if end_ <? 0 then Z.max (Z.of_nat (List.length l) + end_) 0
                  else Z.min end_ (Z.of_nat (List.length l))).
Proof.
  unfold slice0. eexists. split; [reflexivity |].
  split; [intros He |]; destruct (Z.ltb_spec end_ 0); lia.
Qed.

(** The events the filter of [getFeaturedEvents] keeps. *)
Lemma upcoming_dated (clock : nat -> Z) (events : list VenuuEvent)
    (e : VenuuEvent) :
  In e (filter_at
          (fun i event =>
             num_ge (Date_parse (date_string_of event)) (Some (clock i)))
          0 events) <->
  exists i t, nth_error events i = Some e
              /\ Date_parse (date_string_of e) = Some t /\ clock i <= t.
Proof.
  rewrite filter_at_In. cbn [Nat.add]. unfold num_ge. split.
  - intros (i & Hi & H). destruct (Date_parse (date_string_of e)) as [t |];
      [| discriminate].
    exists i, t. apply Z.leb_le in H. auto.
  - intros (i & t & Hi & -> & H). exists i. split; [exact Hi |].
    now apply Z.leb_le.
Qed.

(** On events that all have a valid date, the sort of
    [getFeaturedEvents] is the sort by time. *)
Lemma featured_sort_by_time (l : list VenuuEvent) :
  (forall e, In e l -> Date_parse (date_string_of e) <> None) ->
  let time e :=
    match Date_parse (date_string_of e) with Some t => t | None => 0 end in
  sort (getFeaturedEvents_compare Date_parse) l
  = sort_by (fun x y => time x <=? time y) l.
Proof.
  intros Hl time. unfold sort. apply sort_by_ext. intros x y Hx Hy.
  unfold SortCompare, getFeaturedEvents_compare, num_sub, time.
  specialize (Hl x Hx) as Hx'. specialize (Hl y Hy) as Hy'.
  destruct (Date_parse (date_string_of x)); [| contradiction].
  destruct (Date_parse (date_string_of y)); [| contradiction].
  destruct (Z.leb_spec (z - z0) 0), (Z.leb_spec z z0); trivial; lia.
Qed.

(** X1. Every event [getFeaturedEvents] returns has a valid date that
    was not before the clock when the filter looked at it, so an event
    with no date or an unparsable date is never featured; the events
    come in ascending order of date; and with a limit that is not
    negative there are at most [limit] of them. *)
Theorem getFeaturedEvents_upcoming_sorted (clock : nat -> Z) (limit : Z)
    (events : list VenuuEvent) :
  let R := getFeaturedEvents_of Date_parse clock limit events in
  (forall e, In e R ->
     exists i t, nth_error events i = Some e
                 /\ Date_parse (date_string_of e) = Some t /\ clock i <= t)
  /\ (forall e, Date_parse (date_string_of e) = None -> ~ In e R)
  /\ StronglySorted
       (fun a b => exists ta tb,
            Date_parse (date_string_of a) = Some ta
            /\ Date_parse (date_string_of b) = Some tb /\ ta <= tb) R
  /\ (0 <= limit -> Z.of_nat (List.length R) <= limit).
Proof.
  cbv zeta. unfold getFeaturedEvents_of.
  set (U := filter_at _ 0%nat events).
  assert (HU : forall e, In e U -> Date_parse (date_string_of e) <> None).
  { intros e He. apply upcoming_dated in He as (i & t & _ & -> & _).
    discriminate. }
  destruct (slice0_firstn limit (sort (getFeaturedEvents_compare Date_parse) U))
    as (n & -> & Hn & _).
  assert (Hin : forall e,
             In e (firstn n (sort (getFeaturedEvents_compare Date_parse) U)) ->
             In e U).
  { intros e He. apply In_firstn in He. unfold sort in He.
    now apply sort_by_In in He. }
  split; [| split; [| split]].
  - intros e He. now apply upcoming_dated, Hin.
  - intros e Hnone He. exact (HU e (Hin e He) Hnone).
  - apply firstn_sorted. rewrite (featured_sort_by_time U HU).
    eapply sorted_weaken; [| apply sort_by_sorted].
    + intros x y Hx Hy Hle. apply sort_by_In in Hx, Hy.
      cbv beta in Hle. apply Z.leb_le in Hle.
      pose proof (HU x Hx) as Hx'. pose proof (HU y Hy) as Hy'.
      destruct (Date_parse (date_string_of x)) as [tx |]; [| contradiction].
      destruct (Date_parse (date_string_of y)) as [ty |]; [| contradiction].
      exists tx, ty. repeat split. exact Hle.
    + intros x y. destruct (Z.leb_spec
        (match Date_parse (date_string_of x) with Some t => t | None => 0 end)
        (match Date_parse (date_string_of y) with Some t => t | None => 0 end));
        [now left | right; apply Z.leb_le; lia].
    + intros x y z Hxy Hyz. apply Z.leb_le in Hxy, Hyz. apply Z.leb_le. lia.
  - intros Hlimit. pose proof (firstn_le_length n
      (sort (getFeaturedEvents_compare Date_parse) U)). specialize (Hn Hlimit).
    lia.
Qed.

(** X2. The limit of [getFeaturedEvents] cuts a prefix off the sorted
    upcoming events, the list a limit as large as the input returns: a
    limit from 0 up keeps the first [limit] of them, all when there are
    fewer; a negative limit does not give the empty list, it drops the
    last [-limit] of them. *)
Theorem getFeaturedEvents_limit (clock : nat -> Z) (limit : Z)
    (events : list VenuuEvent) :
  let all :=
    getFeaturedEvents_of Date_parse clock (Z.of_nat (List.length events))
      events in
  let R := getFeaturedEvents_of Date_parse clock limit events in
  exists dropped,
    all = R ++ dropped
    /\ Z.of_nat (List.length dropped)
       = if limit <? 0
         then Z.min (- limit) (Z.of_nat (List.length all))
         else Z.max (Z.of_nat (List.length all) - limit) 0.
Proof.
  cbv zeta. unfold getFeaturedEvents_of.
  set (U := sort _ (filter_at _ 0%nat events)).
  assert (Hlen : (List.length U <= List.length events)%nat).
  { unfold U, sort.
    rewrite (Permutation_length (sort_by_perm _ _)).
    clear U. generalize 0%nat. induction events as [| x l IH]; intros i;
      cbn [filter_at]; [reflexivity |].
    destruct (num_ge _ _); cbn [List.length]; specialize (IH (S i)); lia. }
  assert (Hall : slice0 (Z.of_nat (List.length events)) U = U).
  { unfold slice0.
    destruct (Z.ltb_spec (Z.of_nat (List.length events)) 0); [lia |].
    apply firstn_all2. lia. }
  rewrite Hall.
  destruct (slice0_firstn limit U) as (n & -> & _ & Hn).
  exists (skipn n U). split; [symmetry; apply firstn_skipn |].
  rewrite length_skipn. destruct (limit <? 0) eqn:Hl.
  - apply Z.ltb_lt in Hl. lia.
  - apply Z.ltb_ge in Hl. lia.
Qed.

End Featured.

Section Options.

Import EventsApi Arrays EventsQueries.

Lemma leb_trans (x y z : string) :
  String.leb x y = true -> String.leb y z = true -> String.leb x z = true.
Proof.
  unfold String.leb. intros Hxy Hyz.
  destruct (String.compare x y) eqn:Cxy; [| | discriminate].
  - apply String.compare_eq_iff in Cxy. now subst.
  - destruct (String.compare y z) eqn:Cyz; [| | discriminate].
    + apply String.compare_eq_iff in Cyz. subst. now rewrite Cxy.
    + apply OrderedTypeEx.String_as_OT.cmp_lt in Cxy, Cyz.
      pose proof (OrderedTypeEx.String_as_OT.lt_trans _ _ _ Cxy Cyz) as H.
      apply OrderedTypeEx.String_as_OT.cmp_lt in H.
      unfold OrderedTypeEx.String_as_OT.cmp in H. now rewrite H.
Qed.

(** A sorted array of distinct strings ascends strictly. *)
Lemma sort_strings_strict (l : list string) :
  NoDup l ->
  StronglySorted (fun a b => String.ltb a b = true) (sort_strings l)
  /\ NoDup (sort_strings l).
Proof.
  intros Hnd.
  assert (Hnd' : NoDup (sort_strings l)).
  { eapply Permutation_NoDup; [symmetry; apply sort_by_perm | exact Hnd]. }
  split; [| exact Hnd'].
  pose proof (sort_by_sorted String.leb String.leb_total leb_trans l) as Hs.
  fold (sort_strings l) in Hs.
  induction Hs as [| x r Hr IH Hx]; constructor.
  - apply IH. now inversion Hnd'.
  - inversion Hnd' as [| ? ? Hnotin _]; subst.
    rewrite Forall_forall in *. intros y Hy. specialize (Hx y Hy).
    unfold String.leb in Hx. unfold String.ltb.
    destruct (String.compare x y) eqn:C; [| reflexivity | discriminate].
    apply String.compare_eq_iff in C. subst. contradiction.
Qed.

Lemma Set_add_In (set : list string) (x y : string) :
  In y (Set_add set x) <-> In y set \/ y = x.
Proof.
  unfold Set_add. destruct (array_includes set x) eqn:H.
  - apply array_includes_In in H. split; [auto |].
    intros [Hy | ->]; assumption.
  - rewrite in_app_iff. cbn. intuition.
Qed.

Lemma Set_add_NoDup (set : list string) (x : string) :
  NoDup set -> NoDup (Set_add set x).
Proof.
  unfold Set_add. intros Hnd. destruct (array_includes set x) eqn:H; trivial.
  apply NoDup_app; [exact Hnd | repeat constructor; intros [] |].
  intros y Hy [<- | []].
  apply array_includes_In in Hy. congruence.
Qed.

Lemma fold_Set_add (l set : list string) :
  (forall y, In y (fold_left Set_add l set) <-> In y set \/ In y l)
  /\ (NoDup set -> NoDup (fold_left Set_add l set)).
Proof.
  revert set. induction l as [| x l IH]; intros set; cbn.
  - split; [intuition | trivial].
  - destruct (IH (Set_add set x)) as [Hin Hnd]. split.
    + intros y. rewrite Hin, Set_add_In. intuition.
    + intros H. apply Hnd. now apply Set_add_NoDup.
Qed.

(** What one event adds to the set of [getCategories]: its resolved
    categories, but for the empty string that stands for "none". *)
Lemma getCategories_visit_spec (set : list string) (e : VenuuEvent) :
  (forall c, In c (getCategories_visit set e) <->
             In c set
             \/ (In c (categories_of e)
                 /\ (c = ""%string -> exists l, category e = CategoryArray l)))
  /\ (NoDup set -> NoDup (getCategories_visit set e)).
Proof.
  unfold getCategories_visit, categories_of, category_string.
  destruct (category e) as [| s | l].
  - destruct (event_category e) as [c' |]; cbn.
    + destruct (truthy_str c') eqn:Hc'.
      * split; [| apply Set_add_NoDup]. intros c. rewrite Set_add_In.
        apply truthy_str_true in Hc'. split.
        -- intros [H | ->]; [now left | right]. split; [now left |].
           intros ->. contradiction.
        -- intros [H | [[<- | []] _]]; auto.
      * split; [| trivial]. intros c. apply truthy_str_false in Hc'. subst.
        split; [now left |]. intros [H | [[<- | []] H]]; [exact H |].
        destruct (H eq_refl) as [l Hl]. discriminate.
    + split; [| trivial]. intros c.
      split; [now left |]. intros [H | [[<- | []] H]]; [exact H |].
      destruct (H eq_refl) as [l Hl]. discriminate.
  - unfold or_else, truthy. cbn. destruct (truthy_str s) eqn:Hs.
    + cbn. rewrite Hs. split; [| apply Set_add_NoDup].
      intros c. rewrite Set_add_In. apply truthy_str_true in Hs. split.
      * intros [H | ->]; [now left | right]. split; [now left |].
        intros ->. contradiction.
      * intros [H | [[<- | []] _]]; auto.
    + destruct (event_category e) as [c' |]; cbn.
      * destruct (truthy_str c') eqn:Hc'.
        -- split; [| apply Set_add_NoDup]. intros c. rewrite Set_add_In.
           apply truthy_str_true in Hc'. split.
           ++ intros [H | ->]; [now left | right]. split; [now left |].
              intros ->. contradiction.
           ++ intros [H | [[<- | []] _]]; auto.
        -- split; [| trivial]. intros c. apply truthy_str_false in Hc'. subst.
           split; [now left |]. intros [H | [[<- | []] H]]; [exact H |].
           destruct (H eq_refl) as [l Hl]. discriminate.
      * split; [| trivial]. intros c.
        split; [now left |]. intros [H | [[<- | []] H]]; [exact H |].
        destruct (H eq_refl) as [l Hl]. discriminate.
  - destruct (fold_Set_add l set) as [Hin Hnd]. split; [| exact Hnd].
    intros c. rewrite Hin. split.
    + intros [H | H]; [now left | right]. split; [exact H | eauto].
    + intros [H | [H _]]; auto.
Qed.

Lemma getCategories_fold (events : list VenuuEvent) (set : list string) :
  (forall c, In c (fold_left getCategories_visit events set) <->
             In c set
             \/ exists e, In e events /\ In c (categories_of e)
                  /\ (c = ""%string -> exists l, category e = CategoryArray l))
  /\ (NoDup set -> NoDup (fold_left getCategories_visit events set)).
Proof.
  revert set. induction events as [| x l IH]; intros set; cbn [fold_left].
  - split; [| trivial]. intros c. split; [now left |].
    intros [H | (e & [] & _)]. exact H.
  - destruct (IH (getCategories_visit set x)) as [Hin Hnd].
    destruct (getCategories_visit_spec set x) as [Hin1 Hnd1]. split.
    + intros c. rewrite Hin, Hin1. split.
      * intros [[H | H] | (e & He & H)]; [now left | right | right].
        -- exists x. split; [now left | exact H].
        -- exists e. split; [now right | exact H].
      * intros [H | (e & [<- | He] & H)]; [now left; left | now left; right |].
        right. now exists e.
    + intros H. apply Hnd, Hnd1, H.
Qed.

Lemma getCategories_of_In (events : list VenuuEvent) (c : string) :
  In c (getCategories_of events) <->
  exists e, In e events /\ In c (categories_of e)
            /\ (c = ""%string -> exists l, category e = CategoryArray l).
Proof.
  unfold getCategories_of, sort_strings.
  rewrite sort_by_In, (proj1 (getCategories_fold events [])).
  split; [intros [[] | H]; exact H | now right].
Qed.

(** X3. The list [getCategories] returns ascends strictly in the order
    of the code units, so it has no duplicate; and its members are the
    resolved categories of the events, those the search matches on, but
    for the empty string, which is listed only when an event holds it in
    a category array. *)
Theorem getCategories_sorted_members (events : list VenuuEvent) :
  let R := getCategories_of events in
  StronglySorted (fun a b => String.ltb a b = true) R
  /\ NoDup R
  /\ (forall c, In c R <->
        exists e, In e events /\ In c (categories_of e)
                  /\ (c = ""%string -> exists l, category e = CategoryArray l)).
Proof.
  cbv zeta. unfold getCategories_of.
  destruct (getCategories_fold events []) as [Hin Hnd].
  destruct (sort_strings_strict _ (Hnd (NoDup_nil _))) as [Hs Hnd'].
  split; [exact Hs |]. split; [exact Hnd' |].
  intros c. apply getCategories_of_In.
Qed.

Lemma location_of_chain (e : VenuuEvent) :
  location_of e = or_lit (location_chain e) "".
Proof. reflexivity. Qed.

Lemma getLocations_fold (events : list VenuuEvent) (set : list string) :
  (forall l, In l (fold_left getLocations_visit events set) <->
             In l set
             \/ (l <> ""%string /\ exists e, In e events /\ location_of e = l))
  /\ (NoDup set -> NoDup (fold_left getLocations_visit events set)).
Proof.
  revert set. induction events as [| x r IH]; intros set; cbn [fold_left].
  - split; [| trivial]. intros l. split; [now left |].
    intros [H | (_ & e & [] & _)]. exact H.
  - destruct (IH (getLocations_visit set x)) as [Hin Hnd].
    assert (Hv : (forall l, In l (getLocations_visit set x) <->
                    In l set \/ (l <> ""%string /\ location_of x = l))
                 /\ (NoDup set -> NoDup (getLocations_visit set x))).
    { unfold getLocations_visit. rewrite location_of_chain.
      destruct (location_chain x) as [loc |]; cbn.
      - destruct (truthy_str loc) eqn:Hl.
        + split; [| apply Set_add_NoDup]. intros l. rewrite Set_add_In.
          apply truthy_str_true in Hl. split.
          * intros [H | ->]; auto.
          * intros [H | [_ <-]]; auto.
        + split; [| trivial]. intros l. split; [now left |].
          intros [H | [Hne <-]]; [exact H | contradiction]. 
      - split; [| trivial]. intros l. split; [now left |].
        intros [H | [Hne <-]]; [exact H | contradiction]. }
    destruct Hv as [Hin1 Hnd1]. split.
    + intros l. rewrite Hin, Hin1. split.
      * intros [[H | [Hne H]] | (Hne & e & He & H)];
          [now left | right | right]; split; trivial.
        -- exists x. split; [now left | exact H].
        -- exists e. split; [now right | exact H].
      * intros [H | (Hne & e & [<- | He] & H)];
          [now left; left | now left; right |].
        right. split; [exact Hne |]. now exists e.
    + intros H. apply Hnd, Hnd1, H.
Qed.

Lemma getLocations_of_In (events : list VenuuEvent) (l : string) :
  In l (getLocations_of events) <->
  l <> ""%string /\ exists e, In e events /\ location_of e = l.
Proof.
  unfold getLocations_of, sort_strings.
  rewrite sort_by_In, (proj1 (getLocations_fold events [])).
  split; [intros [[] | H]; exact H | now right].
Qed.

(** X4. The list [getLocations] returns ascends strictly in the order
    of the code units, so it has no duplicate; it never holds the empty
    string; and its members are the resolved locations of the events
    that have one. *)
Theorem getLocations_sorted_members (events : list VenuuEvent) :
  let R := getLocations_of events in
  StronglySorted (fun a b => String.ltb a b = true) R
  /\ NoDup R
  /\ ~ In ""%string R
  /\ (forall l, In l R <->
        l <> ""%string /\ exists e, In e events /\ location_of e = l).
Proof.
  cbv zeta. unfold getLocations_of.
  destruct (getLocations_fold events []) as [Hin Hnd].
  destruct (sort_strings_strict _ (Hnd (NoDup_nil _))) as [Hs Hnd'].
  split; [exact Hs |]. split; [exact Hnd' |].
  split; [| apply getLocations_of_In].
  intros H. apply (getLocations_of_In events "") in H as [Hne _].
  now apply Hne.
Qed.

End Options.

Section ByCategoryAndLocation.

Import EventsApi Arrays EventsQueries.

Variable Date_parse : string -> number.

Lemma searchEvents_filter_only_category (c : string) (e : VenuuEvent) :
  c <> ""%string ->
  searchEvents_filter Date_parse (only_category c) e
  = array_includes (categories_of e) c.
Proof.
  intros Hc. apply truthy_str_true in Hc.
  unfold searchEvents_filter, only_category. cbn. rewrite Hc. cbn.
  destruct (array_includes (categories_of e) c); reflexivity.
Qed.

Lemma searchEvents_filter_only_location (l : string) (e : VenuuEvent) :
  l <> ""%string ->
  searchEvents_filter Date_parse (only_location l) e
  = String.eqb (location_of e) l.
Proof.
  intros Hl. apply truthy_str_true in Hl.
  unfold searchEvents_filter, only_location. cbn. rewrite Hl. cbn.
  destruct (String.eqb (location_of e) l); reflexivity.
Qed.

Lemma getEventsByCategory_filter_iff (c : string) (e : VenuuEvent) :
  c <> ""%string ->
  getEventsByCategory_filter c e = true <->
  searchEvents_filter Date_parse (only_category c) e = true
  \/ (exists s, category e = CategoryString s /\ s <> ""%string /\ s <> c
                /\ event_category e = Some c).
Proof.
  intros Hc. rewrite (searchEvents_filter_only_category c e Hc).
  unfold getEventsByCategory_filter, categories_of, category_string,
    array_includes, strict_eq.
  destruct (category e) as [| s | l]; cbn.
  - rewrite orb_false_r. destruct (event_category e) as [ec |]; cbn.
    + destruct (truthy_str ec) eqn:Ht.
      * rewrite (String.eqb_sym c ec). split; [now left |].
        intros [H | (s & H & _)]; [exact H | discriminate].
      * apply truthy_str_false in Ht. subst ec.
        rewrite (String.eqb_sym c ""). split; [now left |].
        intros [H | (s & H & _)]; [exact H | discriminate].
    + split; [discriminate |].
      intros [H | (s & H & _)]; [| discriminate].
      apply String.eqb_eq in H. now subst.
  - rewrite orb_false_r. unfold or_else, truthy.
    destruct (truthy_str s) eqn:Hs; cbn.
    + rewrite Hs. rewrite orb_true_iff, (String.eqb_sym c s).
      apply truthy_str_true in Hs. split.
      * intros [H | H]; [now left |].
        destruct (String.eqb_spec s c) as [-> | Hne]; [now left | right].
        exists s. repeat split; trivial.
        destruct (event_category e) as [ec |]; [| discriminate].
        apply String.eqb_eq in H. now subst.
      * intros [H | (s' & [= <-] & _ & _ & ->)]; [now left | right].
        apply String.eqb_refl.
    + apply truthy_str_false in Hs. subst s.
      assert (Hf : String.eqb "" c = false) by (apply String.eqb_neq; auto).
      rewrite Hf. cbn [orb].
      destruct (event_category e) as [ec |]; cbn.
      * destruct (truthy_str ec) eqn:Ht.
        -- rewrite (String.eqb_sym c ec). split; [now left |].
           intros [H | (s & [= <-] & Hs & _)]; [exact H | contradiction].
        -- apply truthy_str_false in Ht. subst ec.
           rewrite (String.eqb_sym c ""). split; [now left |].
           intros [H | (s & [= <-] & Hs & _)]; [exact H | contradiction].
      * split; [discriminate |].
        intros [H | (s & [= <-] & Hs & _)]; [| contradiction].
        rewrite (String.eqb_sym c "") in H. congruence.
  - split; [now left |]. intros [H | (s & H & _)]; [exact H | discriminate].
Qed.

Lemma getEventsByLocation_filter_eq (l : string) (e : VenuuEvent) :
  l <> ""%string ->
  getEventsByLocation_filter l e
  = searchEvents_filter Date_parse (only_location l) e.
Proof.
  intros Hl.
  rewrite (searchEvents_filter_only_location l e Hl), location_of_chain.
  unfold getEventsByLocation_filter, strict_eq.
  destruct (location_chain e) as [loc |]; cbn.
  - destruct (truthy_str loc) eqn:Ht; [reflexivity |].
    apply truthy_str_false in Ht. subst loc.
    destruct (String.eqb_spec "" l); [congruence | reflexivity].
  - destruct l; [contradiction | reflexivity].
Qed.

(** X5. For a category that is not the empty string, every event the
    category filter of [searchEvents] keeps is kept by
    [getEventsByCategory]; the converse fails exactly on the events whose
    [category] is another non-empty string and whose [event_category] is
    the category asked for: [getEventsByCategory] returns them and the
    search does not. *)
Theorem getEventsByCategory_vs_search (c : string) (e : VenuuEvent) :
  c <> ""%string ->
  getEventsByCategory_filter c e = true <->
  searchEvents_filter Date_parse (only_category c) e = true
  \/ (exists s, category e = CategoryString s /\ s <> ""%string /\ s <> c
                /\ event_category e = Some c).
Proof. apply getEventsByCategory_filter_iff. Qed.

(** X6. For a location that is not the empty string,
    [getEventsByLocation] and the location filter of [searchEvents]
    return the same events. *)
Theorem getEventsByLocation_is_search (l : string)
    (events : list VenuuEvent) :
  l <> ""%string ->
  filter (getEventsByLocation_filter l) events
  = filter (searchEvents_filter Date_parse (only_location l)) events.
Proof.
  intros Hl. apply filter_ext. intros e.
  now apply getEventsByLocation_filter_eq.
Qed.

(** X7. Every option that [getCategories] and [getLocations] offer
    selects something: [getEventsByCategory] of a listed category returns
    at least one event, and so does the category filter of the search
    when the category is not the empty string; [getEventsByLocation] and
    the location filter of the search return at least one event for a
    listed location. *)
Theorem listed_options_select_events (events : list VenuuEvent) :
  (forall c, In c (getCategories_of events) ->
     (exists e, In e (filter (getEventsByCategory_filter c) events))
     /\ (c <> ""%string ->
         exists e, In e (filter (searchEvents_filter Date_parse
                                   (only_category c)) events)))
  /\ (forall l, In l (getLocations_of events) ->
        (exists e, In e (filter (getEventsByLocation_filter l) events))
        /\ (exists e, In e (filter (searchEvents_filter Date_parse
                                      (only_location l)) events))).
Proof.
  split.
  - intros c Hc.
    apply getCategories_of_In in Hc.
    destruct Hc as (e & He & Hin & Harr).
    assert (Hsearch : c <> ""%string ->
              searchEvents_filter Date_parse (only_category c) e = true).
    { intros Hne. rewrite (searchEvents_filter_only_category c e Hne).
      now apply array_includes_In. }
    split.
    + exists e. apply filter_In. split; [exact He |].
      destruct (String.eqb_spec c "") as [-> | Hne].
      * destruct (Harr eq_refl) as [l Hl].
        unfold getEventsByCategory_filter. rewrite Hl.
        unfold categories_of in Hin. rewrite Hl in Hin.
        now apply array_includes_In.
      * apply (getEventsByCategory_filter_iff c e Hne). left. auto.
    + intros Hne. exists e. apply filter_In. auto.
  - intros l Hl.
    apply getLocations_of_In in Hl.
    destruct Hl as (Hne & e & He & Hloc).
    assert (Hs : In e (filter (searchEvents_filter Date_parse
                                 (only_location l)) events)).
    { apply filter_In. split; [exact He |].
      rewrite (searchEvents_filter_only_location l e Hne).
      now apply String.eqb_eq. }
    split; exists e; [| exact Hs].
    apply filter_In. split; [exact He |].
    rewrite (getEventsByLocation_filter_eq l e Hne).
    now apply filter_In in Hs.
Qed.

End ByCategoryAndLocation.

(** ** More on the search and on the cache *)

Section SearchAndCache.

Import EventsApi Load EventsQueries.
Local Open Scope Z_scope.

Variable Date_parse : string -> number.

(** A bound rejects an event exactly when it is set, parses, and lies
    on the wrong side of the time of the event. *)
Lemma bound_guard (bound : option string) (test : Z -> bool) :
  guard bound
    (fun b => match Date_parse b with Some tb => test tb | None => false end)
  = false <->
  forall b tb, bound = Some b -> b <> ""%string -> Date_parse b = Some tb ->
               test tb = false.
Proof.
  unfold guard. destruct bound as [b |].
  - destruct (truthy_str b) eqn:Hb; cbn [andb].
    + apply truthy_str_true in Hb. split.
      * intros H b' tb [= <-] _ Hp. now rewrite Hp in H.
      * intros H. destruct (Date_parse b) as [tb |] eqn:Hp; [| reflexivity].
        now apply (H b tb).
    + apply truthy_str_false in Hb. subst b. split; [| reflexivity].
      intros _ b' tb [= <-] Hne. contradiction.
  - split; [| reflexivity]. intros _ b tb H. discriminate.
Qed.

Lemma guard_falsy (o : option string) (f : string -> bool) :
  truthy o = false -> guard o f = false.
Proof.
  destruct o as [x |]; cbn; [| reflexivity]. now intros ->.
Qed.

(** X8. On an event with a valid date, the date bounds of
    [searchEvents] are inclusive: the event is kept exactly when its time
    is not before the start bound and not after the end bound. A bound
    that is absent, empty or not a date the host parses rejects
    nothing. *)
Theorem searchEvents_date_bounds (startDate endDate : option string)
    (e : VenuuEvent) (t : Z) :
  Date_parse (date_string_of e) = Some t ->
  searchEvents_filter Date_parse (only_dates startDate endDate) e = true <->
  (forall s ts, startDate = Some s -> s <> ""%string ->
                Date_parse s = Some ts -> ts <= t)
  /\ (forall s te, endDate = Some s -> s <> ""%string ->
                   Date_parse s = Some te -> t <= te).
Proof.
  intros Ht. unfold searchEvents_filter, only_dates.
  cbn [sp_query sp_category sp_location sp_startDate sp_endDate guard].
  rewrite Ht.
  change (fun startDate0 : string => num_lt (Some t) (Date_parse startDate0))
    with (fun b => match Date_parse b with
                   | Some tb => t <? tb
                   | None => false
                   end).
  change (fun endDate0 : string => num_gt (Some t) (Date_parse endDate0))
    with (fun b => match Date_parse b with
                   | Some tb => tb <? t
                   | None => false
                   end).
  pose proof (bound_guard startDate (fun tb => t <? tb)) as Hs.
  pose proof (bound_guard endDate (fun tb => tb <? t)) as He.
  cbv beta in Hs, He.
  assert (Hstart : (forall s ts, startDate = Some s -> s <> ""%string ->
                      Date_parse s = Some ts -> ts <= t)
                   <-> forall b tb, startDate = Some b -> b <> ""%string ->
                         Date_parse b = Some tb -> (t <? tb) = false).
  { split; intros H b tb H1 H2 H3; specialize (H b tb H1 H2 H3);
      [apply Z.ltb_ge | apply Z.ltb_ge in H]; lia. }
  assert (Hend : (forall s te, endDate = Some s -> s <> ""%string ->
                    Date_parse s = Some te -> t <= te)
                 <-> forall b tb, endDate = Some b -> b <> ""%string ->
                       Date_parse b = Some tb -> (tb <? t) = false).
  { split; intros H b tb H1 H2 H3; specialize (H b tb H1 H2 H3);
      [apply Z.ltb_ge | apply Z.ltb_ge in H]; lia. }
  rewrite Hstart, Hend, <- Hs, <- He.
  destruct (truthy startDate || truthy endDate) eqn:Hany.
  - destruct (guard startDate _); [split; [discriminate | intros [H _]; discriminate] |].
    destruct (guard endDate _); [split; [discriminate | intros [_ H]; discriminate] |].
    split; auto.
  - apply orb_false_iff in Hany as [H1 H2].
    rewrite (guard_falsy startDate _ H1), (guard_falsy endDate _ H2).
    split; auto.
Qed.

Lemma filter_keeps_all {A} (f : A -> bool) (l : list A) :
  (forall x, In x l -> f x = true) -> filter f l = l.
Proof.
  induction l as [| x l IH]; intros H; cbn; [reflexivity |].
  rewrite (H x (or_introl eq_refl)). f_equal. apply IH.
  intros y Hy. apply H. now right.
Qed.

(** X9. With every search parameter absent or empty, [searchEvents]
    filters nothing. When [getEvents] returns a list, [searchEvents]
    returns that list whole and in order and ends in the same state; when
    [getEvents] throws, [searchEvents] throws the same error. What
    [getEvents] returns is a list here: a body that is not one, which
    [request] hands on as text, is not a value of the type of the
    events, and [events.filter] on it is outside this statement. *)
Theorem searchEvents_no_parameter (now : Z) (net : Network)
    (searchParams : SearchParams) (s : State) :
  truthy (sp_query searchParams) = false ->
  truthy (sp_category searchParams) = false ->
  truthy (sp_location searchParams) = false ->
  truthy (sp_startDate searchParams) = false ->
  truthy (sp_endDate searchParams) = false ->
  (forall E s', getEvents now net s = (Normal E, s') ->
     searchEvents Date_parse now net searchParams s = (Normal E, s'))
  /\ (forall error s', getEvents now net s = (Throw error, s') ->
        searchEvents Date_parse now net searchParams s = (Throw error, s')).
Proof.
  intros Hq Hc Hl Hs He. unfold searchEvents, bind, ret.
  split; [intros E s' -> | now intros error s' ->].
  f_equal. f_equal.
  pose proof guard_falsy as Hg.
  apply filter_keeps_all.
  intros e _. unfold searchEvents_filter.
  now rewrite !Hg, Hs, He by assumption.
Qed.

(** X10. The list [getEvents] returns is the list the cache holds when
    the call ends. After a call that had to load and got a list, from the
    primary endpoint or from the local file, the timestamp is the time of
    that call, and every call less than 300000 ms after it returns the
    same list and changes nothing, whatever the network would answer. *)
Theorem getEvents_then_cached (now : Z) (net : Network) (s s' : State)
    (L : list VenuuEvent) :
  getEvents now net s = (Normal L, s') ->
  eventsCache s' = Some L
  /\ (cache_valid now s = false ->
      lastFetch s' = now
      /\ forall now' net', now' - now < 300000 ->
           getEvents now' net' s' = (Normal L, s')).
Proof.
  intros Hrun.
  destruct (cache_valid now s) eqn:Hv.
  - split; [| discriminate]. unfold cache_valid in Hv. unfold getEvents in Hrun.
    destruct (eventsCache s) as [cached |] eqn:Hc; [| discriminate].
    rewrite Hv in Hrun. unfold ret in Hrun. injection Hrun as <- <-.
    exact Hc.
  - rewrite (getEvents_miss now net s Hv), getEvents_load_run in Hrun.
    assert (Hs' : eventsCache s' = Some L /\ lastFetch s' = now).
    { destruct (primary_outcome net).
      - injection Hrun as <- <-. split; reflexivity.
      - destruct (fallback_outcome net); [| discriminate].
        injection Hrun as <- <-. split; reflexivity. }
    destruct Hs' as [Hc Ht]. split; [exact Hc |]. intros _.
    split; [exact Ht |]. intros now' net' Hfresh.
    apply getEvents_hit; [exact Hc |]. rewrite Ht. unfold cacheExpiry. lia.
Qed.

(** X11. A primary response whose status is not a success sends
    [getEvents] to the local file, even when its body holds the events;
    and the read of the local file does not look at the status: a
    response whose JSON body reads as a list is returned and cached,
    whether the status is a success or not. *)
Theorem getEvents_status_handling (now : Z) (net : Network) (s : State)
    (r r' : Response (list VenuuEvent)) (L : list VenuuEvent) :
  cache_valid now s = false ->
  net "/api/events"%string = Normal r -> ok r = false ->
  net "./api-data.json"%string = Normal r' -> json r' = Normal L ->
  exists s',
    getEvents now net s = (Normal L, s')
    /\ eventsCache s' = Some L
    /\ fetched s' = fetched s ++ ["/api/events"; "./api-data.json"]%string.
Proof.
  intros Hv Hp Hok Hf Hj.
  rewrite (getEvents_miss now net s Hv), getEvents_load_run.
  unfold primary_outcome, fallback_outcome, primary_url, fallback_url, baseUrl.
  cbn [String.append]. rewrite Hp, Hok, Hf, Hj. cbn [negb].
  eexists. split; [reflexivity |]. split; [reflexivity |].
  cbn [fetched]. now rewrite <- app_assoc.
Qed.

End SearchAndCache.

(** ** More on the preferences store *)

Section PreferencesMore.

Import UserPreferencesApi.

Lemma getPreferences_stored (s : State) (P : UserPreferences) :
  fst (getPreferences s) = Normal P <-> stored_preferences s = P.
Proof.
  rewrite getPreferences_run. cbn [fst]. split; [now intros [= ->] | now intros ->].
Qed.

(** What a state holds after a [savePreferences] of a full object, by
    the two failures of the storage. *)
Lemma stored_after_full_save (prefs : UserPreferences) (s : State) :
  stored_preferences
    (run (savePreferences (all_keys prefs))
       (log_if (read_fails s) "Error loading preferences:" s))
  = if getItem_throws s || setItem_throws s then stored_preferences s
    else prefs.
Proof.
  rewrite stored_after_save.
  destruct (logged_same (read_fails s) "Error loading preferences:" s)
    as (_ & -> & -> & ->).
  destruct (getItem_throws s) eqn:Hr; cbn [orb].
  - symmetry. now apply stored_when_read_throws.
  - destruct (setItem_throws s); reflexivity.
Qed.

Lemma stored_after_addToFavorites (eventId : string) (s : State) :
  let P := stored_preferences s in
  stored_preferences (run (addToFavorites eventId) s)
  = if array_includes (favorites P) eventId
       || (getItem_throws s || setItem_throws s)
    then P
    else set_favorites P (favorites P ++ [eventId]).
Proof.
  cbv zeta. rewrite run_addToFavorites. cbv zeta.
  destruct (array_includes _ eventId); cbn [orb].
  - apply logged_same.
  - apply stored_after_full_save.
Qed.

Lemma stored_after_removeFromFavorites (eventId : string) (s : State) :
  let P := stored_preferences s in
  stored_preferences (run (removeFromFavorites eventId) s)
  = if getItem_throws s || setItem_throws s then P
    else set_favorites P
           (filter (fun id => negb (String.eqb id eventId)) (favorites P)).
Proof.
  cbv zeta. rewrite run_removeFromFavorites. apply stored_after_full_save.
Qed.

Lemma stored_after_addSearchToHistory (query : string) (s : State) :
  let P := stored_preferences s in
  stored_preferences (run (addSearchToHistory query) s)
  = if negb (truthy_str (trim query))
       || (getItem_throws s || setItem_throws s)
    then P
    else set_searchHistory P
           (firstn 10
              (query :: filter (fun item => negb (String.eqb item query))
                          (searchHistory P))).
Proof.
  cbv zeta. destruct (truthy_str (trim query)) eqn:Hq; cbn [negb orb].
  - apply truthy_str_true in Hq.
    rewrite (run_addSearchToHistory query s Hq).
    apply stored_after_full_save.
  - unfold run, addSearchToHistory. rewrite Hq. reflexivity.
Qed.

Lemma stored_after_clearSearchHistory (s : State) :
  let P := stored_preferences s in
  stored_preferences (run clearSearchHistory s)
  = if getItem_throws s || setItem_throws s then P
    else set_searchHistory P [].
Proof.
  cbv zeta. unfold run, clearSearchHistory, bind.
  rewrite getPreferences_run. apply stored_after_full_save.
Qed.

(** [savePreferences] at an argument with no [undefined] key. *)
Lemma savePreferences_given_defined (partial : PartialPreferences)
    (s : State) :
  savePreferences_given (defined_keys partial) s = savePreferences partial s.
Proof.
  unfold savePreferences_given, savePreferences, try_catch, bind.
  rewrite getPreferences_run. unfold JSON_stringify.
  replace (written_keys (stored_preferences s) (defined_keys partial))
    with (all_keys (spread (stored_preferences s) partial)); [reflexivity |].
  destruct partial as [[f |] [t |] [l |] [n |] [h |]]; reflexivity.
Qed.

(** X12. [savePreferences] merges and reads back. On a storage that
    works, the entry written by [savePreferences(partial)] is the JSON of
    an object that holds, for a key [partial] lacks, the value of before,
    and for a key [partial] gives a value, that value; a key [partial]
    holds with the value [undefined] is copied by the spread and left out
    by [JSON.stringify], so the entry lacks it and the next
    [getPreferences] returns its default. The entry holds all five keys
    exactly when no key of [partial] is [undefined], also when the entry
    before was missing or malformed; then [getPreferences] returns the
    preferences of before with the keys of [partial] laid over them. *)
Theorem savePreferences_merges (preferences : GivenPreferences)
    (s : State) (P : UserPreferences) :
  fst (getPreferences s) = Normal P ->
  getItem_throws s = false -> setItem_throws s = false ->
  let after := run (savePreferences_given preferences) s in
  let keys := written_keys P preferences in
  entry after = Some (JsonText (JsonObject keys))
  /\ fst (getPreferences after) = Normal (spread defaultPrefs keys)
  /\ five_keys keys = negb (some_undefined preferences)
  /\ (forall partial, preferences = defined_keys partial ->
        after = run (savePreferences partial) s
        /\ keys = all_keys (spread P partial)
        /\ fst (getPreferences after) = Normal (spread P partial))
  /\ (favorites_given preferences = KeyAbsent ->
      favorites (spread defaultPrefs keys) = favorites P)
  /\ (searchHistory_given preferences = KeyAbsent ->
      searchHistory (spread defaultPrefs keys) = searchHistory P)
  /\ (theme_given preferences = KeyAbsent ->
      theme (spread defaultPrefs keys) = theme P)
  /\ (forall v, theme_given preferences = KeyValue v ->
        theme (spread defaultPrefs keys) = v)
  /\ (theme_given preferences = KeyUndefined ->
      theme_key keys = None
      /\ theme (spread defaultPrefs keys) = "light"%string)
  /\ (favorites_given preferences = KeyUndefined ->
      favorites_key keys = None /\ favorites (spread defaultPrefs keys) = []).
Proof.
  intros HP Hr Hw. cbv zeta. apply getPreferences_stored in HP.
  assert (Hrun : run (savePreferences_given preferences) s
                 = {| entry := Some (JsonText (JsonObject
                                  (written_keys P preferences)));
                      getItem_throws := false; setItem_throws := false;
                      console := console (log_if (read_fails s)
                                   "Error loading preferences:" s) |}).
  { unfold run, savePreferences_given, try_catch, bind.
    rewrite getPreferences_run. unfold localStorage_setItem.
    rewrite setItem_throws_log_if, getItem_throws_log_if, Hw, Hr, HP.
    reflexivity. }
  assert (Hread : fst (getPreferences (run (savePreferences_given preferences) s))
                  = Normal (spread defaultPrefs (written_keys P preferences))).
  { rewrite Hrun. apply getPreferences_stored. reflexivity. }
  split; [now rewrite Hrun |]. split; [exact Hread |]. split.
  { unfold five_keys, some_undefined, written_keys. cbn.
    destruct (favorites_given preferences), (theme_given preferences),
      (language_given preferences), (notifications_given preferences),
      (searchHistory_given preferences); reflexivity. }
  split.
  { intros partial ->.
    assert (Hkeys : written_keys P (defined_keys partial)
                    = all_keys (spread P partial)).
    { destruct partial as [[f |] [t |] [l |] [n |] [h |]]; reflexivity. }
    split; [| split; [exact Hkeys |]].
    - unfold run. now rewrite savePreferences_given_defined.
    - rewrite Hread, Hkeys. now rewrite spread_all_keys. }
  unfold written_keys, spread. cbn.
  repeat match goal with
    | |- _ /\ _ => split
    | |- _ -> _ => intro
    | |- forall _, _ => intro
    end;
    match goal with
    | H : _ preferences = _ |- _ => rewrite H
    end; reflexivity.
Qed.

(** X13. [savePreferences] never throws. When the storage refuses the
    write, the entry stays as it was and the last line of the console is
    "Error saving preferences:". *)
Theorem savePreferences_refused (preferences : PartialPreferences)
    (s : State) :
  fst (savePreferences preferences s) = Normal tt
  /\ (setItem_throws s = true ->
      entry (run (savePreferences preferences) s) = entry s
      /\ exists before,
           console (run (savePreferences preferences) s)
           = before ++ ["Error saving preferences:"%string]).
Proof.
  unfold run. rewrite savePreferences_run. cbn [fst snd].
  split; [reflexivity |]. intros Hw. rewrite Hw. split.
  - now rewrite !entry_log_if.
  - eexists. reflexivity.
Qed.

(** X14. Where the storage can be read, the operations on the
    favorites leave the settings and the search history as
    [getPreferences] returned them before, and the operations on the
    search history leave the favorites and the settings so, whether the
    storage takes the write or refuses it. Where the read of the storage
    throws and the write works it is not so: each operation starts from
    the defaults and overwrites the entry, whatever it held, with the
    defaults and its own change. *)
Theorem preferences_frame (s : State) (eventId query : string)
    (P : UserPreferences) :
  fst (getPreferences s) = Normal P ->
  let settings_kept P' :=
    theme P' = theme P /\ language P' = language P
    /\ notifications P' = notifications P in
  (getItem_throws s = false ->
   (exists P', fst (getPreferences (run (addToFavorites eventId) s)) = Normal P'
               /\ settings_kept P' /\ searchHistory P' = searchHistory P)
   /\ (exists P',
         fst (getPreferences (run (removeFromFavorites eventId) s)) = Normal P'
         /\ settings_kept P' /\ searchHistory P' = searchHistory P)
   /\ (exists P',
         fst (getPreferences (run (addSearchToHistory query) s)) = Normal P'
         /\ settings_kept P' /\ favorites P' = favorites P)
   /\ (exists P', fst (getPreferences (run clearSearchHistory s)) = Normal P'
                  /\ settings_kept P' /\ favorites P' = favorites P))
  /\ (getItem_throws s = true -> setItem_throws s = false ->
      P = defaultPrefs
      /\ entry (run (addToFavorites eventId) s)
         = Some (JSON_stringify (set_favorites defaultPrefs [eventId]))
      /\ entry (run (removeFromFavorites eventId) s)
         = Some (JSON_stringify defaultPrefs)
      /\ (~ Spec.blank query ->
          entry (run (addSearchToHistory query) s)
          = Some (JSON_stringify (set_searchHistory defaultPrefs [query])))
      /\ entry (run clearSearchHistory s) = Some (JSON_stringify defaultPrefs)).
Proof.
  intros HP. apply getPreferences_stored in HP. subst P. cbv zeta. split.
  - intros Hr.
    repeat split; eexists;
      (split; [apply getPreferences_stored; reflexivity |]);
      rewrite ?stored_after_addToFavorites, ?stored_after_removeFromFavorites,
        ?stored_after_addSearchToHistory, ?stored_after_clearSearchHistory;
      cbv zeta; rewrite Hr;
      destruct (array_includes (favorites (stored_preferences s)) eventId),
        (truthy_str (trim query)), (setItem_throws s);
      cbn [negb orb]; repeat split; reflexivity.
  - intros Hr Hw.
    pose proof (stored_when_read_throws s Hr) as Hd.
    destruct (logged_same (read_fails s) "Error loading preferences:" s)
      as (_ & _ & Hw1 & Hd1).
    split; [exact Hd |]. split; [| split; [| split]].
    + rewrite run_addToFavorites. cbv zeta. rewrite Hd.
      change (array_includes (favorites defaultPrefs) eventId) with false.
      cbv iota. rewrite run_savePreferences_entry.
      rewrite Hw1, Hw, Hd1, Hd, spread_all_keys. reflexivity.
    + rewrite run_removeFromFavorites. cbv zeta.
      rewrite run_savePreferences_entry.
      rewrite Hw1, Hw, Hd1, Hd, spread_all_keys. reflexivity.
    + intros Hnb.
      assert (Hq : trim query <> ""%string).
      { intros Ht. apply Hnb. exact (proj1 (trim_blank query) Ht). }
      rewrite (run_addSearchToHistory query s Hq). cbv zeta.
      rewrite run_savePreferences_entry.
      rewrite Hw1, Hw, Hd1, Hd, spread_all_keys. reflexivity.
    + unfold run, clearSearchHistory, bind. rewrite getPreferences_run.
      fold (run (savePreferences
                   (all_keys (set_searchHistory (stored_preferences s) [])))
              (log_if (read_fails s) "Error loading preferences:" s)).
      rewrite run_savePreferences_entry.
      rewrite Hw1, Hw, Hd1, Hd, spread_all_keys. reflexivity.
Qed.

(** X15. When the favorites [getFavorites] returns are a list [F] of
    identifiers, [isFavorited] returns whether the identifier is in [F];
    on a storage that works it then returns true after [addToFavorites]
    and false after [removeFromFavorites]. The stored objects here hold
    a list under [favorites] or lack the key; the call
    [prefs.favorites.includes] stands in no [try], and what it does on a
    stored value that is no list is not stated. *)
Theorem isFavorited_after (s : State) (eventId : string) (F : list string) :
  favorites_of s = Normal F ->
  fst (isFavorited eventId s) = Normal (array_includes F eventId)
  /\ (getItem_throws s = false -> setItem_throws s = false ->
      fst (isFavorited eventId (run (addToFavorites eventId) s)) = Normal true
      /\ fst (isFavorited eventId (run (removeFromFavorites eventId) s))
         = Normal false).
Proof.
  intros HF. rewrite favorites_of_stored in HF. injection HF as HF.
  assert (His : forall s0, fst (isFavorited eventId s0)
                 = Normal (array_includes (favorites (stored_preferences s0))
                             eventId)).
  { intros s0. unfold isFavorited, bind, ret. now rewrite getPreferences_run. }
  split; [now rewrite His, HF |].
  intros Hr Hw. rewrite !His, stored_after_addToFavorites,
    stored_after_removeFromFavorites. cbv zeta. rewrite Hr, Hw, HF.
  cbn [orb]. split.
  - destruct (array_includes F eventId) eqn:Hin; cbn [orb].
    + now rewrite HF, Hin.
    + cbn [favorites set_favorites]. f_equal.
      apply array_includes_In, in_or_app. right. now left.
  - cbn [favorites set_favorites]. f_equal.
    destruct (array_includes _ eventId) eqn:Hin; [| reflexivity].
    apply array_includes_In in Hin. now apply filter_out_removes in Hin.
Qed.

(** X16. After [clearSearchHistory], on a storage that takes the write,
    the history is empty; a query that is not blank added next is then
    the whole history. *)
Theorem clearSearchHistory_empties (s : State) (query : string) :
  setItem_throws s = false ->
  history_of (run clearSearchHistory s) = Normal []
  /\ (getItem_throws s = false -> ~ Spec.blank query ->
      history_of (run (addSearchToHistory query) (run clearSearchHistory s))
      = Normal [query]).
Proof.
  intros Hw.
  assert (Hflags : getItem_throws (run clearSearchHistory s) = getItem_throws s
                   /\ setItem_throws (run clearSearchHistory s)
                      = setItem_throws s).
  { unfold run, clearSearchHistory, bind. rewrite getPreferences_run.
    destruct (run_savePreferences_flags
                (all_keys (set_searchHistory (stored_preferences s) []))
                (log_if (read_fails s) "Error loading preferences:" s))
      as [H1 H2].
    unfold run in H1, H2. rewrite H1, H2.
    destruct (logged_same (read_fails s) "Error loading preferences:" s)
      as (_ & -> & -> & _). auto. }
  destruct Hflags as [Hr' Hw'].
  assert (Hclear : searchHistory (stored_preferences (run clearSearchHistory s))
                   = []).
  { rewrite stored_after_clearSearchHistory. cbv zeta. rewrite Hw.
    destruct (getItem_throws s) eqn:Hr; cbn [orb]; [| reflexivity].
    now rewrite (stored_when_read_throws s Hr). }
  split.
  - now rewrite history_of_stored, Hclear.
  - intros Hr Hnb. rewrite history_of_stored, stored_after_addSearchToHistory.
    cbv zeta. rewrite Hr', Hw', Hr, Hw, Hclear.
    assert (Hq : truthy_str (trim query) = true).
    { apply truthy_str_true. intros Ht. apply Hnb.
      exact (proj1 (trim_blank query) Ht). }
    rewrite Hq. reflexivity.
Qed.

(** X17. When the history is full, ten entries, and a query that is not
    blank and not among them is added on a storage that works, the query
    goes in front, the oldest entry, the last, is dropped, and the other
    nine keep their order. *)
Theorem addSearchToHistory_drops_oldest (s : State) (query : string)
    (H : list string) :
  history_of s = Normal H ->
  getItem_throws s = false -> setItem_throws s = false ->
  ~ Spec.blank query -> ~ In query H -> List.length H = 10%nat ->
  history_of (run (addSearchToHistory query) s)
  = Normal (query :: removelast H).
Proof.
  intros HH Hr Hw Hnb Hnew Hlen.
  rewrite history_of_stored in HH. injection HH as HH.
  rewrite history_of_stored, stored_after_addSearchToHistory. cbv zeta.
  assert (Hq : truthy_str (trim query) = true).
  { apply truthy_str_true. intros Ht. apply Hnb.
    exact (proj1 (trim_blank query) Ht). }
  rewrite Hq, Hr, Hw, HH. cbn [negb orb searchHistory set_searchHistory].
  rewrite (filter_out_absent H query Hnew), firstn_cons.
  rewrite removelast_firstn_len, Hlen. reflexivity.
Qed.

End PreferencesMore.

(** ** The controller: search, filters and sort *)

Section ControllerSearch.

Import EventsApi Arrays EventsQueries Controller.

Variable Date_parse : string -> number.

Lemma string_app_assoc (a b c : string) :
  ((a ++ b) ++ c)%string = (a ++ b ++ c)%string.
Proof. induction a as [| x a IH]; cbn; [reflexivity | now rewrite IH]. Qed.

Lemma toLowerCase_app (a b : string) :
  toLowerCase (a ++ b) = (toLowerCase a ++ toLowerCase b)%string.
Proof. induction a as [| x a IH]; cbn; [reflexivity | now rewrite IH]. Qed.

(** A substring of a part is a substring of the whole. *)
Lemma includes_within (a s b q : string) :
  includes s q = true -> includes (a ++ s ++ b) q = true.
Proof.
  rewrite !includes_spec. intros (x & y & ->).
  exists (a ++ x)%string, (y ++ b)%string.
  now rewrite !string_app_assoc.
Qed.

Lemma concat_In (sep c : string) (l : list string) :
  In c l -> exists a b, String.concat sep l = (a ++ c ++ b)%string.
Proof.
  induction l as [| x l IH]; [intros [] |].
  intros [<- | Hin].
  - destruct l as [| y l]; cbn.
    + exists ""%string, ""%string. cbn.
      induction x as [| ch x IHx]; cbn; [reflexivity | now rewrite <- IHx].
    + exists ""%string, (sep ++ String.concat sep (y :: l))%string.
      reflexivity.
  - destruct (IH Hin) as (a & b & Hab).
    destruct l as [| y l]; [destruct Hin |].
    cbn [String.concat]. cbn [String.concat] in Hab. rewrite Hab.
    exists (x ++ sep ++ a)%string, b. now rewrite !string_app_assoc.
Qed.

Lemma includes_lower_within (a s b q : string) :
  includes (toLowerCase s) q = true ->
  includes (toLowerCase (a ++ s ++ b)) q = true.
Proof.
  intros H. rewrite !toLowerCase_app. now apply includes_within.
Qed.

Lemma searchEvents_filter_only_query (raw : string) (e : VenuuEvent) :
  raw <> ""%string ->
  searchEvents_filter Date_parse (Spec.only_query raw) e
  = matchesText (title_of e) (location_of e) (categories_of e) e
      (toLowerCase raw).
Proof.
  intros Hraw. apply truthy_str_true in Hraw.
  unfold searchEvents_filter, Spec.only_query. cbn. rewrite Hraw. cbn.
  destruct (matchesText _ _ _ e _); reflexivity.
Qed.

(** X18. The search of the controller finds every event the text search
    of [searchEvents] finds for the same text, whatever field the event
    matches by, with one exception: an event with no [category] of its
    own whose [event_category], a field the controller does not read,
    holds the text. Such an event is always found by [searchEvents]; the
    controller finds it when its title, its location or its description
    holds the text, and otherwise drops it. *)
Theorem applyFilters_search_covers (raw : string) (e : VenuuEvent) :
  raw <> ""%string ->
  let legacy_match :=
    (forall l, category e <> CategoryArray l)
    /\ truthy (category_string e) = false
    /\ exists ec, event_category e = Some ec /\ ec <> ""%string
         /\ includes (toLowerCase ec) (toLowerCase raw) = true in
  (searchEvents_filter Date_parse (Spec.only_query raw) e = true ->
   applyFilters_search (toLowerCase raw) e = true \/ legacy_match)
  /\ (legacy_match ->
      searchEvents_filter Date_parse (Spec.only_query raw) e = true
      /\ applyFilters_search (toLowerCase raw) e
         = includes (toLowerCase (title_of e)) (toLowerCase raw)
           || includes (toLowerCase (location_of e)) (toLowerCase raw)
           || includes (toLowerCase (or_lit (description e) ""))
                (toLowerCase raw)).
Proof.
  intros Hraw. cbv zeta. rewrite (searchEvents_filter_only_query raw e Hraw).
  split.
  - unfold matchesText, applyFilters_search.
    rewrite !orb_true_iff. intros [[[Ht | Hd] | Hl] | Hc].
    + now left; left; left; left.
    + left. right. unfold guard in Hd. destruct (description e) as [d |];
        [| discriminate]. apply andb_true_iff in Hd as [Hd1 Hd2].
      cbn. now rewrite Hd1.
    + now left; left; left; right.
    + apply existsb_exists in Hc as (c & Hin & Hc).
      unfold categories_of, category_string in *.
      destruct (category e) as [| s | l].
      * destruct Hin as [<- | []]. cbn in *.
        destruct (event_category e) as [ec |]; cbn in *;
          [| now left; left; right].
        destruct (truthy_str ec) eqn:Hec; [| now left; left; right].
        right. split; [intros l; discriminate |]. split; [reflexivity |].
        exists ec. split; [reflexivity |]. split; [| exact Hc].
        now apply truthy_str_true.
      * destruct Hin as [<- | []]. unfold or_else, truthy in Hc. cbn in *.
        destruct (truthy_str s) eqn:Hs; cbn in *.
        -- left. left. right. now rewrite Hs in Hc.
        -- destruct (event_category e) as [ec |]; cbn in *;
             [| now left; left; right].
           destruct (truthy_str ec) eqn:Hec; [| now left; left; right].
           right. split; [intros l; discriminate |]. split; [reflexivity |].
           exists ec. split; [reflexivity |]. split; [| exact Hc].
           now apply truthy_str_true.
      * left. left. right. destruct (concat_In " " c l Hin) as (a & b & ->).
        now apply includes_lower_within.
  - intros (Hna & Hs & ec & Hec & Hne & Hin).
    assert (Hq : includes ""%string (toLowerCase raw) = false).
    { apply includes_empty. intros H.
      apply Hraw. exact (proj1 (toLowerCase_empty raw) H). }
    apply truthy_str_true in Hne.
    split.
    + unfold matchesText. rewrite !orb_true_iff. right.
      unfold categories_of, category_string in *.
      destruct (category e) as [| s | l]; [| | now destruct (Hna l)];
        unfold or_else, or_lit, truthy in *; cbn in Hs |- *; rewrite Hec;
        rewrite ?Hs; cbn; rewrite Hne, Hin; reflexivity.
    + unfold applyFilters_search, category_string in *.
      destruct (category e) as [| s | l]; [| | now destruct (Hna l)];
        unfold truthy in *; cbn in Hs, Hq |- *; rewrite ?Hs; cbn;
        rewrite Hq; now rewrite orb_false_r.
Qed.

End ControllerSearch.

Section ControllerSort.

Import Arrays EventsQueries VenuuApp Controller.
Local Open Scope Z_scope.

Variable Date_parse : string -> number.
Variable localeCompare : string -> string -> Z.

(** On events that all have a valid date, the date sort of
    [applyFilters] is the sort by that key. *)
Lemma applyFilters_sort_by_key (filters : Filters) (l : list VenuuEvent) :
  f_sort filters <> "name"%string -> f_sort filters <> "location"%string ->
  (forall e, In e l -> Date_parse (date_string_of e) <> None) ->
  sort (applyFilters_compare Date_parse localeCompare filters) l
  = sort_by (fun x y => date_key Date_parse (f_dateOrder filters) x
                        <=? date_key Date_parse (f_dateOrder filters) y) l.
Proof.
  intros Hn Hl Hdated. unfold sort. apply sort_by_ext. intros x y Hx Hy.
  unfold SortCompare. rewrite applyFilters_compare_date by assumption.
  unfold date_key, num_sub.
  pose proof (Hdated x Hx) as Hx'. pose proof (Hdated y Hy) as Hy'.
  destruct (Date_parse (date_string_of x)) as [tx |]; [| contradiction].
  destruct (Date_parse (date_string_of y)) as [ty |]; [| contradiction].
  destruct (f_dateOrder filters); cbn;
    match goal with
    | |- (?a <=? ?b) = (?c <=? ?d) =>
        destruct (Z.leb_spec a b), (Z.leb_spec c d); trivial; lia
    end.
Qed.

Lemma date_key_total (order : DateOrder) (x y : VenuuEvent) :
  (date_key Date_parse order x <=? date_key Date_parse order y) = true
  \/ (date_key Date_parse order y <=? date_key Date_parse order x) = true.
Proof.
  destruct (Z.leb_spec (date_key Date_parse order x) (date_key Date_parse order y));
    [now left | right; apply Z.leb_le; lia].
Qed.

Lemma date_key_trans (order : DateOrder) (x y z : VenuuEvent) :
  (date_key Date_parse order x <=? date_key Date_parse order y) = true ->
  (date_key Date_parse order y <=? date_key Date_parse order z) = true ->
  (date_key Date_parse order x <=? date_key Date_parse order z) = true.
Proof. rewrite !Z.leb_le. lia. Qed.

(** X19. Sorted by date, with every event that passes the filters
    dated, the list [applyFilters] stores is the stable sorted
    arrangement of those events: they come by ascending time, or by
    descending time when the order is [desc]; events of the same time
    keep the order they had; and no other arrangement is both sorted and
    stable. *)
Theorem applyFilters_date_sorted (events : list VenuuEvent)
    (filters : Filters) (searchQuery : string) :
  f_sort filters <> "name"%string -> f_sort filters <> "location"%string ->
  let F := applyFilters_filtered events filters searchQuery in
  let R := applyFilters_of Date_parse localeCompare events filters
             searchQuery in
  let same_time z y :=
    date_key Date_parse (f_dateOrder filters) z =? date_key Date_parse (f_dateOrder filters) y in
  let in_order a b :=
    exists ta tb,
      Date_parse (date_string_of a) = Some ta
      /\ Date_parse (date_string_of b) = Some tb
      /\ match f_dateOrder filters with
         | asc => ta <= tb
         | desc => tb <= ta
         end in
  (forall e, In e F -> Date_parse (date_string_of e) <> None) ->
  StronglySorted in_order R
  /\ (forall z, filter (same_time z) R = filter (same_time z) F)
  /\ (forall R',
        StronglySorted in_order R' ->
        (forall e, In e R' -> In e F) ->
        (forall z, filter (same_time z) R' = filter (same_time z) F) ->
        R' = R).
Proof.
  intros Hn Hl F R same_time in_order Hdated.
  set (le := fun x y => date_key Date_parse (f_dateOrder filters) x
                        <=? date_key Date_parse (f_dateOrder filters) y).
  assert (HR : R = sort_by le F).
  { unfold R, applyFilters_of. now apply applyFilters_sort_by_key. }
  assert (Hsame : forall z y, same_time z y = le z y && le y z).
  { intros z y. unfold same_time, le.
    destruct (Z.eqb_spec (date_key Date_parse (f_dateOrder filters) z)
                (date_key Date_parse (f_dateOrder filters) y)),
      (Z.leb_spec (date_key Date_parse (f_dateOrder filters) z)
         (date_key Date_parse (f_dateOrder filters) y)),
      (Z.leb_spec (date_key Date_parse (f_dateOrder filters) y)
         (date_key Date_parse (f_dateOrder filters) z)); trivial; lia. }
  assert (Hle_order : forall l, (forall e, In e l -> In e F) ->
            (StronglySorted (fun a b => le a b = true) l
             <-> StronglySorted in_order l)).
  { intros l Hsub. split; apply sorted_weaken; intros x y Hx Hy Hxy.
    - pose proof (Hdated x (Hsub x Hx)) as Hx'.
      pose proof (Hdated y (Hsub y Hy)) as Hy'.
      unfold le, date_key in Hxy. apply Z.leb_le in Hxy.
      destruct (Date_parse (date_string_of x)) as [tx |] eqn:Ex;
        [| contradiction].
      destruct (Date_parse (date_string_of y)) as [ty |] eqn:Ey;
        [| contradiction].
      rewrite ?Ex, ?Ey in Hxy.
      exists tx, ty. split; [exact Ex |]. split; [exact Ey |].
      destruct (f_dateOrder filters); cbn in Hxy |- *; lia.
    - destruct Hxy as (tx & ty & Hx' & Hy' & Hxy).
      unfold le, date_key. rewrite Hx', Hy'. apply Z.leb_le.
      destruct (f_dateOrder filters); cbn; lia. }
  assert (Hstable : forall z, filter (same_time z) R = filter (same_time z) F).
  { intros z. rewrite HR.
    rewrite (filter_ext _ _ (Hsame z) (sort_by le F)),
      (filter_ext _ _ (Hsame z) F).
    apply sort_by_stable. apply date_key_trans. }
  split; [| split; [exact Hstable |]].
  - apply Hle_order.
    + intros e He. rewrite HR in He. now apply sort_by_In in He.
    + rewrite HR. apply sort_by_sorted;
        [apply date_key_total | apply date_key_trans].
  - intros R' Hs' Hsub Hst'. rewrite HR.
    apply (sorted_stable_unique le (date_key_total _)).
    + now apply Hle_order.
    + apply sort_by_sorted; [apply date_key_total | apply date_key_trans].
    + intros z.
      rewrite <- (filter_ext _ _ (Hsame z) R'),
        <- (filter_ext _ _ (Hsame z) (sort_by le F)), <- HR.
      now rewrite Hst', Hstable.
Qed.

(** X20. [applyFilters] neither adds nor repeats an event: the list it
    stores is a rearrangement of the events that pass the filters, each
    of them an event of the input; and after [clearAllFilters] it is a
    rearrangement of all the events, as many as loaded. *)
Theorem applyFilters_keeps_events (events : list VenuuEvent)
    (filters : Filters) (searchQuery : string) :
  Permutation
    (applyFilters_of Date_parse localeCompare events filters searchQuery)
    (applyFilters_filtered events filters searchQuery)
  /\ (forall e,
        In e (applyFilters_of Date_parse localeCompare events filters
                searchQuery) -> In e events)
  /\ Permutation (clearAllFilters_of Date_parse localeCompare events) events
  /\ List.length (clearAllFilters_of Date_parse localeCompare events)
     = List.length events.
Proof.
  assert (Hp : forall f q,
             Permutation (applyFilters_of Date_parse localeCompare events f q)
               (applyFilters_filtered events f q)).
  { intros f q. unfold applyFilters_of, sort. apply sort_by_perm. }
  assert (Hclear : Permutation
                     (clearAllFilters_of Date_parse localeCompare events)
                     events).
  { unfold clearAllFilters_of. rewrite Hp. reflexivity. }
  split; [apply Hp |]. split; [| split; [exact Hclear |]].
  - intros e He. apply (Permutation_in _ (Hp filters searchQuery)) in He.
    unfold applyFilters_filtered in He.
    repeat match type of He with
      | In _ (if ?c then _ else _) => destruct c
      | In _ (filter _ _) => apply filter_In in He as [He _]
      end; exact He.
  - now apply Permutation_length.
Qed.

End ControllerSort.

(** ** The favorites of the controller *)

Section ControllerFavorites.

Import Arrays Controller.
Local Open Scope Z_scope.








(** X23. The controller does not guard its read of the favorites: with
    an entry that is not JSON, [getFavorites], [isFavorite] and
    [toggleFavorite] all throw the syntax error of [JSON.parse] and leave
    the storage as it is, so no toggle ever repairs the entry. *)
Theorem favorites_malformed_throws (eventId : string) (s : Storage) :
  entry s = Some MalformedFavorites -> getItem_throws s = false ->
  getFavorites s = (Throw (HostErr "SyntaxError"), s)
  /\ isFavorite eventId s = (Throw (HostErr "SyntaxError"), s)
  /\ toggleFavorite eventId s = (Throw (HostErr "SyntaxError"), s).
Proof.
  intros He Hr.
  assert (Hget : getFavorites s = (Throw (HostErr "SyntaxError"), s)).
  { unfold getFavorites, bind, localStorage_getItem, await.
    now rewrite Hr, He. }
  split; [exact Hget |].
  split; unfold isFavorite, toggleFavorite, bind; now rewrite Hget.
Qed.

End ControllerFavorites.

(** ** Relative times *)

Section RelativeTime.

Import Utils.
Local Open Scope Z_scope.

(** X24. [formatRelativeTime] of a valid date: less than a minute
    ago, and any date in the future, reads "Just now"; otherwise the
    number written is at least 1, and at most 59 minutes, 23 hours, 29
    days and 12 months. An invalid date reads "NaN years ago". *)
Theorem formatRelativeTime_ranges (now t : Z) :
  let d := (now - t) / 1000 in
  let out := formatRelativeTime now (Some t) in
  (d < 60 -> out = "Just now"%string)
  /\ (60 <= d < 3600 ->
      exists n, 1 <= n <= 59
                /\ out = (number_to_string n ++ " minutes ago")%string)
  /\ (3600 <= d < 86400 ->
      exists n, 1 <= n <= 23
                /\ out = (number_to_string n ++ " hours ago")%string)
  /\ (86400 <= d < 2592000 ->
      exists n, 1 <= n <= 29
                /\ out = (number_to_string n ++ " days ago")%string)
  /\ (2592000 <= d < 31536000 ->
      exists n, 1 <= n <= 12
                /\ out = (number_to_string n ++ " months ago")%string)
  /\ (31536000 <= d ->
      exists n, 1 <= n
                /\ out = (number_to_string n ++ " years ago")%string)
  /\ formatRelativeTime now None = "NaN years ago"%string.
Proof.
  cbv zeta. unfold formatRelativeTime, floor_div.
  set (d := (now - t) / 1000).
  repeat split; try reflexivity; intros H;
    repeat match goal with
      | |- context [?a <? ?b] => destruct (Z.ltb_spec a b); try lia
      end; try reflexivity;
    eexists; (split; [| reflexivity]).
  - pose proof (Z.div_le_lower_bound d 60 1). 
    pose proof (Z.div_lt_upper_bound d 60 60). lia.
  - pose proof (Z.div_le_lower_bound d 3600 1).
    pose proof (Z.div_lt_upper_bound d 3600 24). lia.
  - pose proof (Z.div_le_lower_bound d 86400 1).
    pose proof (Z.div_lt_upper_bound d 86400 30). lia.
  - pose proof (Z.div_le_lower_bound d 2592000 1).
    pose proof (Z.div_lt_upper_bound d 2592000 13). lia.
  - pose proof (Z.div_le_lower_bound d 31536000 1). lia.
Qed.

End RelativeTime.

(** ** Examples for the further properties *)

Section FurtherExamples.

Import EventsApi Load Arrays EventsQueries VenuuApp Controller.
Local Open Scope Z_scope.

(** An event filed under "Art" with the older field saying "Music":
    [getEventsByCategory] returns it for "Music". *)
Lemma getEventsByCategory_vs_search_witness :
  getEventsByCategory_filter "Music"
    (categorized "a" (CategoryString "Art") (Some "Music"%string)) = true.
Proof.
  apply (proj2 (getEventsByCategory_vs_search DateOnly.parse "Music"
                  (categorized "a" (CategoryString "Art")
                     (Some "Music"%string))
                  ltac:(discriminate))).
  right. exists "Art"%string. repeat split; discriminate.
Defined.

Lemma getEventsByLocation_is_search_witness :
  let events := [located "a" "Reykjavik"; bare "b"; located "c" "Akureyri"] in
  filter (getEventsByLocation_filter "Reykjavik") events
  = filter (searchEvents_filter DateOnly.parse (only_location "Reykjavik"))
      events.
Proof.
  cbv zeta.
  apply (getEventsByLocation_is_search DateOnly.parse "Reykjavik").
  discriminate.
Defined.

(** An event of 1 March 2024 is kept by the bounds 1 January to 1 March:
    the end bound is inclusive. *)
Lemma searchEvents_date_bounds_witness :
  searchEvents_filter DateOnly.parse
    (only_dates (Some "2024-01-01"%string) (Some "2024-03-01"%string))
    (sample "a" None (Some "2024-03-01"%string) CategoryUndefined) = true.
Proof.
  apply (proj2 (searchEvents_date_bounds DateOnly.parse
                  (Some "2024-01-01"%string) (Some "2024-03-01"%string)
                  (sample "a" None (Some "2024-03-01"%string)
                     CategoryUndefined)
                  1709251200000 eq_refl)).
  split; intros s ts Hs _ Hp; injection Hs as <-; vm_compute in Hp;
    injection Hp as <-; lia.
Defined.

(** An empty query and an empty end bound over a load of two events:
    both events come back. *)
Lemma searchEvents_no_parameter_witness :
  let p := {| sp_query := Some ""%string; sp_category := None;
              sp_location := None; sp_startDate := None;
              sp_endDate := Some ""%string |} in
  let net := network (Some [bare "a"; bare "b"]) None in
  searchEvents DateOnly.parse 0 net p initial
  = (Normal [bare "a"; bare "b"], snd (getEvents 0 net initial)).
Proof.
  cbv zeta.
  apply (proj1 (searchEvents_no_parameter DateOnly.parse 0
                  (network (Some [bare "a"; bare "b"]) None)
                  {| sp_query := Some ""%string; sp_category := None;
                     sp_location := None; sp_startDate := None;
                     sp_endDate := Some ""%string |}
                  initial eq_refl eq_refl eq_refl eq_refl eq_refl)).
  reflexivity.
Defined.

(** A load at time 0, then a call at 299999 ms with a dead network. *)
Lemma getEvents_then_cached_witness :
  let L := [bare "a"] in
  let s' := snd (getEvents 0 (network (Some L) None) initial) in
  eventsCache s' = Some L
  /\ getEvents 299999 (network None None) s' = (Normal L, s').
Proof.
  cbv zeta.
  destruct (getEvents_then_cached 0 (network (Some [bare "a"]) None) initial
              (snd (getEvents 0 (network (Some [bare "a"]) None) initial))
              [bare "a"] eq_refl) as [Hc Hm].
  split; [exact Hc |].
  apply (proj2 (Hm eq_refl)). lia.
Defined.

(** Both sources answer 404 with a JSON body: the body of the primary
    answer is not read, that of the local file is returned. *)
Lemma getEvents_status_handling_witness :
  let not_found l : Response (list VenuuEvent) :=
    {| ok := false; status := 404;
       content_type := Some "application/json"%string;
       json := Normal l; text := Throw (HostErr "TypeError") |} in
  let net : Network :=
    fun url => if String.eqb url "/api/events"
               then Normal (not_found [bare "a"])
               else Normal (not_found [bare "b"]) in
  exists s',
    getEvents 0 net initial = (Normal [bare "b"], s')
    /\ eventsCache s' = Some [bare "b"]
    /\ fetched s' = fetched initial ++ ["/api/events"; "./api-data.json"]%string.
Proof.
  cbv zeta.
  eapply getEvents_status_handling; reflexivity.
Defined.

(** The word "MUSIC": an event with the categories "Live" and "Music"
    is found by both searches; an event that holds "Music" in
    [event_category] only is found by [searchEvents] and dropped by the
    controller. *)
Lemma applyFilters_search_covers_witness :
  let listed := categorized "a" (CategoryArray ["Live"; "Music"]%string) None in
  let legacy := categorized "b" CategoryUndefined (Some "Music"%string) in
  (searchEvents_filter DateOnly.parse (Spec.only_query "MUSIC") listed = true
   /\ applyFilters_search (toLowerCase "MUSIC") listed = true)
  /\ searchEvents_filter DateOnly.parse (Spec.only_query "MUSIC") legacy = true
  /\ applyFilters_search (toLowerCase "MUSIC") legacy = false.
Proof.
  cbv zeta. split; [split; reflexivity |].
  apply (proj2 (applyFilters_search_covers DateOnly.parse "MUSIC"
                  (categorized "b" CategoryUndefined (Some "Music"%string))
                  ltac:(discriminate))).
  split; [intros l; discriminate |]. split; [reflexivity |].
  exists "Music"%string. repeat split. discriminate.
Defined.

(** January before June, asked for in descending order. *)
Lemma applyFilters_date_sorted_witness :
  let january := sample "a" None (Some "2024-01-01"%string) CategoryUndefined in
  let june := sample "b" None (Some "2024-06-01"%string) CategoryUndefined in
  StronglySorted
    (fun a b => exists ta tb,
         DateOnly.parse (date_string_of a) = Some ta
         /\ DateOnly.parse (date_string_of b) = Some tb
         /\ tb <= ta)
    (applyFilters_of DateOnly.parse (fun _ _ => 0) [january; june]
       (by_date desc) "").
Proof.
  cbv zeta.
  apply (applyFilters_date_sorted DateOnly.parse (fun _ _ => 0)
           [sample "a" None (Some "2024-01-01"%string) CategoryUndefined;
            sample "b" None (Some "2024-06-01"%string) CategoryUndefined]
           (by_date desc) "").
  - discriminate.
  - discriminate.
  - intros e [<- | [<- | []]]; vm_compute; discriminate.
Defined.


Lemma favorites_malformed_throws_witness :
  let s := {| Controller.entry := Some MalformedFavorites;
              Controller.getItem_throws := false;
              Controller.setItem_throws := false |} in
  getFavorites s = (Throw (HostErr "SyntaxError"), s)
  /\ isFavorite "a" s = (Throw (HostErr "SyntaxError"), s)
  /\ toggleFavorite "a" s = (Throw (HostErr "SyntaxError"), s).
Proof.
  cbv zeta. apply favorites_malformed_throws; reflexivity.
Defined.

End FurtherExamples.

Section FurtherPreferencesExamples.

Import UserPreferencesApi.

(** The theme is saved over a stored list of favorites. *)
Lemma savePreferences_merges_witness :
  let stored :=
    working (Some (JsonText (JsonObject
      {| favorites_key := Some ["a"]%string; theme_key := Some "dark"%string;
         language_key := None; notifications_key := None;
         searchHistory_key := None |}))) in
  let language_only :=
    {| favorites_given := KeyAbsent; theme_given := KeyAbsent;
       language_given := KeyValue "is"%string;
       notifications_given := KeyAbsent;
       searchHistory_given := KeyAbsent |} in
  let theme_undefined :=
    {| favorites_given := KeyAbsent; theme_given := KeyUndefined;
       language_given := KeyAbsent; notifications_given := KeyAbsent;
       searchHistory_given := KeyAbsent |} in
  fst (getPreferences (run (savePreferences_given language_only) stored))
  = Normal {| favorites := ["a"]%string; theme := "dark"; language := "is";
              notifications := true; searchHistory := [] |}
  /\ entry (run (savePreferences_given theme_undefined) stored)
     = Some (JsonText (JsonObject
         {| favorites_key := Some ["a"]%string; theme_key := None;
            language_key := Some "en"%string; notifications_key := Some true;
            searchHistory_key := Some [] |}))
  /\ fst (getPreferences (run (savePreferences_given theme_undefined) stored))
     = Normal {| favorites := ["a"]%string; theme := "light"; language := "en";
                 notifications := true; searchHistory := [] |}.
Proof.
  cbv zeta.
  pose proof (savePreferences_merges
                {| favorites_given := KeyAbsent; theme_given := KeyAbsent;
                   language_given := KeyValue "is"%string;
                   notifications_given := KeyAbsent;
                   searchHistory_given := KeyAbsent |}
                (working (Some (JsonText (JsonObject
                   {| favorites_key := Some ["a"]%string;
                      theme_key := Some "dark"%string;
                      language_key := None; notifications_key := None;
                      searchHistory_key := None |}))))
                _ eq_refl eq_refl eq_refl) as (_ & Hlanguage & _).
  pose proof (savePreferences_merges
                {| favorites_given := KeyAbsent; theme_given := KeyUndefined;
                   language_given := KeyAbsent;
                   notifications_given := KeyAbsent;
                   searchHistory_given := KeyAbsent |}
                (working (Some (JsonText (JsonObject
                   {| favorites_key := Some ["a"]%string;
                      theme_key := Some "dark"%string;
                      language_key := None; notifications_key := None;
                      searchHistory_key := None |}))))
                _ eq_refl eq_refl eq_refl) as (Hentry & Hread & _).
  split; [exact Hlanguage |]. split; [exact Hentry | exact Hread].
Defined.

Lemma isFavorited_after_witness :
  let s := working (favorites_entry ["a"]%string) in
  fst (isFavorited "b" s) = Normal false
  /\ fst (isFavorited "b" (run (addToFavorites "b") s)) = Normal true
  /\ fst (isFavorited "b" (run (removeFromFavorites "b") s)) = Normal false.
Proof.
  cbv zeta.
  destruct (isFavorited_after (working (favorites_entry ["a"]%string)) "b"
              ["a"]%string eq_refl) as [Hnow Hafter].
  split; [exact Hnow |]. apply Hafter; reflexivity.
Defined.

Lemma clearSearchHistory_empties_witness :
  let s := working (history_entry ["x"]%string) in
  history_of (run clearSearchHistory s) = Normal []
  /\ history_of (run (addSearchToHistory "y") (run clearSearchHistory s))
     = Normal ["y"%string].
Proof.
  cbv zeta.
  destruct (clearSearchHistory_empties (working (history_entry ["x"]%string))
              "y" eq_refl) as [Hclear Hadd].
  split; [exact Hclear |]. apply Hadd; [reflexivity |].
  intros Hb. specialize (Hb "y"%char (or_introl eq_refl)). discriminate Hb.
Defined.

Lemma addSearchToHistory_drops_oldest_witness :
  let ten := ["1"; "2"; "3"; "4"; "5"; "6"; "7"; "8"; "9"; "10"]%string in
  history_of (run (addSearchToHistory "new") (working (history_entry ten)))
  = Normal ["new"; "1"; "2"; "3"; "4"; "5"; "6"; "7"; "8"; "9"]%string.
Proof.
  cbv zeta.
  apply (addSearchToHistory_drops_oldest
           (working (history_entry
              ["1"; "2"; "3"; "4"; "5"; "6"; "7"; "8"; "9"; "10"]%string))
           "new"
           ["1"; "2"; "3"; "4"; "5"; "6"; "7"; "8"; "9"; "10"]%string).
  - reflexivity.
  - reflexivity.
  - reflexivity.
  - intros Hb. specialize (Hb "n"%char (or_introl eq_refl)). discriminate Hb.
  - cbn. intuition discriminate.
  - reflexivity.
Defined.

End FurtherPreferencesExamples.

Section FrameExample.

Import UserPreferencesApi.

(** A favorite is added under a stored history: the history stays.
    When the read of the storage throws and the write works, the stored
    history is overwritten. *)
Lemma preferences_frame_witness :
  let s := working (history_entry ["x"]%string) in
  let unreadable :=
    {| entry := history_entry ["x"]%string; getItem_throws := true;
       setItem_throws := false; console := [] |} in
  (exists P',
     fst (getPreferences (run (addToFavorites "a") s)) = Normal P'
     /\ (theme P' = "light"%string /\ language P' = "en"%string
         /\ notifications P' = true)
     /\ searchHistory P' = ["x"]%string)
  /\ entry (run (addToFavorites "a") unreadable)
     = Some (JsonText (JsonObject
         {| favorites_key := Some ["a"]%string;
            theme_key := Some "light"%string;
            language_key := Some "en"%string; notifications_key := Some true;
            searchHistory_key := Some [] |})).
Proof.
  cbv zeta. split.
  - exact (proj1 (proj1 (preferences_frame
                           (working (history_entry ["x"]%string))
                           "a" "q" _ eq_refl) eq_refl)).
  - exact (proj1 (proj2 (proj2 (preferences_frame
                  {| entry := history_entry ["x"]%string;
                     getItem_throws := true; setItem_throws := false;
                     console := [] |}
                  "a" "q" _ eq_refl) eq_refl eq_refl))).
Defined.

End FrameExample.

(** ** The options of the two selects *)

Section ControllerOptions.

Import Arrays EventsQueries VenuuApp Controller.

Lemma populateFilters_category_fold (events : list VenuuEvent)
    (set : list string) :
  forall c, In c (fold_left populateFilters_category events set) <->
            In c set
            \/ exists e, In e events
                 /\ ((exists l, category e = CategoryArray l /\ In c l)
                     \/ (category e = CategoryString c /\ c <> ""%string)).
Proof.
  revert set. induction events as [| x r IH]; intros set c; cbn [fold_left].
  - split; [now left |]. intros [H | (e & [] & _)]. exact H.
  - rewrite IH.
    assert (Hv : In c (populateFilters_category set x) <->
                 In c set
                 \/ (exists l, category x = CategoryArray l /\ In c l)
                 \/ (category x = CategoryString c /\ c <> ""%string)).
    { unfold populateFilters_category, category_string.
      destruct (category x) as [| s | l].
      - split; [now left |].
        intros [H | [(l & H & _) | [H _]]]; [exact H | |]; discriminate.
      - destruct (truthy_str s) eqn:Hs.
        + rewrite Set_add_In. apply truthy_str_true in Hs. split.
          * intros [H | ->]; [now left | right; right]. now split.
          * intros [H | [(l & H & _) | [[= ->] _]]];
              [now left | discriminate | now right].
        + apply truthy_str_false in Hs. subst s. split; [now left |].
          intros [H | [(l & H & _) | [[= <-] Hne]]];
            [exact H | discriminate | contradiction].
      - rewrite (proj1 (fold_Set_add l set)). split.
        + intros [H | H]; [now left | right; left]. now exists l.
        + intros [H | [(l' & [= <-] & H) | [H _]]];
            [now left | now right | discriminate]. }
    rewrite Hv. split.
    + intros [[H | H] | (e & He & H)]; [now left | right | right].
      * exists x. split; [now left | exact H].
      * exists e. split; [now right | exact H].
    + intros [H | (e & [<- | He] & H)]; [now left; left | now left; right |].
      right. now exists e.
Qed.

Lemma populateFilters_location_is_getLocations (events : list VenuuEvent)
    (set : list string) :
  fold_left populateFilters_location events set
  = fold_left getLocations_visit events set.
Proof.
  revert set. induction events as [| x r IH]; intros set; [reflexivity |].
  cbn [fold_left]. rewrite IH. reflexivity.
Qed.

(** X25. The options the controller offers: its location options are
    the list [getLocations] returns; each of its category options is in
    the list [getCategories] returns; and every option selects
    something, the category stage of [applyFilters] keeps at least one
    event for a category option that is not the empty string, and the
    location stage keeps at least one for a location option. *)
Theorem controller_options_select_events (events : list VenuuEvent) :
  location_options events = getLocations_of events
  /\ (forall c, In c (category_options events) ->
                In c (getCategories_of events))
  /\ (forall c, In c (category_options events) -> c <> ""%string ->
        exists e, In e (applyFilters_filtered events (choose_category c) ""))
  /\ (forall l, In l (location_options events) ->
        exists e, In e (applyFilters_filtered events (choose_location l) "")).
Proof.
  assert (Hloc : location_options events = getLocations_of events).
  { unfold location_options, getLocations_of.
    now rewrite populateFilters_location_is_getLocations. }
  assert (Hcat : forall c, In c (category_options events) ->
            exists e, In e events
              /\ ((exists l, category e = CategoryArray l /\ In c l)
                  \/ (category e = CategoryString c /\ c <> ""%string))).
  { intros c Hc. unfold category_options, sort_strings in Hc.
    apply sort_by_In in Hc. apply populateFilters_category_fold in Hc.
    destruct Hc as [[] | H]. exact H. }
  split; [exact Hloc |]. split; [| split].
  - intros c Hc. destruct (Hcat c Hc) as (e & He & H).
    apply getCategories_of_In. exists e. split; [exact He |].
    unfold categories_of, category_string.
    destruct H as [(l & Hl & Hin) | [Hs Hne]].
    + rewrite Hl. split; [exact Hin | eauto].
    + rewrite Hs. apply truthy_str_true in Hne. unfold or_else, truthy.
      rewrite Hne. cbn. rewrite Hne. split; [now left |].
      intros ->. discriminate.
  - intros c Hc Hne. destruct (Hcat c Hc) as (e & He & H). exists e.
    unfold applyFilters_filtered, choose_category.
    cbn [f_category f_location]. apply truthy_str_true in Hne.
    rewrite Hne. change (truthy_str "") with false. cbn iota.
    apply filter_In. split; [exact He |].
    unfold applyFilters_category, category_string. cbn [f_category].
    destruct H as [(l & Hl & Hin) | [Hs _]].
    + rewrite Hl. now apply array_includes_In.
    + rewrite Hs. cbn. apply String.eqb_refl.
  - intros l Hl. rewrite Hloc in Hl. apply getLocations_of_In in Hl.
    destruct Hl as (Hne & e & He & Hl). exists e.
    unfold applyFilters_filtered, choose_location.
    cbn [f_category f_location]. apply truthy_str_true in Hne.
    rewrite Hne. change (truthy_str "") with false. cbn iota.
    apply filter_In. split; [exact He |].
    unfold applyFilters_location. cbn [f_location].
    rewrite location_of_chain in Hl. unfold strict_eq.
    destruct (location_chain e) as [loc |]; cbn in Hl.
    + destruct (truthy_str loc) eqn:Ht.
      * subst. apply String.eqb_refl.
      * subst l. discriminate.
    + subst l. discriminate.
Qed.

End ControllerOptions.
